(** * Redropi highway firmware: actuator positioner and object detector

    A shallow embedding of [Firmware/servo_controller.py] and
    [Firmware/detection_ai.py], with the parts of [Firmware/gps_module.py],
    [Firmware/data_logger.py] and [Firmware/main.py] that the detection
    loop runs through, and the properties of the detection and tracking
    loop that are stated about them.

    Conventions of the embedding:
    - Python numbers are rationals [Q]: an int or a finite float, taken at
      its exact value; [inf] and [nan] are not numbers of the embedding.
      Comparisons are the exact ones and arithmetic is exact: the rounding
      of floats is not part of the embedding, the overflow of the range of
      a float is, where the code can raise by it (the step count of a
      smooth move).  Results that go through arithmetic are stated up to
      [Qeq] ([==]).
    - A dict with string keys is a [gmap string _]; a dict whose iteration
      order matters is an association list.
    - A method is a function of the object state returning a result (a value
      or a raised exception) together with the new state; a state change made
      before an exception is raised is kept, as in Python.
    - Logging, [time.sleep] and the lock of a single-threaded call are
      not part of the state. *)

From Stdlib Require Import QArith Qround Qabs Lqa.
From stdpp Require Import gmap strings list.

Open Scope Q_scope.

(** ** Python primitives *)

Module Py.

Inductive exn : Type :=
| KeyError (key : string)
| AttributeError (attr : string)
| OverflowError (operation : string)
| ExternalError (origin : string).

Inductive result (A : Type) : Type :=
| Ok (a : A)
| Raise (e : exn).
Arguments Ok {A} a.
Arguments Raise {A} e.

Definition is_failure {A} (r : result A) : Prop :=
  match r with Ok _ => False | Raise _ => True end.

(** [a < b] on numbers. *)
Definition lt (a b : Q) : bool :=
  match a ?= b with Lt => true | _ => false end.

(** [a <= b] on numbers. *)
Definition le (a b : Q) : bool :=
  match a ?= b with Gt => false | _ => true end.

(** [min(a, b)]: the first of the smallest arguments. *)
Definition min (a b : Q) : Q := if lt b a then b else a.

(** [max(a, b)]: the first of the largest arguments. *)
Definition max (a b : Q) : Q := if lt a b then b else a.

(** [int(x)]: truncation towards zero. *)
Definition int (x : Q) : Z := Z.quot (Qnum x) (Zpos (Qden x)).

(** [a % b] for a positive [b]: the result has the sign of [b].  It is the
    exact remainder, as Python's is for ints and for floats that are not
    negative; for a negative float Python rounds the sum of the remainder
    and [b], which the exact value does not show. *)
Definition mod_ (a b : Q) : Q := a - b * inject_Z (Qfloor (a / b)).

(** The range of a float.  From [2^1024 - 2^970] on, a magnitude rounds
    beyond the largest float: an int that large raises [OverflowError] when
    it is converted to a float, and a sum or difference of floats that large
    is infinite. *)
Definition float_limit : Q := inject_Z (2 ^ 1024 - 2 ^ 970).

(** Whether a number is out of the range of a float. *)
Definition overflows (x : Q) : bool := le float_limit (Qabs x).

(** A number of magnitude at most [2^1000]: far enough inside the range of
    a float that the sums, the differences and the products by the
    constants of the code that are made of such numbers stay inside it,
    whether the numbers are ints or floats. *)
Definition moderate (x : Q) : Prop := Qabs x <= inject_Z (2 ^ 1000).

(** [max(l, key=key)] on a non-empty list [first :: rest]: the first element
    whose key is not exceeded by any other. *)
Fixpoint max_by {A} (key : A -> Q) (best : A) (rest : list A) : A :=
  match rest with
  | [] => best
  | x :: rest' => max_by key (if lt (key best) (key x) then x else best) rest'
  end.

(** Methods: state and exception passing. *)
Section Method.
Context {S : Type}.

Definition M (A : Type) : Type := S -> result A * S.

Definition ret {A} (a : A) : M A := fun s => (Ok a, s).

Definition raise {A} (e : exn) : M A := fun s => (Raise e, s).

Definition bind {A B} (m : M A) (k : A -> M B) : M B :=
  fun s =>
    match m s with
    | (Ok a, s') => k a s'
    | (Raise e, s') => (Raise e, s')
    end.

(** [try: body except Exception as e: handler]. *)
Definition try_except {A} (body : M A) (handler : exn -> M A) : M A :=
  fun s =>
    match body s with
    | (Ok a, s') => (Ok a, s')
    | (Raise e, s') => handler e s'
    end.

Definition gets {A} (f : S -> A) : M A := fun s => (Ok (f s), s).

Definition modify (f : S -> S) : M unit := fun s => (Ok tt, f s).

(** [d[key]] on a dict. *)
Definition getitem {V} (d : gmap string V) (key : string) : M V :=
  match d !! key with
  | Some v => ret v
  | None => raise (KeyError key)
  end.

(** [for x in l: body(x)]. *)
Fixpoint for_each {A} (l : list A) (body : A -> M unit) : M unit :=
  match l with
  | [] => ret tt
  | x :: l' => bind (body x) (fun _ => for_each l' body)
  end.

(** [for i in range(n): body(i)]. *)
Definition for_range (n : Z) (body : Z -> M unit) : M unit :=
  for_each (seqZ 0 n) body.

(** A method keeps a property of the state, whether it returns or raises. *)
Definition preserves {A} (P : S -> Prop) (m : M A) : Prop :=
  forall s, P s -> P (snd (m s)).
End Method.

Arguments M : clear implicits.

End Py.

Import Py.

Notation "'do' x <- m ; k" := (bind m (fun x => k))
  (at level 10, x name, m at level 100, k at level 200).
Notation "m ;;; k" := (bind m (fun _ => k))
  (at level 100, k at level 200, right associativity).

(** ** The actuator positioner ([servo_controller.py]) *)

Module Servo.

(** [ServoController] and its subclass [MockServoController]. *)
Inductive Class : Type := Real | Mock.

(** The instance attributes that change.  [servo_pwm] maps the name of a
    started PWM channel to the duty cycle last written to it. *)
Record ServoController : Type := mkServoController {
  cls : Class;
  initialized : bool;
  current_positions : gmap string Q;
  servo_pwm : gmap string Q
}.

Definition set_initialized (b : bool) (self : ServoController) :=
  mkServoController (cls self) b (current_positions self) (servo_pwm self).

Definition set_current_position (servo_name : string) (angle : Q)
    (self : ServoController) :=
  mkServoController (cls self) (initialized self)
    (<[servo_name := angle]> (current_positions self)) (servo_pwm self).

Definition set_servo_pwm (servo_name : string) (duty_cycle : Q)
    (self : ServoController) :=
  mkServoController (cls self) (initialized self) (current_positions self)
    (<[servo_name := duty_cycle]> (servo_pwm self)).

Definition servo_pins_items : list (string * Z) :=
  [("dish_azimuth"%string, 18%Z); ("dish_elevation"%string, 19%Z);
   ("camera_pan"%string, 20%Z); ("camera_tilt"%string, 21%Z)].

Definition servo_pins_table : gmap string Z := list_to_map servo_pins_items.

Definition limits_table : gmap string (Q * Q) :=
  <["dish_azimuth"%string := (0, 180)]> (<["dish_elevation"%string := (0, 90)]>
  (<["camera_pan"%string := (0, 180)]> (<["camera_tilt"%string := (30, 150)]> ∅))).

Definition home_positions : list (string * Q) :=
  [("dish_azimuth"%string, 90); ("dish_elevation"%string, 45);
   ("camera_pan"%string, 90); ("camera_tilt"%string, 90)].

Definition initial_positions : gmap string Q := list_to_map home_positions.

(** [ServoController.__init__]. *)
Definition ServoController_init : ServoController :=
  mkServoController Real false initial_positions ∅.

(** [MockServoController.__init__]: it does not call the initialiser of the
    base class; it sets [logger], [initialized], [servo_lock] and
    [current_positions] only. *)
Definition MockServoController_init : ServoController :=
  mkServoController Mock false initial_positions ∅.

(** [self.servo_pins]: set by [ServoController.__init__] and never assigned
    again; an instance of the mock has no such attribute. *)
Definition servo_pins : M ServoController (gmap string Z) :=
  fun self =>
    match cls self with
    | Real => (Ok servo_pins_table, self)
    | Mock => (Raise (AttributeError "servo_pins"), self)
    end.

(** [self.limits]: as [servo_pins]. *)
Definition limits : M ServoController (gmap string (Q * Q)) :=
  fun self =>
    match cls self with
    | Real => (Ok limits_table, self)
    | Mock => (Raise (AttributeError "limits"), self)
    end.

(** A detection as [track_objects] reads it: a dict in which the keys
    ['confidence'] and ['coordinates'] may be present. *)
Record Detection : Type := mkDetection {
  confidence : option Q;
  coordinates : option (Q * Q)
}.

(** [x.get('confidence', 0)]. *)
Definition get_confidence (x : Detection) : Q := default 0 (confidence x).

Section Firmware.

(** The module-level flag: whether [RPi.GPIO] could be imported. *)
Variable GPIO_AVAILABLE : bool.

(** [ServoController._move_servo_to_position]. *)
Definition ServoController_move_servo_to_position
    (servo_name : string) (angle : Q) : M ServoController unit :=
  do is_init <- gets initialized;
  if negb is_init || negb GPIO_AVAILABLE then ret tt
  else
    try_except
      (do lims <- limits;
       do lim <- getitem lims servo_name;
       let '(min_angle, max_angle) := lim in
       let angle := max min_angle (min max_angle angle) in
       let duty_cycle := 2.5 + (angle / 180.0) * 10.0 in
       do pwms <- gets servo_pwm;
       getitem pwms servo_name ;;;
       modify (set_servo_pwm servo_name duty_cycle) ;;;
       modify (set_current_position servo_name angle))
      (fun _ => ret tt).

(** [MockServoController._move_servo_to_position]. *)
Definition MockServoController_move_servo_to_position
    (servo_name : string) (angle : Q) : M ServoController unit :=
  modify (set_current_position servo_name angle).

(** [self._move_servo_to_position(...)]: dispatch on the class. *)
Definition move_servo_to_position (servo_name : string) (angle : Q)
    : M ServoController unit :=
  do c <- gets cls;
  match c with
  | Real => ServoController_move_servo_to_position servo_name angle
  | Mock => MockServoController_move_servo_to_position servo_name angle
  end.

(** [ServoController._smooth_move].  The step count is computed in floats,
    before the first write: [abs(target_angle - current_angle) / step_size]
    raises [OverflowError] when the difference is an int too large for a
    float, and [int(steps)] raises it when the difference of floats is
    infinite.  Both happen when the difference is out of the range of a
    float, which is how the embedding decides.  Where an int meets a float
    Python converts the int first; this shows only for an int target
    within the magnitude of the stored position of the limit, and for a
    stored int beyond the limit, which no position within the range of an
    axis is. *)
Definition smooth_move (servo_name : string) (target_angle : Q)
    (step_size : Q) : M ServoController unit :=
  do positions <- gets current_positions;
  do current_angle <- getitem positions servo_name;
  let direction := if lt current_angle target_angle then 1 else -1 in
  do steps <-
    (if overflows (target_angle - current_angle)
     then raise (OverflowError "steps")
     else ret (Qabs (target_angle - current_angle) / step_size));
  for_range (int steps) (fun i =>
    let new_angle :=
      current_angle + (direction * step_size * (inject_Z i + 1)) in
    move_servo_to_position servo_name new_angle) ;;;
  move_servo_to_position servo_name target_angle.

(** [ServoController.move_servo]. *)
Definition move_servo (servo_name : string) (angle : Q) (smooth : bool)
    : M ServoController bool :=
  do pins <- servo_pins;
  if negb (bool_decide (is_Some (pins !! servo_name))) then ret false
  else
    try_except
      ((if smooth then smooth_move servo_name angle 2.0
        else move_servo_to_position servo_name angle) ;;;
       ret true)
      (fun _ => ret false).

(** [ServoController.move_dish_to_coordinates]. *)
Definition move_dish_to_coordinates (azimuth elevation : Q)
    : M ServoController bool :=
  try_except
    (let servo_azimuth := (mod_ azimuth 360) * 180 / 360 in
     do success_az <- move_servo "dish_azimuth" servo_azimuth true;
     do success_el <- move_servo "dish_elevation" elevation true;
     if success_az && success_el then ret true else ret false)
    (fun _ => ret false).

(** [ServoController.move_camera_to_coordinates]. *)
Definition move_camera_to_coordinates (pan tilt : Q)
    : M ServoController bool :=
  try_except
    (do success_pan <- move_servo "camera_pan" pan true;
     do success_tilt <- move_servo "camera_tilt" tilt true;
     if success_pan && success_tilt then ret true else ret false)
    (fun _ => ret false).

(** [primary_detection['coordinates']]. *)
Definition get_coordinates (x : Detection) : M ServoController (Q * Q) :=
  match coordinates x with
  | Some c => ret c
  | None => raise (KeyError "coordinates")
  end.

(** [ServoController.track_objects]. *)
Definition track_objects (detections : list Detection)
    : M ServoController unit :=
  match detections with
  | [] => ret tt
  | first :: rest =>
    try_except
      (let primary_detection := max_by get_confidence first rest in
       do center <- get_coordinates primary_detection;
       let '(x, y) := center in
       let pan_angle := x * 180 in
       let tilt_angle := 30 + (y * 120) in
       move_camera_to_coordinates pan_angle tilt_angle ;;;
       if lt 0.8 (get_confidence primary_detection) then
         let dish_azimuth := pan_angle * 2 in
         let dish_elevation := min 90 (tilt_angle - 30) in
         move_dish_to_coordinates dish_azimuth dish_elevation ;;;
         ret tt
       else ret tt)
      (fun _ => ret tt)
  end.

(** The loop of [home_all_servos] over the home positions. *)
Fixpoint home_all_servos_loop (items : list (string * Q)) (success : bool)
    : M ServoController bool :=
  match items with
  | [] => ret success
  | (servo_name, angle) :: items' =>
    do moved <- move_servo servo_name angle true;
    home_all_servos_loop items' (if negb moved then false else success)
  end.

(** [ServoController.home_all_servos]. *)
Definition home_all_servos : M ServoController bool :=
  try_except (home_all_servos_loop home_positions true) (fun _ => ret false).

(** Whether [GPIO.setmode] or [GPIO.setwarnings] raises. *)
Variable GPIO_setmode_raises : bool.

(** Whether [GPIO.setup], [GPIO.PWM] or [pwm.start] raises for a pin. *)
Variable GPIO_setup_raises : Z -> bool.

(** [ServoController.initialize] and its override
    [MockServoController.initialize]. *)
Definition initialize : M ServoController bool :=
  do c <- gets cls;
  match c with
  | Mock => modify (set_initialized true) ;;; ret true
  | Real =>
    if negb GPIO_AVAILABLE then modify (set_initialized true) ;;; ret true
    else
      try_except
        ((if GPIO_setmode_raises then raise (ExternalError "GPIO")
          else ret tt) ;;;
         for_each servo_pins_items (fun item =>
           let '(servo_name, pin) := item in
           (if GPIO_setup_raises pin then raise (ExternalError "GPIO")
            else ret tt) ;;;
           modify (set_servo_pwm servo_name 0) ;;;
           do positions <- gets current_positions;
           do angle <- getitem positions servo_name;
           move_servo_to_position servo_name angle) ;;;
         modify (set_initialized true) ;;;
         ret true)
        (fun _ => ret false)
  end.

(** [ServoController.get_positions]. *)
Definition get_positions : M ServoController (gmap string Q) :=
  gets current_positions.

(** Whether [pwm.stop()] raises for the channel of an axis. *)
Variable pwm_stop_raises : string -> bool.

(** Whether [GPIO.cleanup()] raises. *)
Variable GPIO_cleanup_raises : bool.

(** [ServoController.shutdown] and its override
    [MockServoController.shutdown].  The state keeps no record of a stopped
    channel, so the loop over [self.servo_pwm.values()] shows only by
    whether a [stop] raises. *)
Definition shutdown : M ServoController unit :=
  do c <- gets cls;
  match c with
  | Mock => modify (set_initialized false)
  | Real =>
    try_except
      (home_all_servos ;;;
       do pwms <- gets servo_pwm;
       for_each (map_to_list pwms) (fun channel =>
         if pwm_stop_raises (fst channel)
         then raise (ExternalError "pwm.stop") else ret tt) ;;;
       (if GPIO_AVAILABLE then
          if GPIO_cleanup_raises then raise (ExternalError "GPIO.cleanup")
          else ret tt
        else ret tt) ;;;
       modify (set_initialized false))
      (fun _ => ret tt)
  end.

End Firmware.

(** *** State predicates *)

(** The four axes. *)
Definition known (servo_name : string) : Prop :=
  is_Some (servo_pins_table !! servo_name).

(** Every axis has a stored position. *)
Definition positions_present (self : ServoController) : Prop :=
  forall n, known n -> is_Some (current_positions self !! n).

(** Every stored position of an axis is within the declared range of the
    axis. *)
Definition within_limits (self : ServoController) : Prop :=
  forall n lo hi v,
    limits_table !! n = Some (lo, hi) ->
    current_positions self !! n = Some v ->
    lo <= v /\ v <= hi.

(** The step count of a smooth move of an axis to a target can be
    computed: the difference of the target and the stored position is
    within the range of a float. *)
Definition steps_defined (self : ServoController) (servo_name : string)
    (target_angle : Q) : Prop :=
  forall v, current_positions self !! servo_name = Some v ->
    overflows (target_angle - v) = false.

(** A real controller that drives hardware: initialised with GPIO at hand,
    a PWM channel started for every axis. *)
Definition operational (GPIO_AVAILABLE : bool) (self : ServoController)
    : Prop :=
  cls self = Real /\ initialized self = true /\ GPIO_AVAILABLE = true /\
  forall n, known n -> is_Some (servo_pwm self !! n).

(** The duty cycle written for an angle. *)
Definition duty_cycle_of (angle : Q) : Q := 2.5 + (angle / 180.0) * 10.0.

(** The state after a completed hardware move of one axis. *)
Definition moved (servo_name : string) (angle : Q) (self : ServoController)
    : ServoController :=
  set_current_position servo_name angle
    (set_servo_pwm servo_name (duty_cycle_of angle) self).

(** The real controller after [initialize] went through with GPIO at
    hand. *)
Definition ready_controller : ServoController :=
  snd (initialize true false (fun _ => false) ServoController_init).

(** The stored dish azimuth as the specification words it: camera-pan
    times two, brought into [0,360] by wrapping, then clamped to the range
    of the axis. *)
Definition spec_dish_azimuth_wrapped (pan : Q) : Q :=
  max 0 (min 180 (mod_ (pan * 2) 360)).

(** The same with the value brought into [0,360] by clamping. *)
Definition spec_dish_azimuth_clamped (pan : Q) : Q :=
  max 0 (min 180 (max 0 (min 360 (pan * 2)))).

(** [w] is the first element of [l] with the largest confidence. *)
Definition first_max (l : list Detection) (w : Detection) : Prop :=
  exists pre post,
    l = pre ++ w :: post /\
    (forall d, d ∈ pre -> get_confidence d < get_confidence w) /\
    (forall d, d ∈ post -> get_confidence d <= get_confidence w).

End Servo.

(** ** The object detector ([detection_ai.py]) *)

Module Detector.

(** The values of [self.categories]. *)
Inductive Kind : Type := non_meteor | meteor | asteroid.

(** A grey-level image: rows of pixel values. *)
Definition Image : Type := list (list Z).

(** A contour, by what [cv2.contourArea] and [cv2.boundingRect] give for
    it. *)
Record Contour : Type := mkContour {
  contourArea : Q;
  boundingRect : Z * Z * Z * Z
}.

(** An entry of the list made by [detect_moving_objects]. *)
Record DetectedObject : Type := mkDetectedObject {
  contour : Contour;
  bbox : Z * Z * Z * Z;
  area : Q;
  aspect_ratio : Q;
  center : Z * Z
}.

Record Properties : Type := mkProperties {
  prop_aspect_ratio : Q;
  prop_brightness : Q
}.

(** The dict returned by [classify_object]; the fallback of its handler has
    no ['properties']. *)
Record Classification : Type := mkClassification {
  type_ : Kind;
  confidence : Q;
  coordinates : Z * Z;
  cls_bbox : Z * Z * Z * Z;
  cls_area : Q;
  properties : option Properties
}.

(** [a[start:stop]] for indices that are not negative. *)
Definition slice {A} (start stop : Z) (a : list A) : list A :=
  take (Z.to_nat stop - Z.to_nat start)%nat (drop (Z.to_nat start) a).

(** [frame[y:y+h, x:x+w]]. *)
Definition region (frame : Image) (x y w h : Z) : Image :=
  map (slice x (x + w)) (slice y (y + h) frame).

(** [roi.size]. *)
Definition size (roi : Image) : Z :=
  match roi with
  | [] => 0%Z
  | row :: _ => (Z.of_nat (length roi) * Z.of_nat (length row))%Z
  end.

(** [np.mean(roi)] of an array that is not empty. *)
Definition mean (roi : Image) : Q :=
  inject_Z (foldr Z.add 0%Z (concat roi)) / inject_Z (size roi).

(** [np.mean(roi) if roi.size > 0 else 0]. *)
Definition brightness_of (roi : Image) : Q :=
  if (0 <? size roi)%Z then mean roi else 0.

(** [AsteroidDetector.heuristic_classification]. *)
Definition heuristic_classification (obj : DetectedObject) (roi : Image)
    : Kind * Q :=
  let area := area obj in
  let aspect_ratio := aspect_ratio obj in
  let brightness := brightness_of roi in
  if lt 200 brightness && lt 100 area then
    if lt 2.0 aspect_ratio then (meteor, 0.8)
    else if lt 500 area then (asteroid, 0.7)
    else (meteor, 0.6)
  else if lt 150 brightness then (meteor, 0.5)
  else (non_meteor, 0.9).

(** The loop of [detect_moving_objects] over the contours. *)
Fixpoint collect_objects (contours : list Contour)
    (objects : list DetectedObject) : list DetectedObject :=
  match contours with
  | [] => objects
  | c :: contours' =>
    let area := contourArea c in
    if lt 50 area && lt area 5000 then
      let '(x, y, w, h) := boundingRect c in
      let aspect_ratio :=
        if (0 <? h)%Z then inject_Z w / inject_Z h else 0 in
      collect_objects contours'
        (objects ++ [mkDetectedObject c (x, y, w, h) area aspect_ratio
                       ((x + w / 2)%Z, (y + h / 2)%Z)])
    else collect_objects contours' objects
  end.

Section Detection.

(** The state of the [cv2] background subtractor. *)
Variable BackgroundModel : Type.

Record AsteroidDetector : Type := mkAsteroidDetector {
  model_loaded : bool;
  detection_threshold : Q;
  background_subtractor : BackgroundModel
}.

Definition set_model_loaded (b : bool) (self : AsteroidDetector) :=
  mkAsteroidDetector b (detection_threshold self)
    (background_subtractor self).

Definition set_threshold (t : Q) (self : AsteroidDetector) :=
  mkAsteroidDetector (model_loaded self) t (background_subtractor self).

Definition set_background (b : BackgroundModel) (self : AsteroidDetector) :=
  mkAsteroidDetector (model_loaded self) (detection_threshold self) b.

(** [AsteroidDetector.__init__], from a fresh background subtractor. *)
Definition AsteroidDetector_init (fresh : BackgroundModel)
    : AsteroidDetector :=
  mkAsteroidDetector false 0.5 fresh.

(** [AsteroidDetector.load_model]. *)
Definition load_model : M AsteroidDetector unit :=
  modify (set_model_loaded true).

(** [AsteroidDetector.preprocess_frame]: colour conversion, blur and
    histogram equalisation, all done by [cv2]; it may raise. *)
Variable preprocess_frame : Image -> result Image.

(** [background_subtractor.apply], the morphological opening and
    [cv2.findContours]: the contours of the foreground, or an exception,
    and the updated background model. *)
Variable foreground_contours :
  BackgroundModel -> Image -> result (list Contour) * BackgroundModel.

(** [self.heuristic_classification], as the instance resolves it: the
    method of the class below or a replacement, which may raise. *)
Variable classification_policy :
  DetectedObject -> Image -> result (Kind * Q).

Definition lift {A} (r : result A) : M AsteroidDetector A :=
  fun self => (r, self).

(** [AsteroidDetector.detect_moving_objects]. *)
Definition detect_moving_objects (frame : Image)
    : M AsteroidDetector (list DetectedObject) :=
  try_except
    (do bg <- gets background_subtractor;
     let '(found, bg') := foreground_contours bg frame in
     modify (set_background bg') ;;;
     do contours <- lift found;
     ret (collect_objects contours []))
    (fun _ => ret []).

(** [AsteroidDetector.classify_object]. *)
Definition classify_object (obj : DetectedObject) (frame : Image)
    : M AsteroidDetector Classification :=
  try_except
    (let '(x, y, w, h) := bbox obj in
     let roi := region frame x y w h in
     do classification <- lift (classification_policy obj roi);
     ret (mkClassification (fst classification) (snd classification)
            (center obj) (bbox obj) (area obj)
            (Some (mkProperties (aspect_ratio obj) (brightness_of roi)))))
    (fun _ =>
       ret (mkClassification non_meteor 0.0 (center obj) (bbox obj)
              (area obj) None)).

(** The loop of [analyze_frame] over the moving objects. *)
Fixpoint classify_all (moving_objects : list DetectedObject)
    (processed_frame : Image) (detections : list Classification)
    : M AsteroidDetector (list Classification) :=
  match moving_objects with
  | [] => ret detections
  | obj :: moving_objects' =>
    do classification <- classify_object obj processed_frame;
    do threshold <- gets detection_threshold;
    if lt threshold (confidence classification) then
      classify_all moving_objects' processed_frame
        (detections ++ [classification])
    else classify_all moving_objects' processed_frame detections
  end.

(** [AsteroidDetector.analyze_frame]. *)
Definition analyze_frame (frame : Image)
    : M AsteroidDetector (list Classification) :=
  do loaded <- gets model_loaded;
  if negb loaded then ret []
  else
    try_except
      (do processed_frame <- lift (preprocess_frame frame);
       do moving_objects <- detect_moving_objects processed_frame;
       classify_all moving_objects processed_frame [])
      (fun _ => ret []).

(** [AsteroidDetector.set_detection_threshold]. *)
Definition set_detection_threshold (threshold : Q)
    : M AsteroidDetector unit :=
  if le 0.0 threshold && le threshold 1.0 then
    modify (set_threshold threshold)
  else ret tt.

(** *** Specification-level notions *)

(** What one object contributes to the result of a pass: its
    classification when the policy returns one above the threshold,
    nothing when the policy raises or the confidence is too low. *)
Definition survivor (threshold : Q) (processed_frame : Image)
    (obj : DetectedObject) : option Classification :=
  let '(x, y, w, h) := bbox obj in
  let roi := region processed_frame x y w h in
  match classification_policy obj roi with
  | Ok (kind, conf) =>
    if lt threshold conf then
      Some (mkClassification kind conf (center obj) (bbox obj) (area obj)
              (Some (mkProperties (aspect_ratio obj) (brightness_of roi))))
    else None
  | Raise _ => None
  end.

End Detection.

Arguments model_loaded {BackgroundModel} _.
Arguments detection_threshold {BackgroundModel} _.
Arguments background_subtractor {BackgroundModel} _.
Arguments set_model_loaded {BackgroundModel} _ _.
Arguments set_threshold {BackgroundModel} _ _.
Arguments set_background {BackgroundModel} _ _.
Arguments AsteroidDetector_init {BackgroundModel} _.
Arguments load_model {BackgroundModel} _.
Arguments lift {BackgroundModel A} _ _.
Arguments detect_moving_objects {BackgroundModel} _ _ _.
Arguments classify_object {BackgroundModel} _ _ _ _.
Arguments classify_all {BackgroundModel} _ _ _ _ _.
Arguments analyze_frame {BackgroundModel} _ _ _ _ _.
Arguments set_detection_threshold {BackgroundModel} _ _.


(** The policy of the class itself: it never raises. *)
Definition default_policy (obj : DetectedObject) (roi : Image)
    : result (Kind * Q) :=
  Ok (heuristic_classification obj roi).

(** *** Inputs of the concrete runs *)

(** A frame of 100 by 100 pixels, all at 255, taken as it is by the
    preprocessing. *)
Definition bright_frame : Image := replicate 100 (replicate 100 255%Z).

Definition keep_frame (frame : Image) : result Image := Ok frame.

(** A segmentation that finds the given contours in every frame. *)
Definition always_finds (contours : list Contour) (bg : unit)
    (frame : Image) : result (list Contour) * unit :=
  (Ok contours, bg).

(** Components of area 30, 50, 120, 5000, 6000 and 800. *)
Definition mixed_contours : list Contour :=
  [mkContour 30 (90, 90, 6, 6)%Z; mkContour 50 (80, 80, 8, 8)%Z;
   mkContour 120 (0, 0, 25, 10)%Z; mkContour 5000 (0, 0, 80, 80)%Z;
   mkContour 6000 (0, 0, 90, 90)%Z; mkContour 800 (50, 50, 30, 30)%Z].

(** Components of area 120, 800 and 300. *)
Definition three_contours : list Contour :=
  [mkContour 120 (0, 0, 25, 10)%Z; mkContour 800 (50, 50, 30, 30)%Z;
   mkContour 300 (10, 40, 20, 20)%Z].

(** A policy that raises for an object of area above 500 and is the
    heuristic of the class otherwise. *)
Definition policy_failing_on_large (obj : DetectedObject) (roi : Image)
    : result (Kind * Q) :=
  if lt 500 (area obj) then Raise (ExternalError "policy")
  else default_policy obj roi.

(** A detector with its model loaded. *)
Definition loaded_detector : AsteroidDetector unit :=
  snd (load_model (AsteroidDetector_init tt)).

(** *** Notions for the further properties *)

(** The test of [detect_moving_objects] on a contour. *)
Definition area_in_range (c : Contour) : bool :=
  lt 50 (contourArea c) && lt (contourArea c) 5000.

(** The object that [detect_moving_objects] makes of a contour it keeps. *)
Definition object_of_contour (c : Contour) : DetectedObject :=
  let '(x, y, w, h) := boundingRect c in
  mkDetectedObject c (x, y, w, h) (contourArea c)
    (if (0 <? h)%Z then inject_Z w / inject_Z h else 0)
    ((x + w / 2)%Z, (y + h / 2)%Z).

(** The test of [set_detection_threshold] on a value. *)
Definition valid_threshold (t : Q) : bool := le 0.0 t && le t 1.0.

(** [set_detection_threshold] called with each value of a list in turn. *)
Definition set_thresholds {BackgroundModel} (ts : list Q)
    (self : AsteroidDetector BackgroundModel)
    : AsteroidDetector BackgroundModel :=
  foldl (fun s t => snd (set_detection_threshold t s)) self ts.

(** A rectangular array of the given width with pixel values of a byte. *)
Definition byte_image (width : nat) (roi : Image) : Prop :=
  Forall (fun row => length row = width /\
                     Forall (fun v => (0 <= v <= 255)%Z) row) roi.

End Detector.

(** ** The position source ([gps_module.py]) *)

Module Gps.

(** The dict [current_location]. *)
Record Location : Type := mkLocation {
  latitude : option Q;
  longitude : option Q;
  altitude : option Q;
  timestamp : option Q;
  satellites : Z;
  fix_quality : Z;
  hdop : option Q
}.

(** The attributes of a [GPSController] that the parsing and the queries
    use; the serial connection and the reading thread are left out. *)
Record GPSController : Type := mkGPSController {
  running : bool;
  current_location : Location
}.

(** [GPSController.__init__]. *)
Definition GPSController_init : GPSController :=
  mkGPSController false (mkLocation None None None None 0 0 None).

(** [MockGPSController.__init__], at the clock reading [now]. *)
Definition MockGPSController_init (now : Q) : GPSController :=
  mkGPSController false
    (mkLocation (Some 40.7128) (Some (-74.0060)) (Some 10.0) (Some now) 8 1
       (Some 1.2)).

Definition set_location (f : Location -> Location) (self : GPSController)
    : GPSController :=
  mkGPSController (running self) (f (current_location self)).

Definition set_latitude (v : option Q) (l : Location) : Location :=
  mkLocation v (longitude l) (altitude l) (timestamp l) (satellites l)
    (fix_quality l) (hdop l).

Definition set_longitude (v : option Q) (l : Location) : Location :=
  mkLocation (latitude l) v (altitude l) (timestamp l) (satellites l)
    (fix_quality l) (hdop l).

Definition set_altitude (v : option Q) (l : Location) : Location :=
  mkLocation (latitude l) (longitude l) v (timestamp l) (satellites l)
    (fix_quality l) (hdop l).

Definition set_timestamp (v : option Q) (l : Location) : Location :=
  mkLocation (latitude l) (longitude l) (altitude l) v (satellites l)
    (fix_quality l) (hdop l).

Definition set_satellites (v : Z) (l : Location) : Location :=
  mkLocation (latitude l) (longitude l) (altitude l) (timestamp l) v
    (fix_quality l) (hdop l).

Definition set_fix_quality (v : Z) (l : Location) : Location :=
  mkLocation (latitude l) (longitude l) (altitude l) (timestamp l)
    (satellites l) v (hdop l).

Definition set_hdop (v : option Q) (l : Location) : Location :=
  mkLocation (latitude l) (longitude l) (altitude l) (timestamp l)
    (satellites l) (fix_quality l) v.

(** [GPSController.get_location]: a copy of the dict. *)
Definition get_location (self : GPSController) : Location :=
  current_location self.

(** [GPSController.get_coordinates]. *)
Definition get_coordinates (self : GPSController) : option (Q * Q) :=
  let location := get_location self in
  match latitude location, longitude location with
  | Some lat, Some lon => Some (lat, lon)
  | _, _ => None
  end.

(** [GPSController.has_fix]. *)
Definition has_fix (self : GPSController) : bool :=
  let location := get_location self in
  bool_decide (is_Some (latitude location)) &&
  bool_decide (is_Some (longitude location)) &&
  (0 <? fix_quality location)%Z.

(** The fields that only a GGA sentence writes. *)
Definition gga_fields (l : Location) : option Q * Z * Z :=
  (altitude l, satellites l, fix_quality l).

(** A location with a latitude and a longitude. *)
Definition located (l : Location) : Prop :=
  is_Some (latitude l) /\ is_Some (longitude l).

(** A location with a time has coordinates. *)
Definition timed_is_located (l : Location) : Prop :=
  is_Some (timestamp l) -> located l.

Section Nmea.

(** A field of a parsed sentence, as [pynmea2] gives it, with its truth
    value and the conversions [float(v)] and [int(v)], which may raise. *)
Variable Value : Type.
Variable truthy : Value -> bool.
Variable float_of : Value -> result Q.
Variable int_of : Value -> result Z.

(** The reading of [time.time()]. *)
Variable time_time : Q.

(** A parsed sentence: the fields that the updates read. *)
Inductive Message : Type :=
| GGA (latitude longitude altitude num_sats gps_qual horizontal_dil : Value)
| RMC (latitude longitude : Value)
| GSA (hdop : Value)
| OtherSentence.

(** [pynmea2.parse]: a message, or [ParseError] or another exception. *)
Variable parse : string -> result Message.

Definition lift {A} (r : result A) : M GPSController A :=
  fun self => (r, self).

Definition assign (f : Location -> Location) : M GPSController unit :=
  modify (set_location f).

(** [GPSController._update_gga_data]. *)
Definition update_gga_data
    (lat lon altitude num_sats gps_qual horizontal_dil : Value)
    : M GPSController unit :=
  if truthy lat && truthy lon then
    do v <- lift (float_of lat);
    assign (set_latitude (Some v)) ;;;
    do v <- lift (float_of lon);
    assign (set_longitude (Some v)) ;;;
    (if truthy altitude then
       do v <- lift (float_of altitude); assign (set_altitude (Some v))
     else assign (set_altitude None)) ;;;
    (if truthy num_sats then
       do v <- lift (int_of num_sats); assign (set_satellites v)
     else assign (set_satellites 0)) ;;;
    (if truthy gps_qual then
       do v <- lift (int_of gps_qual); assign (set_fix_quality v)
     else assign (set_fix_quality 0)) ;;;
    (if truthy horizontal_dil then
       do v <- lift (float_of horizontal_dil); assign (set_hdop (Some v))
     else assign (set_hdop None)) ;;;
    assign (set_timestamp (Some time_time))
  else ret tt.

(** [GPSController._update_rmc_data]. *)
Definition update_rmc_data (lat lon : Value) : M GPSController unit :=
  if truthy lat && truthy lon then
    do v <- lift (float_of lat);
    assign (set_latitude (Some v)) ;;;
    do v <- lift (float_of lon);
    assign (set_longitude (Some v)) ;;;
    assign (set_timestamp (Some time_time))
  else ret tt.

(** [GPSController._update_gsa_data]. *)
Definition update_gsa_data (hdop : Value) : M GPSController unit :=
  if truthy hdop then
    do v <- lift (float_of hdop); assign (set_hdop (Some v))
  else ret tt.

(** [GPSController._parse_nmea_sentence]. *)
Definition parse_nmea_sentence (sentence : string) : M GPSController unit :=
  try_except
    (do msg <- lift (parse sentence);
     match msg with
     | GGA lat lon altitude num_sats gps_qual horizontal_dil =>
         update_gga_data lat lon altitude num_sats gps_qual horizontal_dil
     | RMC lat lon => update_rmc_data lat lon
     | GSA hdop => update_gsa_data hdop
     | OtherSentence => ret tt
     end)
    (fun _ => ret tt).

(** The sentences of a list parsed one after the other. *)
Definition parse_all (sentences : list string) : M GPSController unit :=
  for_each sentences parse_nmea_sentence.

(** Whether a sentence parses to a GGA message. *)
Definition is_gga (sentence : string) : bool :=
  match parse sentence with
  | Ok (GGA _ _ _ _ _ _) => true
  | _ => false
  end.

End Nmea.

(** *** Sample inputs *)

(** A field that is a number, or empty. *)
Definition sample_truthy (v : option Q) : bool := bool_decide (is_Some v).

Definition sample_float (v : option Q) : result Q :=
  match v with
  | Some q => Ok q
  | None => Raise (ExternalError "float")
  end.

(** [int] of a field: of a whole number only. *)
Definition sample_int (v : option Q) : result Z :=
  match v with
  | Some q =>
      if Qeq_bool (inject_Z (Qfloor q)) q then Ok (Qfloor q)
      else Raise (ExternalError "int")
  | None => Raise (ExternalError "int")
  end.

(** A parser that knows four sentences: an RMC, a GSA, a GGA whose fix
    quality is not a whole number, and a GGA in order. *)
Definition sample_parse (sentence : string) : result (Message (option Q)) :=
  if String.eqb sentence "$GPRMC" then
    Ok (RMC _ (Some 40.5) (Some (-74)))
  else if String.eqb sentence "$GPGSA" then
    Ok (GSA _ (Some 1.5))
  else if String.eqb sentence "$GPGGA,bad" then
    Ok (GGA _ (Some 41) (Some (-73)) (Some 12) (Some 7) (Some 1.5) (Some 1))
  else if String.eqb sentence "$GPGGA" then
    Ok (GGA _ (Some 41) (Some (-73)) (Some 12) (Some 7) (Some 1) (Some 1))
  else Raise (ExternalError "ParseError").

End Gps.

(** ** The data logger, as the control loop uses it ([data_logger.py]) *)

Module Logger.

(** The dict under ['properties']. *)
Record PropertiesDict : Type := mkPropertiesDict {
  pd_aspect_ratio : option Q;
  pd_brightness : option Q
}.

(** The dict [detection_data], by the keys that [log_detection] reads; a
    key that is absent is [None]. *)
Record DetectionData : Type := mkDetectionData {
  dd_timestamp : option string;
  dd_type : option string;
  dd_confidence : option Q;
  dd_coordinates : option (Z * Z);
  dd_bbox : option (Z * Z * Z * Z);
  dd_area : option Q;
  dd_properties : option PropertiesDict;
  dd_gps_location : option Gps.Location;
  dd_frame_id : option Z;
  dd_image_path : option string
}.

Definition set_image_path (path : string) (d : DetectionData)
    : DetectionData :=
  mkDetectionData (dd_timestamp d) (dd_type d) (dd_confidence d)
    (dd_coordinates d) (dd_bbox d) (dd_area d) (dd_properties d)
    (dd_gps_location d) (dd_frame_id d) (Some path).

(** A row of the detection log; a frame id that is absent is written as the
    empty string, here [None]. *)
Record CsvRow : Type := mkCsvRow {
  row_timestamp : string;
  row_type : string;
  row_confidence : Q;
  row_coordinates_x : Z;
  row_coordinates_y : Z;
  row_bbox_x : Z;
  row_bbox_y : Z;
  row_bbox_w : Z;
  row_bbox_h : Z;
  row_area : Q;
  row_aspect_ratio : Q;
  row_brightness : Q;
  row_gps_lat : option Q;
  row_gps_lon : option Q;
  row_gps_alt : option Q;
  row_frame_id : option Z;
  row_image_path : string
}.

(** [session_stats] and the rows appended to the detection log; the paths
    of the files are left out. *)
Record DataLogger : Type := mkDataLogger {
  detection_log : list CsvRow;
  session_start : string;
  total_detections : Z;
  detection_types : gmap string Z;
  images_saved : Z;
  system_events : Z
}.

(** [DataLogger.__init__] at the clock reading [now], with a detection log
    that holds no row yet. *)
Definition DataLogger_init (now : string) : DataLogger :=
  mkDataLogger [] now 0
    (<["meteor"%string := 0%Z]> (<["asteroid"%string := 0%Z]>
      (<["non_meteor"%string := 0%Z]> ∅))) 0 0.

Definition append_row (row : CsvRow) (self : DataLogger) : DataLogger :=
  mkDataLogger (detection_log self ++ [row]) (session_start self)
    (total_detections self) (detection_types self) (images_saved self)
    (system_events self).

Definition count_detection (self : DataLogger) : DataLogger :=
  mkDataLogger (detection_log self) (session_start self)
    (total_detections self + 1) (detection_types self) (images_saved self)
    (system_events self).

Definition set_detection_types (types : gmap string Z) (self : DataLogger)
    : DataLogger :=
  mkDataLogger (detection_log self) (session_start self)
    (total_detections self) types (images_saved self) (system_events self).

Definition count_image (self : DataLogger) : DataLogger :=
  mkDataLogger (detection_log self) (session_start self)
    (total_detections self) (detection_types self) (images_saved self + 1)
    (system_events self).

Section Files.

(** The reading of [datetime.now().isoformat()]. *)
Variable now : string.

(** Whether opening the detection log or writing the row raises. *)
Variable csv_write_raises : CsvRow -> bool.

(** The path that [save_frame] makes for a detection, and what annotating
    the frame and [cv2.imwrite] give: success, failure or an exception. *)
Variable image_file : DetectionData -> string.
Variable cv2_imwrite : list (list Z) -> DetectionData -> result bool.

(** The row that [log_detection] prepares. *)
Definition csv_row_of (detection_data : DetectionData) : CsvRow :=
  mkCsvRow
    (default now (dd_timestamp detection_data))
    (default "unknown"%string (dd_type detection_data))
    (default 0.0 (dd_confidence detection_data))
    (fst (default (0, 0)%Z (dd_coordinates detection_data)))
    (snd (default (0, 0)%Z (dd_coordinates detection_data)))
    (let '(x, _, _, _) := default (0, 0, 0, 0)%Z (dd_bbox detection_data) in x)
    (let '(_, y, _, _) := default (0, 0, 0, 0)%Z (dd_bbox detection_data) in y)
    (let '(_, _, w, _) := default (0, 0, 0, 0)%Z (dd_bbox detection_data) in w)
    (let '(_, _, _, h) := default (0, 0, 0, 0)%Z (dd_bbox detection_data) in h)
    (default 0 (dd_area detection_data))
    (default 0
       (pd_aspect_ratio
          (default (mkPropertiesDict None None)
             (dd_properties detection_data))))
    (default 0
       (pd_brightness
          (default (mkPropertiesDict None None)
             (dd_properties detection_data))))
    (match dd_gps_location detection_data with
     | Some l => Gps.latitude l | None => None end)
    (match dd_gps_location detection_data with
     | Some l => Gps.longitude l | None => None end)
    (match dd_gps_location detection_data with
     | Some l => Gps.altitude l | None => None end)
    (dd_frame_id detection_data)
    (default ""%string (dd_image_path detection_data)).

(** [DataLogger.log_detection]. *)
Definition log_detection (detection_data : DetectionData)
    : M DataLogger unit :=
  try_except
    (let csv_row := csv_row_of detection_data in
     (if csv_write_raises csv_row then raise (ExternalError "csv")
      else modify (append_row csv_row)) ;;;
     modify count_detection ;;;
     let detection_type := default "unknown"%string (dd_type detection_data) in
     do types <- gets detection_types;
     match types !! detection_type with
     | Some n => modify (set_detection_types (<[detection_type := (n + 1)%Z]> types))
     | None => ret tt
     end)
    (fun _ => ret tt).

(** [DataLogger.save_frame]: the path or [None], and the dict
    [detection_data] as the call leaves it. *)
Definition save_frame (frame : list (list Z)) (detection_data : DetectionData)
    : M DataLogger (option string * DetectionData) :=
  try_except
    (let filepath := image_file detection_data in
     do success <- (fun self => (cv2_imwrite frame detection_data, self));
     if success then
       modify count_image ;;;
       ret (Some filepath, set_image_path filepath detection_data)
     else ret (None, detection_data))
    (fun _ => ret (None, detection_data)).

End Files.

(** The tallies by type add up to the total. *)
Definition tallies_add_up (self : DataLogger) : Prop :=
  exists m a n,
    detection_types self !! "meteor"%string = Some m /\
    detection_types self !! "asteroid"%string = Some a /\
    detection_types self !! "non_meteor"%string = Some n /\
    total_detections self = (m + a + n)%Z.

End Logger.

(** ** The control loop ([main.py]) *)

Module Main.

(** The string of a kind, as the dicts carry it. *)
Definition kind_name (k : Detector.Kind) : string :=
  match k with
  | Detector.non_meteor => "non_meteor"
  | Detector.meteor => "meteor"
  | Detector.asteroid => "asteroid"
  end.

(** A classification of the detector as [track_objects] reads it: the same
    dict, with its confidence and its centre. *)
Definition detection_of (c : Detector.Classification) : Servo.Detection :=
  Servo.mkDetection (Some (Detector.confidence c))
    (Some (inject_Z (fst (Detector.coordinates c)),
           inject_Z (snd (Detector.coordinates c)))).

Section Loop.

Variable BackgroundModel : Type.

(** The attributes of a [RadropiSystem]; the camera gives its frames from
    outside. *)
Record RadropiSystem : Type := mkRadropiSystem {
  running : bool;
  gps : Gps.GPSController;
  servos : Servo.ServoController;
  detector : Detector.AsteroidDetector BackgroundModel;
  data_logger : Logger.DataLogger;
  detection_count : gmap string Z
}.

(** [RadropiSystem.__init__], from a fresh background subtractor, at the
    clock reading [started]. *)
Definition RadropiSystem_init (fresh : BackgroundModel) (started : string)
    : RadropiSystem :=
  mkRadropiSystem false Gps.GPSController_init Servo.ServoController_init
    (Detector.AsteroidDetector_init fresh) (Logger.DataLogger_init started)
    (<["meteor"%string := 0%Z]> (<["asteroid"%string := 0%Z]>
      (<["non_meteor"%string := 0%Z]> ∅))).

Definition set_servos (v : Servo.ServoController) (self : RadropiSystem) :=
  mkRadropiSystem (running self) (gps self) v (detector self)
    (data_logger self) (detection_count self).

Definition set_detector (v : Detector.AsteroidDetector BackgroundModel)
    (self : RadropiSystem) :=
  mkRadropiSystem (running self) (gps self) (servos self) v
    (data_logger self) (detection_count self).

Definition set_data_logger (v : Logger.DataLogger) (self : RadropiSystem) :=
  mkRadropiSystem (running self) (gps self) (servos self) (detector self) v
    (detection_count self).

Definition set_detection_count (v : gmap string Z) (self : RadropiSystem) :=
  mkRadropiSystem (running self) (gps self) (servos self) (detector self)
    (data_logger self) v.

(** A method of a component run on the component of the system. *)
Definition on_servos {A} (m : M Servo.ServoController A)
    : M RadropiSystem A :=
  fun self => let '(r, v) := m (servos self) in (r, set_servos v self).

Definition on_detector {A}
    (m : M (Detector.AsteroidDetector BackgroundModel) A)
    : M RadropiSystem A :=
  fun self => let '(r, v) := m (detector self) in (r, set_detector v self).

Definition on_data_logger {A} (m : M Logger.DataLogger A)
    : M RadropiSystem A :=
  fun self =>
    let '(r, v) := m (data_logger self) in (r, set_data_logger v self).

Variable GPIO_AVAILABLE : bool.
Variable preprocess_frame : Detector.Image -> result Detector.Image.
Variable foreground_contours :
  BackgroundModel -> Detector.Image ->
  result (list Detector.Contour) * BackgroundModel.
Variable classification_policy :
  Detector.DetectedObject -> Detector.Image -> result (Detector.Kind * Q).
Variable now : string.
Variable csv_write_raises : Logger.CsvRow -> bool.
Variable image_file : Logger.DetectionData -> string.
Variable cv2_imwrite :
  Detector.Image -> Logger.DetectionData -> result bool.

(** [id(frame)]. *)
Variable id_of : Detector.Image -> Z.

(** The dict that [process_detection] hands to the logger. *)
Definition detection_data_of (detection : Detector.Classification)
    (gps_location : Gps.Location) (frame : Detector.Image)
    : Logger.DetectionData :=
  Logger.mkDetectionData (Some now)
    (Some (kind_name (Detector.type_ detection)))
    (Some (Detector.confidence detection))
    (Some (Detector.coordinates detection))
    None None None (Some gps_location) (Some (id_of frame)) None.

(** [RadropiSystem.process_detection]. *)
Definition process_detection (detection : Detector.Classification)
    (frame : Detector.Image) : M RadropiSystem unit :=
  try_except
    (let object_type := kind_name (Detector.type_ detection) in
     let confidence := Detector.confidence detection in
     do counts <- gets detection_count;
     match counts !! object_type with
     | Some n =>
         modify (set_detection_count (<[object_type := (n + 1)%Z]> counts))
     | None => ret tt
     end ;;;
     do gps_location <- gets (fun self => Gps.get_location (gps self));
     let detection_data := detection_data_of detection gps_location frame in
     on_data_logger
       (Logger.log_detection now csv_write_raises detection_data) ;;;
     if lt 0.8 confidence &&
        bool_decide (object_type ∈ ["meteor"%string; "asteroid"%string])
     then
       on_data_logger
         (Logger.save_frame image_file cv2_imwrite frame detection_data) ;;;
       ret tt
     else ret tt)
    (fun _ => ret tt).

(** One round of [main_detection_loop], for what [camera.capture_frame()]
    gave: a frame or [None]. *)
Definition detection_round (captured : option Detector.Image)
    : M RadropiSystem unit :=
  try_except
    (match captured with
     | Some frame =>
         do detections <-
           on_detector
             (Detector.analyze_frame preprocess_frame foreground_contours
                classification_policy frame);
         for_each detections (fun detection =>
           process_detection detection frame) ;;;
         match detections with
         | [] => ret tt
         | _ :: _ =>
             on_servos
               (Servo.track_objects GPIO_AVAILABLE
                  (map detection_of detections))
         end
     | None => ret tt
     end)
    (fun _ => ret tt).

(** The rounds of the loop for a series of captures. *)
Definition detection_rounds (captures : list (option Detector.Image))
    : M RadropiSystem unit :=
  for_each captures detection_round.

End Loop.

Arguments running {BackgroundModel} _.
Arguments gps {BackgroundModel} _.
Arguments servos {BackgroundModel} _.
Arguments detector {BackgroundModel} _.
Arguments data_logger {BackgroundModel} _.
Arguments detection_count {BackgroundModel} _.
Arguments RadropiSystem_init {BackgroundModel} _ _.
Arguments process_detection {BackgroundModel}.
Arguments detection_round {BackgroundModel}.
Arguments detection_rounds {BackgroundModel}.
Arguments on_servos {BackgroundModel A}.
Arguments on_detector {BackgroundModel A}.
Arguments on_data_logger {BackgroundModel A}.
Arguments set_servos {BackgroundModel}.
Arguments set_detector {BackgroundModel}.
Arguments set_data_logger {BackgroundModel}.
Arguments set_detection_count {BackgroundModel}.

(** *** Sample inputs *)

(** A system after start-up: the positioner drives hardware and the model
    of the detector is loaded. *)
Definition sample_system : RadropiSystem unit :=
  set_detector Detector.loaded_detector
    (set_servos Servo.ready_controller
       (RadropiSystem_init tt "2024-01-01T00:00:00")).

(** A policy that calls every object a meteor at 0.95. *)
Definition sure_policy (obj : Detector.DetectedObject)
    (roi : Detector.Image) : result (Detector.Kind * Q) :=
  Ok (Detector.meteor, 0.95).

End Main.

(** * Properties *)

(** ** Numbers and the method combinators *)

Lemma lt_true (a b : Q) : Py.lt a b = true <-> a < b.
Proof.
  unfold Py.lt. rewrite Qlt_alt. destruct (a ?= b); split; congruence.
Qed.

Lemma lt_false (a b : Q) : Py.lt a b = false <-> b <= a.
Proof.
  unfold Py.lt. rewrite Qle_alt.
  rewrite <- (Qcompare_antisym a b). destruct (a ?= b); simpl; split; congruence.
Qed.

Lemma le_true (a b : Q) : Py.le a b = true <-> a <= b.
Proof.
  unfold Py.le. rewrite Qle_alt. destruct (a ?= b); split; congruence.
Qed.

Lemma le_false (a b : Q) : Py.le a b = false <-> b < a.
Proof.
  unfold Py.le. rewrite Qlt_alt.
  rewrite <- (Qcompare_antisym a b). destruct (a ?= b); simpl; split; congruence.
Qed.

(** Clamping puts any angle into a range that is not empty. *)
Lemma clamp_within (lo hi a : Q) :
  lo <= hi -> lo <= Py.max lo (Py.min hi a) /\ Py.max lo (Py.min hi a) <= hi.
Proof.
  intros Hlh. unfold Py.max, Py.min.
  destruct (Py.lt a hi) eqn:E1.
  - apply lt_true in E1.
    destruct (Py.lt lo a) eqn:E2.
    + apply lt_true in E2. split; lra.
    + split; lra.
  - apply lt_false in E1.
    destruct (Py.lt lo hi) eqn:E2.
    + split; lra.
    + split; lra.
Qed.

(** Clamping leaves an angle of the range as it is, up to [==]. *)
Lemma clamp_inside (lo hi a : Q) :
  lo <= a -> a <= hi -> Py.max lo (Py.min hi a) == a.
Proof.
  intros Hl Hh. unfold Py.max, Py.min.
  destruct (Py.lt a hi) eqn:E1.
  - destruct (Py.lt lo a) eqn:E2; [reflexivity|].
    apply lt_false in E2. lra.
  - apply lt_false in E1.
    destruct (Py.lt lo hi) eqn:E2; [lra|].
    apply lt_false in E2. lra.
Qed.

(** [a % 360] is in [0,360), and is [a] itself when [a] is. *)
Lemma mod_360_range (a : Q) : 0 <= mod_ a 360 /\ mod_ a 360 < 360.
Proof.
  unfold mod_.
  pose proof (Qfloor_le (a / 360)) as Hl.
  pose proof (Qlt_floor (a / 360)) as Hu.
  rewrite inject_Z_plus in Hu.
  set (k := inject_Z (Qfloor (a / 360))) in *.
  assert (E : a / 360 == a * (1 # 360)) by reflexivity.
  rewrite E in Hl, Hu.
  assert (E1 : inject_Z 1 == 1) by reflexivity.
  split; lra.
Qed.

Lemma Qfloor_unit (q : Q) : 0 <= q -> q < 1 -> Qfloor q = 0%Z.
Proof.
  intros H0 H1.
  pose proof (Qfloor_le q) as Hl. pose proof (Qlt_floor q) as Hu.
  assert (A : (Qfloor q < 1)%Z).
  { rewrite Zlt_Qlt. eapply Qle_lt_trans; [exact Hl|exact H1]. }
  assert (B : (0 < Qfloor q + 1)%Z).
  { rewrite Zlt_Qlt. eapply Qle_lt_trans; [exact H0|exact Hu]. }
  lia.
Qed.

Lemma mod_360_small (a : Q) : 0 <= a -> a < 360 -> mod_ a 360 == a.
Proof.
  intros H0 H1. unfold mod_.
  assert (E : a / 360 == a * (1 # 360)) by reflexivity.
  rewrite Qfloor_unit.
  - ring.
  - rewrite E. lra.
  - rewrite E. lra.
Qed.

(** [max] with a key returns the first element with the largest key. *)
Lemma max_by_bound {A} (key : A -> Q) (rest : list A) (best : A) :
  key best <= key (max_by key best rest) /\
  forall x, x ∈ rest -> key x <= key (max_by key best rest).
Proof.
  revert best. induction rest as [|y rest IH]; intros best; simpl.
  - split; [lra|]. intros x Hx. inversion Hx.
  - destruct (Py.lt (key best) (key y)) eqn:E.
    + apply lt_true in E. destruct (IH y) as [H1 H2]. split; [lra|].
      intros x Hx. apply elem_of_cons in Hx as [->|Hx]; auto.
    + apply lt_false in E. destruct (IH best) as [H1 H2]. split; [lra|].
      intros x Hx. apply elem_of_cons in Hx as [->|Hx]; [lra|auto].
Qed.

Lemma max_by_keeps {A} (key : A -> Q) (rest : list A) (best : A) :
  (forall x, x ∈ rest -> key x <= key best) -> max_by key best rest = best.
Proof.
  revert best. induction rest as [|y rest IH]; intros best H; simpl; [done|].
  assert (Hy : Py.lt (key best) (key y) = false).
  { apply lt_false, H. left. }
  rewrite Hy. apply IH. intros x Hx. apply H. by right.
Qed.

Lemma max_by_first_max {A} (key : A -> Q) (pre post : list A) (best w : A) :
  key best < key w ->
  (forall x, x ∈ pre -> key x < key w) ->
  (forall x, x ∈ post -> key x <= key w) ->
  max_by key best (pre ++ w :: post) = w.
Proof.
  revert best. induction pre as [|y pre IH]; intros best Hb Hpre Hpost; simpl.
  - apply lt_true in Hb. rewrite Hb. by apply max_by_keeps.
  - destruct (Py.lt (key best) (key y)).
    + apply IH; [apply Hpre; left | intros; apply Hpre; by right | done].
    + apply IH; [done | intros; apply Hpre; by right | done].
Qed.

(** The winner of [track_objects]. *)
Lemma max_by_confidence (first : Servo.Detection) rest w :
  Servo.first_max (first :: rest) w ->
  max_by Servo.get_confidence first rest = w.
Proof.
  intros (pre & post & Heq & Hpre & Hpost).
  destruct pre as [|p pre]; simpl in Heq; inversion Heq; subst.
  - by apply max_by_keeps.
  - apply max_by_first_max; [apply Hpre; left | | done].
    intros x Hx. apply Hpre. by right.
Qed.

(** Every list that is not empty has a first element of largest key, and
    [max] with that key returns it. *)
Lemma max_by_split {A} (key : A -> Q) (rest : list A) (best : A)
    (pre mid : list A) :
  (forall x, x ∈ pre -> key x < key best) ->
  (forall x, x ∈ mid -> key x <= key best) ->
  exists pre' post',
    pre ++ best :: mid ++ rest = pre' ++ max_by key best rest :: post' /\
    (forall x, x ∈ pre' -> key x < key (max_by key best rest)) /\
    (forall x, x ∈ post' -> key x <= key (max_by key best rest)).
Proof.
  revert best pre mid.
  induction rest as [|y rest IH]; intros best pre mid Hpre Hmid; simpl.
  - exists pre, mid. by rewrite app_nil_r.
  - destruct (Py.lt (key best) (key y)) eqn:E.
    + apply lt_true in E.
      destruct (IH y (pre ++ best :: mid) []) as (pre' & post' & Heq & H).
      * intros x Hx. apply elem_of_app in Hx as [Hx|Hx].
        -- specialize (Hpre x Hx). lra.
        -- apply elem_of_cons in Hx as [->|Hx]; [done|].
           specialize (Hmid x Hx). lra.
      * intros x Hx. inversion Hx.
      * exists pre', post'. split; [|done].
        rewrite <- Heq. simpl. by rewrite <- app_assoc.
    + apply lt_false in E.
      destruct (IH best pre (mid ++ [y])) as (pre' & post' & Heq & H).
      * done.
      * intros x Hx. apply elem_of_app in Hx as [Hx|Hx]; [by apply Hmid|].
        apply list_elem_of_singleton in Hx. by subst x.
      * exists pre', post'. split; [|done].
        rewrite <- Heq. by rewrite <- app_assoc.
Qed.

(** *** The range of a float *)

Lemma overflows_false (x : Q) :
  Py.overflows x = false <-> Qabs x < Py.float_limit.
Proof. unfold Py.overflows. apply le_false. Qed.

Lemma overflows_true (x : Q) :
  Py.overflows x = true <-> Py.float_limit <= Qabs x.
Proof. unfold Py.overflows. apply le_true. Qed.

(** A target of magnitude at most [2^1010] is within the range of a float
    from every position of an axis. *)
Lemma far_from_overflow (t v : Q) :
  Qabs t <= inject_Z (2 ^ 1010) -> 0 <= v -> v <= 180 ->
  Py.overflows (t - v) = false.
Proof.
  intros Ht H0 H1. apply overflows_false.
  apply Qabs_Qle_condition in Ht. apply Qabs_Qlt_condition.
  unfold Py.float_limit.
  assert (HBL : inject_Z (2 ^ 1010) + 180 < inject_Z (2 ^ 1024 - 2 ^ 970))
    by (vm_compute; reflexivity).
  set (B := inject_Z (2 ^ 1010)) in *.
  set (L := inject_Z (2 ^ 1024 - 2 ^ 970)) in *.
  split; lra.
Qed.

(** What the code computes from a moderate number is of magnitude at most
    [2^1010]. *)
Lemma moderate_scaled (x a b : Q) :
  Py.moderate x -> Qabs a <= 360 -> Qabs b <= 360 ->
  Qabs (b + x * a) <= inject_Z (2 ^ 1010).
Proof.
  unfold Py.moderate. intros Hx Ha Hb.
  assert (HB : 360 * inject_Z (2 ^ 1000) + 360 <= inject_Z (2 ^ 1010))
    by (vm_compute; discriminate).
  set (B := inject_Z (2 ^ 1000)) in *.
  set (B' := inject_Z (2 ^ 1010)) in *.
  assert (Hp : Qabs (x * a) <= 360 * B).
  { rewrite Qabs_Qmult. rewrite (Qmult_comm 360).
    assert (0 <= Qabs x) by apply Qabs_nonneg.
    assert (0 <= Qabs a) by apply Qabs_nonneg.
    apply Qmult_le_compat_nonneg; split; done. }
  eapply Qle_trans; [apply Qabs_triangle|]. lra.
Qed.

Lemma in_range_magnitude (v : Q) :
  0 <= v -> v <= 180 -> Qabs v <= inject_Z (2 ^ 1010).
Proof.
  intros H0 H1. apply Qabs_Qle_condition.
  assert (HB : 180 <= inject_Z (2 ^ 1010)) by (vm_compute; discriminate).
  set (B := inject_Z (2 ^ 1010)) in *. split; lra.
Qed.

Lemma moderate_magnitude (x : Q) :
  Py.moderate x -> Qabs x <= inject_Z (2 ^ 1010).
Proof.
  unfold Py.moderate. intros H.
  assert (HB : inject_Z (2 ^ 1000) <= inject_Z (2 ^ 1010))
    by (vm_compute; discriminate).
  eapply Qle_trans; [exact H|exact HB].
Qed.

(** A target of magnitude [2^1024] or more is out of the range of a float
    from every position of an axis. *)
Lemma beyond_float_range (t v : Q) :
  inject_Z (2 ^ 1024) <= Qabs t -> 0 <= v -> v <= 180 ->
  Py.overflows (t - v) = true.
Proof.
  intros Ht H0 H1. apply overflows_true. unfold Py.float_limit.
  assert (HBL : inject_Z (2 ^ 1024 - 2 ^ 970) + 180 <= inject_Z (2 ^ 1024))
    by (vm_compute; discriminate).
  assert (HL : 0 <= inject_Z (2 ^ 1024 - 2 ^ 970))
    by (vm_compute; discriminate).
  set (B := inject_Z (2 ^ 1024)) in *.
  set (L := inject_Z (2 ^ 1024 - 2 ^ 970)) in *.
  destruct (Qlt_le_dec t 0) as [Hneg|Hpos].
  - rewrite Qabs_neg in Ht by lra. rewrite Qabs_neg by lra. lra.
  - rewrite Qabs_pos in Ht by lra. rewrite Qabs_pos by lra. lra.
Qed.

(** [track_objects] always has a winner. *)
Lemma first_max_exists (first : Servo.Detection) rest :
  Servo.first_max (first :: rest)
    (max_by Servo.get_confidence first rest).
Proof.
  destruct (max_by_split Servo.get_confidence rest first [] [])
    as (pre & post & Heq & H).
  - intros x Hx. inversion Hx.
  - intros x Hx. inversion Hx.
  - exists pre, post. split; [exact Heq|exact H].
Qed.

(** Properties kept by the pieces of a method are kept by the method. *)
Section MethodFacts.

Context {S : Type} (P : S -> Prop).

Lemma preserves_ret {A} (a : A) : preserves P (ret a).
Proof. intros s H. exact H. Qed.

Lemma preserves_raise {A} (e : exn) : preserves P (@raise S A e).
Proof. intros s H. exact H. Qed.

Lemma preserves_gets {A} (f : S -> A) : preserves P (gets f).
Proof. intros s H. exact H. Qed.

Lemma preserves_bind {A B} (m : M S A) (k : A -> M S B) :
  preserves P m -> (forall a, preserves P (k a)) -> preserves P (bind m k).
Proof.
  intros Hm Hk s H. unfold bind. specialize (Hm s H).
  destruct (m s) as [[a|e] s']; simpl in *; [by apply Hk|done].
Qed.

Lemma preserves_try_except {A} (body : M S A) (handler : exn -> M S A) :
  preserves P body -> (forall e, preserves P (handler e)) ->
  preserves P (try_except body handler).
Proof.
  intros Hb Hh s H. unfold try_except. specialize (Hb s H).
  destruct (body s) as [[a|e] s']; simpl in *; [done|by apply Hh].
Qed.

Lemma preserves_for_each {A} (l : list A) (body : A -> M S unit) :
  (forall x, preserves P (body x)) -> preserves P (for_each l body).
Proof.
  intros Hb. induction l as [|x l IH]; simpl.
  - apply preserves_ret.
  - apply preserves_bind; [apply Hb|intros _; exact IH].
Qed.

End MethodFacts.

(** ** The positioner *)

Section ServoFacts.

Import Servo.

Variable GPIO_AVAILABLE : bool.

Local Abbreviation move_to := (move_servo_to_position GPIO_AVAILABLE).

Ltac unfold_move :=
  unfold move_servo_to_position, ServoController_move_servo_to_position,
    MockServoController_move_servo_to_position, limits, getitem,
    try_except, bind, gets, modify, ret, raise.

(** *** One write to an axis *)

(** The real controller, driving hardware, stores the clamped angle. *)
Lemma move_to_real_active n a self lo hi :
  cls self = Real -> initialized self = true -> GPIO_AVAILABLE = true ->
  limits_table !! n = Some (lo, hi) -> is_Some (servo_pwm self !! n) ->
  move_to n a self = (Ok tt, moved n (Py.max lo (Py.min hi a)) self).
Proof.
  intros Hc Hi Hg Hl [d Hd]. unfold_move. simpl.
  rewrite Hc, Hi, Hg. simpl. rewrite Hc, Hl. simpl. rewrite Hd. done.
Qed.

(** Without initialisation, GPIO, a range or a PWM channel the real
    controller does nothing. *)
Lemma move_to_real_idle n a self :
  cls self = Real ->
  initialized self = false \/ GPIO_AVAILABLE = false \/
    limits_table !! n = None \/ servo_pwm self !! n = None ->
  move_to n a self = (Ok tt, self).
Proof.
  intros Hc H. unfold_move. simpl. rewrite Hc.
  destruct (initialized self) eqn:Hi; simpl; [|done].
  assert (Hg : GPIO_AVAILABLE = true \/ GPIO_AVAILABLE = false)
    by (destruct GPIO_AVAILABLE; auto).
  destruct Hg as [Hg|Hg]; rewrite Hg; simpl; [|done].
  rewrite Hc.
  destruct (limits_table !! n) as [[lo hi]|] eqn:Hl; simpl; [|done].
  destruct (servo_pwm self !! n) eqn:E; simpl; [|done].
  destruct H as [H|[H|[H|H]]]; congruence.
Qed.

(** The mock stores the angle as given. *)
Lemma move_to_mock n a self :
  cls self = Mock ->
  move_to n a self = (Ok tt, set_current_position n a self).
Proof. intros Hc. unfold_move. simpl. by rewrite Hc. Qed.

(** The three outcomes of a write. *)
Lemma move_to_cases n a self :
  move_to n a self = (Ok tt, self) \/
  (cls self = Mock /\ move_to n a self = (Ok tt, set_current_position n a self)) \/
  (exists lo hi, cls self = Real /\ initialized self = true /\
     GPIO_AVAILABLE = true /\
     limits_table !! n = Some (lo, hi) /\ is_Some (servo_pwm self !! n) /\
     move_to n a self = (Ok tt, moved n (Py.max lo (Py.min hi a)) self)).
Proof.
  destruct (cls self) eqn:Hc.
  - destruct (initialized self) eqn:Hi;
      [|left; apply move_to_real_idle; auto].
    assert (Hg : GPIO_AVAILABLE = true \/ GPIO_AVAILABLE = false)
      by (destruct GPIO_AVAILABLE; auto).
    destruct Hg as [Hg|Hg];
      [|left; apply move_to_real_idle; auto].
    destruct (limits_table !! n) as [[lo hi]|] eqn:Hl;
      [|left; apply move_to_real_idle; auto].
    destruct (servo_pwm self !! n) eqn:Hp;
      [|left; apply move_to_real_idle; auto].
    right. right. exists lo, hi. repeat split; try done.
    apply move_to_real_active; eauto.
  - right. left. split; [done|]. by apply move_to_mock.
Qed.


(** [_move_servo_to_position] of either class never raises. *)
Lemma move_to_ok n a self : fst (move_to n a self) = Ok tt.
Proof.
  destruct (move_to_cases n a self)
    as [H|[[_ H]|(lo & hi & _ & _ & _ & _ & _ & H)]]; by rewrite H.
Qed.

Lemma moved_moved n a b self : moved n b (moved n a self) = moved n b self.
Proof.
  unfold moved, set_current_position, set_servo_pwm. simpl.
  by rewrite !insert_insert_eq.
Qed.

(** A write makes an earlier write to the same axis unobservable. *)
Lemma move_to_absorbs n a t self :
  move_to n t (snd (move_to n a self)) = move_to n t self.
Proof.
  destruct (move_to_cases n a self)
    as [H|[[Hc H]|(lo & hi & Hc & Hi & Hg & Hl & Hp & H)]]; rewrite H; simpl.
  - done.
  - rewrite !move_to_mock by done.
    unfold set_current_position. simpl. by rewrite insert_insert_eq.
  - rewrite (move_to_real_active n t self lo hi) by done.
    rewrite (move_to_real_active n t _ lo hi); try done.
    + by rewrite moved_moved.
    + simpl. rewrite lookup_insert_eq. eauto.
Qed.

(** *** The stepping loop *)

(** The steps of a smooth move never raise, and the write that follows them
    gives what it gives without them. *)
Lemma steps_then_move n t (f : Z -> Q) (l : list Z) self :
  fst (for_each l (fun i => move_to n (f i)) self) = Ok tt /\
  move_to n t (snd (for_each l (fun i => move_to n (f i)) self))
    = move_to n t self.
Proof.
  revert self. induction l as [|i l IH]; intros self; simpl; [done|].
  unfold bind. destruct (move_to n (f i) self) as [r s'] eqn:E.
  pose proof (move_to_ok n (f i) self) as Hok. rewrite E in Hok.
  simpl in Hok. subst r. destruct (IH s') as [H1 H2]. split; [done|].
  rewrite H2. replace s' with (snd (move_to n (f i) self)) by by rewrite E.
  apply move_to_absorbs.
Qed.

(** A smooth move ends as the single write of the target does, provided the
    axis has a stored position to start from and the step count can be
    computed. *)
Lemma smooth_move_eq n t step self :
  is_Some (current_positions self !! n) -> steps_defined self n t ->
  smooth_move GPIO_AVAILABLE n t step self = move_to n t self.
Proof.
  intros [v Hv] Hsteps. unfold smooth_move, for_range, getitem.
  unfold bind at 1. unfold gets at 1. rewrite Hv.
  unfold bind at 1. unfold ret at 1.
  rewrite (Hsteps v Hv).
  unfold bind at 1. unfold ret at 1.
  unfold bind at 1.
  match goal with
  | |- context [for_each ?l ?body self] =>
      destruct (steps_then_move n t
                  (fun i => v + (if Py.lt v t then 1 else -1) * step
                                * (inject_Z i + 1))
                  l self) as [H1 H2];
      destruct (for_each l body self) as [r s'] eqn:E
  end.
  simpl in H1, H2. subst r. exact H2.
Qed.

(** Without a stored position the smooth move raises and changes
    nothing. *)
Lemma smooth_move_no_position n t step self :
  current_positions self !! n = None ->
  smooth_move GPIO_AVAILABLE n t step self = (Raise (KeyError n), self).
Proof.
  intros Hv. unfold smooth_move, getitem, bind, gets. by rewrite Hv.
Qed.

(** When the step count cannot be computed the smooth move raises before
    the first write. *)
Lemma smooth_move_overflow n t step self v :
  current_positions self !! n = Some v -> Py.overflows (t - v) = true ->
  smooth_move GPIO_AVAILABLE n t step self
    = (Raise (OverflowError "steps"), self).
Proof.
  intros Hv Ho. unfold smooth_move, getitem.
  unfold bind at 1. unfold gets at 1. rewrite Hv.
  unfold bind at 1. unfold ret at 1.
  rewrite Ho. done.
Qed.

(** *** [move_servo] *)

Local Abbreviation move := (move_servo GPIO_AVAILABLE).

Lemma move_servo_mock n a smooth self :
  cls self = Mock ->
  move n a smooth self = (Raise (AttributeError "servo_pins"), self).
Proof. intros Hc. unfold move_servo, bind, servo_pins. by rewrite Hc. Qed.

Lemma move_servo_unknown n a smooth self :
  cls self = Real -> servo_pins_table !! n = None ->
  move n a smooth self = (Ok false, self).
Proof.
  intros Hc Hn. unfold move_servo, bind, servo_pins. rewrite Hc.
  rewrite bool_decide_eq_false_2; [done|].
  rewrite Hn. by intros [? ?].
Qed.

Lemma move_servo_direct n a self :
  cls self = Real -> known n ->
  move n a false self = (Ok true, snd (move_to n a self)).
Proof.
  intros Hc Hn. unfold move_servo, bind at 1, servo_pins. rewrite Hc.
  rewrite bool_decide_eq_true_2 by exact Hn. simpl.
  unfold try_except, bind, ret.
  pose proof (move_to_ok n a self) as Hok.
  destruct (move_to n a self) as [r s']. simpl in *. by subst r.
Qed.

Lemma move_servo_smooth n a self :
  cls self = Real -> known n -> is_Some (current_positions self !! n) ->
  steps_defined self n a ->
  move n a true self = (Ok true, snd (move_to n a self)).
Proof.
  intros Hc Hn Hp Hs. unfold move_servo, bind at 1, servo_pins. rewrite Hc.
  rewrite bool_decide_eq_true_2 by exact Hn. simpl.
  unfold try_except, bind at 1. rewrite smooth_move_eq by done.
  unfold ret.
  pose proof (move_to_ok n a self) as Hok.
  destruct (move_to n a self) as [r s']. simpl in *. by subst r.
Qed.

Lemma move_servo_smooth_no_position n a self :
  cls self = Real -> known n -> current_positions self !! n = None ->
  move n a true self = (Ok false, self).
Proof.
  intros Hc Hn Hp. unfold move_servo, bind at 1, servo_pins. rewrite Hc.
  rewrite bool_decide_eq_true_2 by exact Hn. simpl.
  unfold try_except, bind at 1.
  by rewrite smooth_move_no_position.
Qed.

(** A smooth move whose step count cannot be computed fails and changes
    nothing. *)
Lemma move_servo_smooth_overflow n a self v :
  cls self = Real -> known n -> current_positions self !! n = Some v ->
  Py.overflows (a - v) = true ->
  move n a true self = (Ok false, self).
Proof.
  intros Hc Hn Hp Ho. unfold move_servo, bind at 1, servo_pins. rewrite Hc.
  rewrite bool_decide_eq_true_2 by exact Hn. simpl.
  unfold try_except, bind at 1.
  by rewrite (smooth_move_overflow n a 2.0 self v).
Qed.

(** The two outcomes of a smooth move from a stored position. *)
Lemma steps_defined_cases self n a :
  steps_defined self n a \/
  exists v, current_positions self !! n = Some v /\
            Py.overflows (a - v) = true.
Proof.
  unfold steps_defined.
  destruct (current_positions self !! n) as [v|] eqn:Hv.
  - destruct (Py.overflows (a - v)) eqn:Ho.
    + right. by exists v.
    + left. intros v' Hv'. by simplify_eq.
  - left. intros v' Hv'. discriminate.
Qed.

(** The state after [move_servo] is the state before it or the state after
    the single write of the target. *)
Lemma move_servo_state n a smooth self :
  snd (move n a smooth self) = self \/
  snd (move n a smooth self) = snd (move_to n a self).
Proof.
  destruct (cls self) eqn:Hc; [|left; by rewrite move_servo_mock].
  destruct (servo_pins_table !! n) eqn:Hn;
    [|left; by rewrite move_servo_unknown].
  assert (known n) by (unfold known; eauto).
  destruct smooth.
  - destruct (current_positions self !! n) eqn:Hp.
    + destruct (steps_defined_cases self n a) as [Hs|(v & Hv & Ho)].
      * right. rewrite move_servo_smooth; eauto.
      * left. by rewrite (move_servo_smooth_overflow n a self v).
    + left. by rewrite move_servo_smooth_no_position.
  - right. by rewrite move_servo_direct.
Qed.

(** *** The declared ranges *)

Lemma limits_table_entry n lo hi :
  limits_table !! n = Some (lo, hi) ->
  (n = "dish_azimuth"%string /\ lo = 0 /\ hi = 180) \/
  (n = "dish_elevation"%string /\ lo = 0 /\ hi = 90) \/
  (n = "camera_pan"%string /\ lo = 0 /\ hi = 180) \/
  (n = "camera_tilt"%string /\ lo = 30 /\ hi = 150).
Proof.
  unfold limits_table. rewrite !lookup_insert_Some, lookup_empty.
  intros H.
  repeat (destruct H as [ [ <- H ] | [ _ H ] ]; [simplify_eq; auto 10|]).
  discriminate.
Qed.

Lemma limits_table_ordered n lo hi :
  limits_table !! n = Some (lo, hi) -> lo <= hi.
Proof.
  intros H. apply limits_table_entry in H.
  destruct H as [H|[H|[H|H]]]; destruct H as (_ & -> & ->); lra.
Qed.

Lemma known_cases n :
  known n <->
  n = "dish_azimuth"%string \/ n = "dish_elevation"%string \/
  n = "camera_pan"%string \/ n = "camera_tilt"%string.
Proof.
  unfold known, servo_pins_table, servo_pins_items. simpl. split.
  - intros [v H]. rewrite !lookup_insert_Some, lookup_empty in H.
    repeat (destruct H as [ [ <- H ] | [ _ H ] ]; [auto|]).
    discriminate.
  - intros [ -> | [ -> | [ -> | -> ] ] ]; eexists; reflexivity.
Qed.

Lemma known_limits n : known n <-> is_Some (limits_table !! n).
Proof.
  rewrite known_cases. split.
  - intros [ -> | [ -> | [ -> | -> ] ] ]; eexists; reflexivity.
  - intros [[lo hi] H]. apply limits_table_entry in H. tauto.
Qed.

(** A write by the real controller keeps every stored position within its
    range. *)
Lemma move_to_real_within_limits n a self :
  cls self = Real -> within_limits self ->
  cls (snd (move_to n a self)) = Real /\
  within_limits (snd (move_to n a self)).
Proof.
  intros Hc Hw.
  destruct (move_to_cases n a self)
    as [H|[[Hm H]|(lo & hi & _ & _ & _ & Hl & _ & H)]]; rewrite H; simpl.
  - done.
  - congruence.
  - split; [done|]. intros m lo' hi' v Hl' Hv. simpl in Hv.
    destruct (decide (n = m)) as [->|Hne].
    + rewrite lookup_insert_eq in Hv. simplify_eq.
      apply clamp_within. by eapply limits_table_ordered.
    + rewrite lookup_insert_ne in Hv by done. by eapply Hw.
Qed.

(** [move_servo] on the real controller keeps every stored position within
    its range, smooth or not, whatever the target. *)
Lemma move_servo_real_within_limits n a smooth self :
  cls self = Real -> within_limits self ->
  cls (snd (move n a smooth self)) = Real /\
  within_limits (snd (move n a smooth self)).
Proof.
  intros Hc Hw.
  destruct (move_servo_state n a smooth self) as [H|H]; rewrite H.
  - done.
  - by apply move_to_real_within_limits.
Qed.

(** The positions set by the constructors are within the ranges. *)
Lemma initial_positions_within_limits c i p :
  within_limits (mkServoController c i initial_positions p).
Proof.
  intros n lo hi v Hl Hv. simpl in Hv.
  apply limits_table_entry in Hl.
  destruct Hl as [H|[H|[H|H]]]; destruct H as (-> & -> & ->);
    vm_compute in Hv; simplify_eq; split; lra.
Qed.

(** The duty cycle written for an angle of the servo range is between 2.5
    and 12.5 per cent. *)
Lemma duty_cycle_range angle :
  0 <= angle -> angle <= 180 ->
  2.5 <= duty_cycle_of angle /\ duty_cycle_of angle <= 12.5.
Proof.
  intros Hl Hh. unfold duty_cycle_of.
  assert (E1 : / 180.0 == 1 # 180) by reflexivity.
  assert (E2 : 10.0 == 10) by reflexivity.
  assert (E3 : 2.5 == 5 # 2) by reflexivity.
  assert (E4 : 12.5 == 25 # 2) by reflexivity.
  unfold Qdiv. rewrite E1, E2, E3, E4. split; lra.
Qed.

(** *** The invariant of the real controller *)

(** The real controller with every stored position within its range. *)
Local Abbreviation real_in_range :=
  (fun self => cls self = Real /\ within_limits self).

Lemma move_servo_keeps_range n a smooth :
  preserves real_in_range (move n a smooth).
Proof. intros self [Hc Hw]. by apply move_servo_real_within_limits. Qed.

Lemma move_camera_keeps_range pan tilt :
  preserves real_in_range
    (move_camera_to_coordinates GPIO_AVAILABLE pan tilt).
Proof.
  unfold move_camera_to_coordinates.
  apply preserves_try_except; [|intros; apply preserves_ret].
  apply preserves_bind; [apply move_servo_keeps_range|intros b1].
  apply preserves_bind; [apply move_servo_keeps_range|intros b2].
  destruct (b1 && b2); apply preserves_ret.
Qed.

Lemma move_dish_keeps_range azimuth elevation :
  preserves real_in_range
    (move_dish_to_coordinates GPIO_AVAILABLE azimuth elevation).
Proof.
  unfold move_dish_to_coordinates.
  apply preserves_try_except; [|intros; apply preserves_ret].
  apply preserves_bind; [apply move_servo_keeps_range|intros b1].
  apply preserves_bind; [apply move_servo_keeps_range|intros b2].
  destruct (b1 && b2); apply preserves_ret.
Qed.

Lemma track_objects_keeps_range detections :
  preserves real_in_range (track_objects GPIO_AVAILABLE detections).
Proof.
  destruct detections as [|first rest]; [apply preserves_ret|].
  unfold track_objects.
  apply preserves_try_except; [|intros; apply preserves_ret].
  apply preserves_bind.
  { unfold get_coordinates.
    destruct (coordinates _); [apply preserves_ret|apply preserves_raise]. }
  intros [x y].
  apply preserves_bind; [apply move_camera_keeps_range|intros _].
  destruct (Py.lt 0.8 _); [|apply preserves_ret].
  apply preserves_bind; [apply move_dish_keeps_range|intros _].
  apply preserves_ret.
Qed.

Lemma home_all_servos_keeps_range :
  preserves real_in_range (home_all_servos GPIO_AVAILABLE).
Proof.
  unfold home_all_servos.
  apply preserves_try_except; [|intros; apply preserves_ret].
  generalize true. induction home_positions as [|[n a] l IH]; intros b.
  - apply preserves_ret.
  - apply preserves_bind; [apply move_servo_keeps_range|intros b'].
    apply IH.
Qed.

(** *** The controller that drives hardware *)

Lemma moved_operational n v self :
  operational GPIO_AVAILABLE self ->
  operational GPIO_AVAILABLE (moved n v self).
Proof.
  intros (Hc & Hi & Hg & Hp). repeat split; try done.
  intros m Hm. simpl. destruct (decide (n = m)) as [->|Hne].
  - rewrite lookup_insert_eq. eauto.
  - rewrite lookup_insert_ne by done. auto.
Qed.

Lemma moved_positions_present n v self :
  positions_present self -> positions_present (moved n v self).
Proof.
  intros Hp m Hm. simpl. destruct (decide (n = m)) as [->|Hne].
  - rewrite lookup_insert_eq. eauto.
  - rewrite lookup_insert_ne by done. auto.
Qed.

(** A write of a clamped angle keeps the stored positions within their
    ranges. *)
Lemma moved_within_limits n a self lo hi :
  limits_table !! n = Some (lo, hi) -> within_limits self ->
  within_limits (moved n (Py.max lo (Py.min hi a)) self).
Proof.
  intros Hl Hw m lo' hi' v Hl' Hv. simpl in Hv.
  destruct (decide (n = m)) as [->|Hne].
  - rewrite lookup_insert_eq in Hv. simplify_eq.
    apply clamp_within. by eapply limits_table_ordered.
  - rewrite lookup_insert_ne in Hv by done. by eapply Hw.
Qed.

(** From a position within the range of its axis the step count to a target
    of magnitude at most [2^1010] can be computed. *)
Lemma within_limits_steps_defined self n t :
  within_limits self -> known n -> Qabs t <= inject_Z (2 ^ 1010) ->
  steps_defined self n t.
Proof.
  intros Hw Hn Ht v Hv.
  apply known_limits in Hn as [[lo hi] Hl].
  destruct (Hw n lo hi v Hl Hv) as [H0 H1].
  apply limits_table_entry in Hl.
  apply far_from_overflow; [done|..];
    destruct Hl as [H|[H|[H|H]]]; destruct H as (_ & -> & ->); lra.
Qed.

(** The step count between two moderate numbers can be computed. *)
Lemma moderate_steps_defined (t v : Q) :
  Py.moderate t -> Py.moderate v -> Py.overflows (t - v) = false.
Proof.
  unfold Py.moderate. intros Ht Hv. apply overflows_false.
  apply Qabs_Qle_condition in Ht, Hv. apply Qabs_Qlt_condition.
  unfold Py.float_limit.
  assert (HBL : 2 * inject_Z (2 ^ 1000) < inject_Z (2 ^ 1024 - 2 ^ 970))
    by (vm_compute; reflexivity).
  set (B := inject_Z (2 ^ 1000)) in *.
  set (L := inject_Z (2 ^ 1024 - 2 ^ 970)) in *.
  split; lra.
Qed.

(** On the controller that drives hardware a move of a known axis succeeds
    and stores the clamped target: a direct move always, a smooth move when
    its step count can be computed. *)
Lemma move_servo_operational n a smooth self lo hi :
  operational GPIO_AVAILABLE self -> positions_present self ->
  limits_table !! n = Some (lo, hi) ->
  (smooth = true -> steps_defined self n a) ->
  move n a smooth self = (Ok true, moved n (Py.max lo (Py.min hi a)) self).
Proof.
  intros (Hc & Hi & Hg & Hp) Hpos Hl Hs.
  assert (Hk : known n) by (apply known_limits; eauto).
  destruct smooth.
  - rewrite move_servo_smooth by auto.
    by rewrite (move_to_real_active n a self lo hi) by auto.
  - rewrite move_servo_direct by auto.
    by rewrite (move_to_real_active n a self lo hi) by auto.
Qed.

Lemma move_camera_operational pan tilt self :
  operational GPIO_AVAILABLE self -> positions_present self ->
  within_limits self ->
  Qabs pan <= inject_Z (2 ^ 1010) -> Qabs tilt <= inject_Z (2 ^ 1010) ->
  move_camera_to_coordinates GPIO_AVAILABLE pan tilt self =
    (Ok true,
     moved "camera_tilt" (Py.max 30 (Py.min 150 tilt))
       (moved "camera_pan" (Py.max 0 (Py.min 180 pan)) self)).
Proof.
  intros Hop Hpos Hw Hpan Htilt.
  unfold move_camera_to_coordinates, try_except.
  unfold bind at 1.
  rewrite (move_servo_operational "camera_pan" pan true self 0 180);
    [|done|done|done|].
  2: { intros _. apply within_limits_steps_defined; try done.
       apply known_cases. auto. }
  unfold bind at 1.
  rewrite (move_servo_operational "camera_tilt" tilt true _ 30 150);
    [done | by apply moved_operational | by apply moved_positions_present
    | done |].
  intros _. apply within_limits_steps_defined; try done.
  - by apply moved_within_limits.
  - apply known_cases. auto.
Qed.

Lemma move_dish_operational azimuth elevation self :
  operational GPIO_AVAILABLE self -> positions_present self ->
  within_limits self -> Qabs elevation <= inject_Z (2 ^ 1010) ->
  move_dish_to_coordinates GPIO_AVAILABLE azimuth elevation self =
    (Ok true,
     moved "dish_elevation" (Py.max 0 (Py.min 90 elevation))
       (moved "dish_azimuth"
          (Py.max 0 (Py.min 180 (mod_ azimuth 360 * 180 / 360))) self)).
Proof.
  intros Hop Hpos Hw Hel. unfold move_dish_to_coordinates, try_except.
  unfold bind at 1.
  rewrite (move_servo_operational "dish_azimuth" _ true self 0 180);
    [|done|done|done|].
  2: { intros _. apply within_limits_steps_defined; try done.
       - apply known_cases. auto.
       - destruct (mod_360_range azimuth) as [H0 H1].
         assert (E : mod_ azimuth 360 * 180 / 360
                     == mod_ azimuth 360 * (1 # 2)).
         { unfold Qdiv. assert (E : / 360 == 1 # 360) by reflexivity.
           rewrite E. ring. }
         rewrite E. apply in_range_magnitude; lra. }
  unfold bind at 1.
  rewrite (move_servo_operational "dish_elevation" elevation true _ 0 90);
    [done | by apply moved_operational | by apply moved_positions_present
    | done |].
  intros _. apply within_limits_steps_defined; try done.
  - by apply moved_within_limits.
  - apply known_cases. auto.
Qed.

(** The targets that [track_objects] computes from a moderate centre are of
    magnitude at most [2^1010]. *)
Lemma track_targets_magnitude (x y : Q) :
  Py.moderate x -> Py.moderate y ->
  Qabs (x * 180) <= inject_Z (2 ^ 1010) /\
  Qabs (30 + y * 120) <= inject_Z (2 ^ 1010) /\
  Qabs (Py.min 90 (30 + y * 120 - 30)) <= inject_Z (2 ^ 1010).
Proof.
  intros Hx Hy.
  assert (A180 : Qabs 180 <= 360) by (vm_compute; discriminate).
  assert (A120 : Qabs 120 <= 360) by (vm_compute; discriminate).
  assert (A30 : Qabs 30 <= 360) by (vm_compute; discriminate).
  assert (A0 : Qabs 0 <= 360) by (vm_compute; discriminate).
  split; [|split].
  - assert (E : x * 180 == 0 + x * 180) by ring.
    rewrite E. by apply moderate_scaled.
  - by apply moderate_scaled.
  - unfold Py.min. destruct (Py.lt _ 90).
    + assert (E : 30 + y * 120 - 30 == 0 + y * 120) by ring.
      rewrite E. by apply moderate_scaled.
    + apply in_range_magnitude; lra.
Qed.

(** What [track_objects] does on the controller that drives hardware, by
    the confidence and the centre of the winner. *)
Lemma track_objects_operational detections w x y self :
  operational GPIO_AVAILABLE self -> positions_present self ->
  within_limits self -> Py.moderate x -> Py.moderate y ->
  first_max detections w -> coordinates w = Some (x, y) ->
  let camera_done :=
    moved "camera_tilt" (Py.max 30 (Py.min 150 (30 + y * 120)))
      (moved "camera_pan" (Py.max 0 (Py.min 180 (x * 180))) self) in
  track_objects GPIO_AVAILABLE detections self =
    (Ok tt,
     if Py.lt 0.8 (get_confidence w) then
       moved "dish_elevation"
         (Py.max 0 (Py.min 90 (Py.min 90 (30 + y * 120 - 30))))
         (moved "dish_azimuth"
            (Py.max 0 (Py.min 180 (mod_ (x * 180 * 2) 360 * 180 / 360)))
            camera_done)
     else camera_done).
Proof.
  intros Hop Hpos Hlim Hx Hy Hw Hxy camera_done.
  destruct (track_targets_magnitude x y Hx Hy) as (Hpan & Htilt & Hel).
  destruct detections as [|first rest].
  { destruct Hw as (pre & post & Heq & _). by destruct pre. }
  unfold track_objects, try_except.
  rewrite (max_by_confidence first rest w Hw).
  unfold get_coordinates. rewrite Hxy.
  unfold bind at 1. unfold ret at 1.
  unfold bind at 1.
  rewrite move_camera_operational by done. fold camera_done.
  destruct (Py.lt 0.8 (get_confidence w)); [|done].
  unfold bind at 1.
  rewrite move_dish_operational;
    [done | by repeat apply moved_operational
    | by repeat apply moved_positions_present
    | by repeat apply moved_within_limits
    | done].
Qed.

(** The azimuth written to the dish servo is half the azimuth modulo 360:
    the clamp of the axis never changes it.  For a normalised [x] below 1 it
    is the camera pan itself. *)
Lemma dish_servo_azimuth (azimuth : Q) :
  Py.max 0 (Py.min 180 (mod_ azimuth 360 * 180 / 360))
    == mod_ azimuth 360 * (1 # 2).
Proof.
  destruct (mod_360_range azimuth) as [H0 H1].
  assert (E : mod_ azimuth 360 * 180 / 360 == mod_ azimuth 360 * (1 # 2)).
  { unfold Qdiv. assert (E : / 360 == 1 # 360) by reflexivity.
    rewrite E. ring. }
  rewrite clamp_inside; [exact E|rewrite E; lra|rewrite E; lra].
Qed.

Lemma dish_servo_azimuth_normalised (x : Q) :
  0 <= x -> x < 1 ->
  Py.max 0 (Py.min 180 (mod_ (x * 180 * 2) 360 * 180 / 360)) == x * 180.
Proof.
  intros H0 H1. rewrite dish_servo_azimuth.
  rewrite mod_360_small by lra. ring.
Qed.

(** *** The statements about the positioner *)

(** C1, at the mock: [MockServoController._move_servo_to_position] stores
    the requested angle as it is, so a request of 500 degrees for the
    camera pan, whose range is [0,180], leaves a stored angle outside the
    range. *)
Theorem mock_write_leaves_range :
  let after :=
    snd (move_servo_to_position GPIO_AVAILABLE "camera_pan" 500
           MockServoController_init) in
  within_limits MockServoController_init /\
  limits_table !! "camera_pan"%string = Some (0, 180) /\
  current_positions after !! "camera_pan"%string = Some 500 /\
  ~ 500 <= 180 /\
  ~ within_limits after.
Proof.
  cbv zeta. rewrite move_to_mock by done. simpl.
  split; [apply initial_positions_within_limits|].
  split; [done|]. split; [done|]. split; [lra|].
  intros Hw. destruct (Hw "camera_pan"%string 0 180 500); [done|done|lra].
Qed.

(** C5: [move_servo] of the real controller with a name that is not one of
    the four axes returns [False] without raising and leaves the whole
    state, so the stored position of every axis, as it was. *)
Theorem move_servo_unknown_axis n a smooth self :
  cls self = Real -> ~ known n ->
  move_servo GPIO_AVAILABLE n a smooth self = (Ok false, self).
Proof.
  intros Hc Hn. apply move_servo_unknown; [done|].
  destruct (servo_pins_table !! n) eqn:E; [|done].
  exfalso. apply Hn. unfold known. eauto.
Qed.

(** C8: [track_objects] with an empty list returns at once; no axis moves
    and the state is as it was. *)
Theorem track_objects_empty self :
  track_objects GPIO_AVAILABLE [] self = (Ok tt, self) /\
  forall n,
    current_positions (snd (track_objects GPIO_AVAILABLE [] self)) !! n
      = current_positions self !! n.
Proof.
  split.
  - reflexivity.
  - intros n. reflexivity.
Qed.

(** C10, as the code has it: for every axis name and every moderate target,
    from a moderate stored position, a smooth move and a direct move return
    the same result and leave the same state: the stepping loop runs
    [int(steps)] times and is followed by the write of the target, which is
    the write of the direct path.  The step count is computed in floats
    before the first write, so the equivalence needs a target and a
    position far enough inside the range of a float; out of it the smooth
    move fails where the direct move clamps. *)
Theorem smooth_move_same_as_direct n t self :
  positions_present self ->
  Py.moderate t ->
  (forall v, current_positions self !! n = Some v -> Py.moderate v) ->
  move_servo GPIO_AVAILABLE n t true self
    = move_servo GPIO_AVAILABLE n t false self.
Proof.
  intros Hpos Ht Hv.
  destruct (cls self) eqn:Hc; [|by rewrite !move_servo_mock].
  destruct (servo_pins_table !! n) eqn:Hn;
    [|by rewrite !move_servo_unknown].
  assert (Hk : known n) by (unfold known; eauto).
  rewrite move_servo_smooth; [by rewrite move_servo_direct|auto..].
  intros v Hp. apply moderate_steps_defined; auto.
Qed.

(** C3: [track_objects] follows the first detection of largest confidence:
    on the controller that drives hardware, with the stored positions
    within their ranges, the camera pan is left at [x * 180] and the camera
    tilt at [30 + y * 120], each clamped to the range of its axis, where
    [(x, y)] is the centre of that detection, of moderate magnitude so that
    the step counts of the moves can be computed; for a normalised centre
    the clamps change nothing. *)
Theorem track_follows_most_confident detections w x y self :
  operational GPIO_AVAILABLE self -> positions_present self ->
  within_limits self -> Py.moderate x -> Py.moderate y ->
  first_max detections w -> coordinates w = Some (x, y) ->
  let after := snd (track_objects GPIO_AVAILABLE detections self) in
  current_positions after !! "camera_pan"%string
    = Some (Py.max 0 (Py.min 180 (x * 180))) /\
  current_positions after !! "camera_tilt"%string
    = Some (Py.max 30 (Py.min 150 (30 + y * 120))) /\
  (0 <= x -> x <= 1 -> Py.max 0 (Py.min 180 (x * 180)) == x * 180) /\
  (0 <= y -> y <= 1 ->
     Py.max 30 (Py.min 150 (30 + y * 120)) == 30 + y * 120).
Proof.
  intros Hop Hpos Hlim Hx Hy Hw Hxy after. subst after.
  rewrite (track_objects_operational detections w x y) by done. simpl.
  split; [|split; [|split]].
  - destruct (Py.lt 0.8 (get_confidence w)); simpl;
      repeat (rewrite lookup_insert_ne by done);
      by rewrite lookup_insert_eq.
  - destruct (Py.lt 0.8 (get_confidence w)); simpl;
      repeat (rewrite lookup_insert_ne by done);
      by rewrite lookup_insert_eq.
  - intros. apply clamp_inside; lra.
  - intros. apply clamp_inside; lra.
Qed.

(** C2, as the code has it: on the controller that drives hardware, with
    the stored positions within their ranges and a centre of moderate
    magnitude, a winner of confidence above 0.8 moves the dish as well as
    the camera.
    The dish azimuth is camera-pan times two, taken modulo 360 and rescaled
    by 180/360 to the range of the servo before the clamp of the axis; the
    dish elevation is [min(90, tilt - 30)], clamped to its axis.  A winner
    of confidence at most 0.8 moves the camera only and leaves both dish
    positions as they were. *)
Theorem track_dish_routing detections w x y self :
  operational GPIO_AVAILABLE self -> positions_present self ->
  within_limits self -> Py.moderate x -> Py.moderate y ->
  first_max detections w -> coordinates w = Some (x, y) ->
  let pan := x * 180 in
  let tilt := 30 + y * 120 in
  let after := snd (track_objects GPIO_AVAILABLE detections self) in
  current_positions after !! "camera_pan"%string
    = Some (Py.max 0 (Py.min 180 pan)) /\
  current_positions after !! "camera_tilt"%string
    = Some (Py.max 30 (Py.min 150 tilt)) /\
  (0.8 < get_confidence w ->
     current_positions after !! "dish_azimuth"%string
       = Some (Py.max 0 (Py.min 180 (mod_ (pan * 2) 360 * 180 / 360))) /\
     current_positions after !! "dish_elevation"%string
       = Some (Py.max 0 (Py.min 90 (Py.min 90 (tilt - 30))))) /\
  (get_confidence w <= 0.8 ->
     current_positions after !! "dish_azimuth"%string
       = current_positions self !! "dish_azimuth"%string /\
     current_positions after !! "dish_elevation"%string
       = current_positions self !! "dish_elevation"%string).
Proof.
  intros Hop Hpos Hlim Hx Hy Hw Hxy pan tilt after. subst pan tilt after.
  rewrite (track_objects_operational detections w x y) by done. simpl.
  destruct (Py.lt 0.8 (get_confidence w)) eqn:E; simpl.
  - apply lt_true in E.
    repeat split;
      repeat (rewrite lookup_insert_ne by done);
      try (by rewrite lookup_insert_eq); lra.
  - apply lt_false in E.
    repeat split;
      repeat (rewrite lookup_insert_ne by done);
      try (by rewrite lookup_insert_eq); try done; lra.
Qed.

End ServoFacts.

(** *** Concrete runs of the positioner *)

Lemma ready_controller_operational :
  Servo.operational true Servo.ready_controller.
Proof.
  repeat split.
  intros n Hn. apply known_cases in Hn.
  destruct Hn as [ -> | [ -> | [ -> | -> ] ] ]; eexists; vm_compute; reflexivity.
Qed.

Lemma ready_controller_positions :
  Servo.positions_present Servo.ready_controller.
Proof.
  intros n Hn. apply known_cases in Hn.
  destruct Hn as [ -> | [ -> | [ -> | -> ] ] ]; eexists; vm_compute; reflexivity.
Qed.

Lemma ready_controller_within_limits :
  Servo.within_limits Servo.ready_controller.
Proof.
  intros n lo hi v Hl Hv.
  apply limits_table_entry in Hl.
  destruct Hl as [H|[H|[H|H]]]; destruct H as (-> & -> & ->);
    vm_compute in Hv; simplify_eq; split; lra.
Qed.

(** The numbers of an axis range, and more, are moderate. *)
Lemma moderate_small (x : Q) : Qabs x <= 1000 -> Py.moderate x.
Proof.
  intros H. unfold Py.moderate.
  assert (HB : 1000 <= inject_Z (2 ^ 1000)) by (vm_compute; discriminate).
  set (B := inject_Z (2 ^ 1000)) in *. lra.
Qed.

Lemma move_servo_unknown_axis_witness :
  Servo.cls Servo.ServoController_init = Servo.Real /\
  ~ Servo.known "antenna" /\
  Servo.move_servo true "antenna" 10 true Servo.ServoController_init
    = (Ok false, Servo.ServoController_init).
Proof.
  assert (Hn : ~ Servo.known "antenna").
  { intros H. apply known_cases in H.
    destruct H as [H|[H|[H|H]]]; discriminate H. }
  split; [reflexivity|]. split; [exact Hn|].
  exact (move_servo_unknown_axis true "antenna" 10 true
           Servo.ServoController_init eq_refl Hn).
Defined.

Lemma smooth_move_same_as_direct_witness :
  Servo.positions_present Servo.ready_controller /\
  Py.moderate 500 /\
  Servo.current_positions Servo.ready_controller !! "camera_pan"%string
    = Some 90 /\
  Py.moderate 90 /\
  Servo.move_servo true "camera_pan" 500 true Servo.ready_controller
    = Servo.move_servo true "camera_pan" 500 false Servo.ready_controller.
Proof.
  assert (H500 : Py.moderate 500)
    by (apply moderate_small; vm_compute; discriminate).
  assert (H90 : Py.moderate 90)
    by (apply moderate_small; vm_compute; discriminate).
  split; [exact ready_controller_positions|].
  split; [exact H500|]. split; [reflexivity|]. split; [exact H90|].
  refine (smooth_move_same_as_direct true "camera_pan" 500
            Servo.ready_controller ready_controller_positions H500 _).
  intros v Hv. vm_compute in Hv. injection Hv as <-. exact H90.
Defined.

(** C10, as worded: a target out of the range of a float, the int
    [10 ** 400].  The smooth move raises when it computes its step count,
    [move_servo] returns [False] and the camera pan stays at 90; the direct
    move returns [True] and leaves the camera pan at 180, the end of its
    range. *)
Lemma smooth_move_fails_out_of_float_range :
  let target := inject_Z (10 ^ 400) in
  let smooth :=
    Servo.move_servo true "camera_pan" target true Servo.ready_controller in
  let direct :=
    Servo.move_servo true "camera_pan" target false Servo.ready_controller in
  Servo.positions_present Servo.ready_controller /\
  Servo.known "camera_pan" /\
  Servo.smooth_move true "camera_pan" target 2.0 Servo.ready_controller
    = (Raise (OverflowError "steps"), Servo.ready_controller) /\
  fst smooth = Ok false /\
  Servo.current_positions (snd smooth) !! "camera_pan"%string = Some 90 /\
  fst direct = Ok true /\
  Servo.current_positions (snd direct) !! "camera_pan"%string = Some 180 /\
  smooth <> direct.
Proof.
  intros target smooth direct.
  split; [exact ready_controller_positions|].
  split; [eexists; vm_compute; reflexivity|].
  split; [vm_compute; reflexivity|].
  split; [vm_compute; reflexivity|].
  split; [vm_compute; reflexivity|].
  split; [vm_compute; reflexivity|].
  split; [vm_compute; reflexivity|].
  intros H. apply (f_equal fst) in H. vm_compute in H. discriminate H.
Qed.

(** Both paths of the run above leave the camera pan at the upper end of its
    range. *)
Example smooth_move_out_of_range_target :
  Servo.current_positions
    (snd (Servo.move_servo true "camera_pan" 500 true Servo.ready_controller))
    !! "camera_pan"%string = Some 180.
Proof. vm_compute. reflexivity. Qed.

(** Confidences 0.3, 0.9 and 0.6: the second detection wins. *)
Lemma first_max_of_three :
  Servo.first_max
    [Servo.mkDetection (Some 0.3) (Some (0.1, 0.2));
     Servo.mkDetection (Some 0.9) (Some (0.5, 0.25));
     Servo.mkDetection (Some 0.6) (Some (0.9, 0.9))]
    (Servo.mkDetection (Some 0.9) (Some (0.5, 0.25))).
Proof.
  exists [Servo.mkDetection (Some 0.3) (Some (0.1, 0.2))],
         [Servo.mkDetection (Some 0.6) (Some (0.9, 0.9))].
  split; [reflexivity|]. split; intros d Hd.
  - apply list_elem_of_singleton in Hd. subst d. vm_compute. reflexivity.
  - apply list_elem_of_singleton in Hd. subst d. vm_compute. discriminate.
Qed.

Lemma first_max_single (d : Servo.Detection) : Servo.first_max [d] d.
Proof.
  exists [], []. split; [reflexivity|].
  split; intros x Hx; inversion Hx.
Qed.

Lemma track_follows_most_confident_witness :
  let detections :=
    [Servo.mkDetection (Some 0.3) (Some (0.1, 0.2));
     Servo.mkDetection (Some 0.9) (Some (0.5, 0.25));
     Servo.mkDetection (Some 0.6) (Some (0.9, 0.9))] in
  let after :=
    snd (Servo.track_objects true detections Servo.ready_controller) in
  Servo.operational true Servo.ready_controller /\
  Servo.positions_present Servo.ready_controller /\
  Servo.within_limits Servo.ready_controller /\
  Py.moderate 0.5 /\ Py.moderate 0.25 /\
  (exists pan tilt,
     Servo.current_positions after !! "camera_pan"%string = Some pan /\
     Servo.current_positions after !! "camera_tilt"%string = Some tilt /\
     pan == 0.5 * 180 /\ tilt == 30 + 0.25 * 120 /\
     pan == 90 /\ tilt == 60).
Proof.
  intros detections after.
  assert (Hx0 : Py.moderate 0.5)
    by (apply moderate_small; vm_compute; discriminate).
  assert (Hy0 : Py.moderate 0.25)
    by (apply moderate_small; vm_compute; discriminate).
  split; [exact ready_controller_operational|].
  split; [exact ready_controller_positions|].
  split; [exact ready_controller_within_limits|].
  split; [exact Hx0|]. split; [exact Hy0|].
  destruct (track_follows_most_confident true detections
              (Servo.mkDetection (Some 0.9) (Some (0.5, 0.25))) 0.5 0.25
              Servo.ready_controller
              ready_controller_operational ready_controller_positions
              ready_controller_within_limits Hx0 Hy0
              first_max_of_three eq_refl)
    as (Hpan & Htilt & Hx & Hy).
  eexists _, _. split; [exact Hpan|]. split; [exact Htilt|].
  split; [apply Hx; lra|]. split; [apply Hy; lra|].
  split; vm_compute; reflexivity.
Defined.

Lemma track_dish_routing_witness :
  let d := Servo.mkDetection (Some 0.85) (Some (0.5, 0.5)) in
  let after := snd (Servo.track_objects true [d] Servo.ready_controller) in
  Servo.operational true Servo.ready_controller /\
  Servo.positions_present Servo.ready_controller /\
  Servo.within_limits Servo.ready_controller /\
  Py.moderate 0.5 /\
  0.8 < Servo.get_confidence d /\
  (exists pan tilt azimuth elevation,
     Servo.current_positions after !! "camera_pan"%string = Some pan /\
     Servo.current_positions after !! "camera_tilt"%string = Some tilt /\
     Servo.current_positions after !! "dish_azimuth"%string = Some azimuth /\
     Servo.current_positions after !! "dish_elevation"%string
       = Some elevation /\
     pan == 90 /\ tilt == 90 /\ azimuth == 90 /\ elevation == 60).
Proof.
  intros d after.
  assert (Hc : 0.8 < Servo.get_confidence d) by (vm_compute; reflexivity).
  assert (Hx0 : Py.moderate 0.5)
    by (apply moderate_small; vm_compute; discriminate).
  split; [exact ready_controller_operational|].
  split; [exact ready_controller_positions|].
  split; [exact ready_controller_within_limits|].
  split; [exact Hx0|].
  split; [exact Hc|].
  destruct (track_dish_routing true [d] d 0.5 0.5 Servo.ready_controller
              ready_controller_operational ready_controller_positions
              ready_controller_within_limits Hx0 Hx0
              (first_max_single d) eq_refl)
    as (Hpan & Htilt & Hhigh & _).
  destruct (Hhigh Hc) as [Haz Hel].
  eexists _, _, _, _.
  split; [exact Hpan|]. split; [exact Htilt|].
  split; [exact Haz|]. split; [exact Hel|].
  repeat split; vm_compute; reflexivity.
Defined.

(** Confidence 0.75 with the same centre: the camera goes to 90 and 90, the
    dish stays at its home position. *)
Example track_camera_only :
  let d := Servo.mkDetection (Some 0.75) (Some (0.5, 0.5)) in
  let after := snd (Servo.track_objects true [d] Servo.ready_controller) in
  (exists pan tilt,
     Servo.current_positions after !! "camera_pan"%string = Some pan /\
     Servo.current_positions after !! "camera_tilt"%string = Some tilt /\
     pan == 90 /\ tilt == 90) /\
  Servo.current_positions after !! "dish_azimuth"%string
    = Servo.current_positions Servo.ready_controller !! "dish_azimuth"%string /\
  Servo.current_positions after !! "dish_elevation"%string
    = Servo.current_positions Servo.ready_controller
        !! "dish_elevation"%string.
Proof.
  intros d after. split.
  - eexists _, _. split; [vm_compute; reflexivity|].
    split; [vm_compute; reflexivity|]. split; reflexivity.
  - split; vm_compute; reflexivity.
Qed.

(** C2, as worded: with confidence 0.85 and centre (0.5, 0.5) the camera pan
    is 90, and the dish azimuth the code stores is 90, not the 180 that
    camera-pan times two gives when it is brought into [0,360] and clamped to
    [0,180] without the rescaling. *)
Lemma track_dish_azimuth_is_rescaled :
  let d := Servo.mkDetection (Some 0.85) (Some (0.5, 0.5)) in
  let after := snd (Servo.track_objects true [d] Servo.ready_controller) in
  exists azimuth,
    Servo.current_positions after !! "dish_azimuth"%string = Some azimuth /\
    azimuth == 90 /\
    Servo.spec_dish_azimuth_wrapped (0.5 * 180) == 180 /\
    Servo.spec_dish_azimuth_clamped (0.5 * 180) == 180 /\
    ~ azimuth == Servo.spec_dish_azimuth_wrapped (0.5 * 180) /\
    ~ azimuth == Servo.spec_dish_azimuth_clamped (0.5 * 180).
Proof.
  intros d after. eexists. split; [vm_compute; reflexivity|].
  repeat split; try (vm_compute; reflexivity);
    vm_compute; discriminate.
Qed.

(** ** The detector *)

Section DetectorFacts.

Import Detector.

Variable BackgroundModel : Type.
Variable preprocess_frame : Image -> result Image.
Variable foreground_contours :
  BackgroundModel -> Image -> result (list Contour) * BackgroundModel.
Variable classification_policy :
  DetectedObject -> Image -> result (Kind * Q).

Local Abbreviation detector := (AsteroidDetector BackgroundModel).
Local Abbreviation detect :=
  (detect_moving_objects foreground_contours).
Local Abbreviation classify :=
  (@classify_object BackgroundModel classification_policy).
Local Abbreviation classify_loop :=
  (@classify_all BackgroundModel classification_policy).
Local Abbreviation analyze :=
  (analyze_frame preprocess_frame foreground_contours
     classification_policy).
Local Abbreviation survives :=
  (survivor classification_policy).

(** *** Segmentation *)

(** The loop over the contours adds objects of an area strictly between 50
    and 5000 only, each with the area of its contour. *)
Lemma collect_objects_area contours objects obj :
  obj ∈ collect_objects contours objects ->
  obj ∈ objects \/
  (50 < area obj /\ area obj < 5000 /\
   exists c, c ∈ contours /\ area obj = contourArea c).
Proof.
  revert objects. induction contours as [|c contours IH]; intros objects;
    simpl; [auto|].
  destruct (Py.lt 50 (contourArea c)) eqn:E1; simpl.
  - destruct (Py.lt (contourArea c) 5000) eqn:E2; simpl.
    + destruct (boundingRect c) as [[[x y] w] h]. intros H.
      apply IH in H as [H|(H1 & H2 & c' & Hc' & H3)].
      * apply elem_of_app in H as [H|H]; [auto|].
        apply list_elem_of_singleton in H. subst obj. simpl.
        apply lt_true in E1. apply lt_true in E2. right.
        repeat split; try done. exists c. split; [left|done].
      * right. repeat split; try done. exists c'. split; [by right|done].
    + intros H. apply IH in H as [H|(H1 & H2 & c' & Hc' & H3)]; [auto|].
      right. repeat split; try done. exists c'. split; [by right|done].
  - intros H. apply IH in H as [H|(H1 & H2 & c' & Hc' & H3)]; [auto|].
    right. repeat split; try done. exists c'. split; [by right|done].
Qed.

(** [detect_moving_objects] never raises, and every object it returns has
    an area strictly between 50 and 5000. *)
Lemma detect_moving_objects_area frame self :
  exists objects,
    fst (detect frame self) = Ok objects /\
    forall obj, obj ∈ objects -> 50 < area obj /\ area obj < 5000.
Proof.
  unfold detect_moving_objects, try_except, bind, gets, modify, lift, ret.
  destruct (foreground_contours (background_subtractor self) frame)
    as [[contours|e] bg']; simpl.
  - eexists. split; [reflexivity|]. intros obj H.
    apply collect_objects_area in H as [H|(H1 & H2 & _)]; [|done].
    inversion H.
  - eexists. split; [reflexivity|]. intros obj H. inversion H.
Qed.

(** *** Classification of one object *)

(** [classify_object] never raises and leaves the detector as it is; the
    classification it returns carries the area of the object. *)
Lemma classify_object_area obj frame self :
  exists c, classify obj frame self = (Ok c, self) /\ cls_area c = area obj.
Proof.
  unfold classify_object, try_except, bind, lift, ret.
  destruct (bbox obj) as [[[x y] w] h].
  destruct (classification_policy obj (region frame x y w h));
    eexists; (split; [reflexivity|done]).
Qed.

(** With a threshold that is not negative, what [classify_object] returns
    passes the threshold exactly when the object survives. *)
Lemma classify_object_survivor obj frame self :
  0 <= detection_threshold self ->
  exists c,
    classify obj frame self = (Ok c, self) /\
    match survives (detection_threshold self) frame obj with
    | Some c' =>
        c' = c /\
        Py.lt (detection_threshold self) (confidence c) = true
    | None =>
        Py.lt (detection_threshold self) (confidence c) = false
    end.
Proof.
  intros Ht. unfold classify_object, survivor, try_except, bind, lift, ret.
  destruct (bbox obj) as [[[x y] w] h] eqn:Hb.
  destruct (classification_policy obj (region frame x y w h))
    as [[kind conf]|e]; simpl.
  - eexists. split; [reflexivity|]. simpl.
    destruct (Py.lt (detection_threshold self) conf) eqn:E; [|done].
    by split.
  - eexists. split; [reflexivity|]. simpl. apply lt_false.
    assert (0.0 == 0) by reflexivity. lra.
Qed.

(** The loop of a pass returns the classifications of the survivors, in
    order, after those it started with. *)
Lemma classify_all_survivors objects frame detections self :
  0 <= detection_threshold self ->
  classify_loop objects frame detections self =
    (Ok (detections ++
         omap (survives (detection_threshold self) frame) objects),
     self).
Proof.
  intros Ht. revert detections.
  induction objects as [|obj objects IH]; intros detections; simpl.
  - by rewrite app_nil_r.
  - destruct (classify_object_survivor obj frame self Ht) as (c & Hc & Hs).
    unfold bind at 1. rewrite Hc. unfold bind at 1, gets at 1.
    destruct (survives (detection_threshold self) frame obj) as [c'|].
    + destruct Hs as [-> Hs]. rewrite Hs, IH. by rewrite <- app_assoc.
    + rewrite Hs. apply IH.
Qed.

(** Whatever the threshold, the loop never raises, leaves the detector as
    it is, and adds classifications of the given objects only. *)
Lemma classify_all_area objects frame detections self :
  exists l,
    classify_loop objects frame detections self = (Ok l, self) /\
    forall c, c ∈ l ->
      c ∈ detections \/ exists obj, obj ∈ objects /\ cls_area c = area obj.
Proof.
  revert detections.
  induction objects as [|obj objects IH]; intros detections; simpl.
  - eexists. split; [reflexivity|]. auto.
  - destruct (classify_object_area obj frame self) as (c & Hc & Ha).
    unfold bind at 1. rewrite Hc. unfold bind at 1, gets at 1.
    destruct (Py.lt (detection_threshold self) (confidence c)).
    + destruct (IH (detections ++ [c])) as (l & Hl & H).
      exists l. split; [done|]. intros c' Hc'.
      apply H in Hc' as [Hc'|(o & Ho & Hc')].
      * apply elem_of_app in Hc' as [Hc'|Hc']; [auto|].
        apply list_elem_of_singleton in Hc'. subst c'.
        right. exists obj. split; [left|done].
      * right. exists o. split; [by right|done].
    + destruct (IH detections) as (l & Hl & H).
      exists l. split; [done|]. intros c' Hc'.
      apply H in Hc' as [Hc'|(o & Ho & Hc')]; [auto|].
      right. exists o. split; [by right|done].
Qed.

(** *** A pass over a frame *)

Lemma detect_moving_objects_eq frame self :
  detect frame self =
    (Ok match fst (foreground_contours (background_subtractor self) frame)
        with
        | Ok contours => collect_objects contours []
        | Raise _ => []
        end,
     set_background
       (snd (foreground_contours (background_subtractor self) frame)) self).
Proof.
  unfold detect_moving_objects, try_except, bind, gets, modify, lift, ret.
  by destruct (foreground_contours (background_subtractor self) frame)
    as [[contours|e] bg'].
Qed.

(** *** The statements about the detector *)

(** [analyze_frame] returns a list, whatever the frame and the detector. *)
Lemma analyze_frame_total frame self :
  exists l, fst (analyze frame self) = Ok l.
Proof.
  unfold analyze_frame. unfold bind at 1, gets at 1.
  destruct (model_loaded self); simpl; [|eauto].
  unfold try_except, bind at 1, lift at 1.
  destruct (preprocess_frame frame) as [processed|e]; simpl; [|eauto].
  unfold bind at 1. rewrite detect_moving_objects_eq.
  match goal with
  | |- context [classify_loop ?objs processed [] ?s] =>
      destruct (classify_all_area objs processed [] s) as (l & Hl & _)
  end.
  rewrite Hl. eauto.
Qed.

(** C4, as the code has it: [set_detection_threshold] with a value outside
    [0,1] returns normally, without an error, and leaves the threshold as
    it was; with a value within [0,1] it stores the value. *)
Theorem set_detection_threshold_guard (t : Q)
    (self : AsteroidDetector BackgroundModel) :
  (0 <= t /\ t <= 1 ->
     set_detection_threshold t self = (Ok tt, set_threshold t self)) /\
  (~ (0 <= t /\ t <= 1) ->
     set_detection_threshold t self = (Ok tt, self)).
Proof.
  assert (H0 : 0.0 == 0) by reflexivity.
  assert (H1 : 1.0 == 1) by reflexivity.
  unfold set_detection_threshold. split.
  - intros [Hl Hh].
    assert (E1 : Py.le 0.0 t = true) by (apply le_true; lra).
    assert (E2 : Py.le t 1.0 = true) by (apply le_true; lra).
    by rewrite E1, E2.
  - intros Hn. destruct (Py.le 0.0 t) eqn:E1; [|done].
    destruct (Py.le t 1.0) eqn:E2; [|done].
    apply le_true in E1. apply le_true in E2.
    exfalso. apply Hn. split; lra.
Qed.

(** C7: [analyze_frame] returns a list, and every classification in it has
    an area strictly between 50 and 5000: a component of area at most 50 or
    at least 5000 is dropped by [detect_moving_objects] and never
    classified. *)
Theorem analyze_frame_area_filter frame self :
  exists l,
    fst (analyze_frame preprocess_frame foreground_contours
           classification_policy frame self) = Ok l /\
    forall c, c ∈ l -> 50 < cls_area c /\ cls_area c < 5000.
Proof.
  unfold analyze_frame. unfold bind at 1, gets at 1.
  destruct (model_loaded self); simpl.
  2: { eexists. split; [reflexivity|]. intros c H. inversion H. }
  unfold try_except, bind at 1, lift at 1.
  destruct (preprocess_frame frame) as [processed|e]; simpl.
  2: { eexists. split; [reflexivity|]. intros c H. inversion H. }
  unfold bind at 1.
  destruct (detect_moving_objects_area processed self) as (objs & Ho & Ha).
  destruct (detect processed self) as [r s'] eqn:E. simpl in Ho. subst r.
  destruct (classify_all_area objs processed [] s') as (l & Hl & H).
  rewrite Hl. exists l. split; [done|]. intros c Hc.
  apply H in Hc as [Hc|(obj & Hobj & Hc)]; [inversion Hc|].
  rewrite Hc. by apply Ha.
Qed.

(** C9: [analyze_frame] never raises.  When the frame is preprocessed and
    segmented, an object whose classification raises is skipped, the pass
    goes on, and the list returned holds, in order, the classifications
    above the threshold of the objects whose classification went
    through. *)
Theorem analyze_frame_never_raises frame self :
  (exists l,
     fst (analyze_frame preprocess_frame foreground_contours
            classification_policy frame self) = Ok l) /\
  (forall processed contours bg',
     model_loaded self = true ->
     0 <= detection_threshold self ->
     preprocess_frame frame = Ok processed ->
     foreground_contours (background_subtractor self) processed
       = (Ok contours, bg') ->
     fst (analyze_frame preprocess_frame foreground_contours
            classification_policy frame self) =
       Ok (omap
             (survivor classification_policy (detection_threshold self)
                processed)
             (collect_objects contours []))).
Proof.
  split.
  - apply analyze_frame_total.
  - intros processed contours bg' Hm Ht Hp Hf.
    unfold analyze_frame. unfold bind at 1, gets at 1. rewrite Hm. simpl.
    unfold try_except, bind at 1, lift at 1. rewrite Hp.
    unfold bind at 1. rewrite detect_moving_objects_eq, Hf. simpl.
    by rewrite classify_all_survivors.
Qed.

End DetectorFacts.

(** C6: the heuristic of the class, by the mean brightness of the region,
    the area and the aspect ratio of the object: a bright object (brightness
    above 200) of area above 100 is a meteor at 0.8 when its aspect ratio is
    above 2.0, else an asteroid at 0.7 when its area is above 500, else a
    meteor at 0.6; any other object of brightness above 150 is a meteor at
    0.5; anything else is not a meteor, at 0.9. *)
Theorem heuristic_classification_table
    (obj : Detector.DetectedObject) (roi : Detector.Image) :
  let brightness := Detector.brightness_of roi in
  let area := Detector.area obj in
  let aspect_ratio := Detector.aspect_ratio obj in
  let verdict := Detector.heuristic_classification obj roi in
  (200 < brightness /\ 100 < area ->
     (2 < aspect_ratio -> verdict = (Detector.meteor, 0.8)) /\
     (aspect_ratio <= 2 -> 500 < area -> verdict = (Detector.asteroid, 0.7)) /\
     (aspect_ratio <= 2 -> area <= 500 -> verdict = (Detector.meteor, 0.6))) /\
  (~ (200 < brightness /\ 100 < area) ->
     (150 < brightness -> verdict = (Detector.meteor, 0.5)) /\
     (brightness <= 150 -> verdict = (Detector.non_meteor, 0.9))).
Proof.
  intros brightness area aspect_ratio verdict.
  subst verdict. unfold Detector.heuristic_classification.
  fold brightness. fold area. fold aspect_ratio.
  assert (H2 : 2.0 == 2) by reflexivity.
  split.
  - intros [Hb Ha].
    apply lt_true in Hb. apply lt_true in Ha. rewrite Hb, Ha. simpl.
    repeat split.
    + intros Hr. assert (E : Py.lt 2.0 aspect_ratio = true)
        by (apply lt_true; lra). by rewrite E.
    + intros Hr Hl. assert (E : Py.lt 2.0 aspect_ratio = false)
        by (apply lt_false; lra). rewrite E.
      apply lt_true in Hl. by rewrite Hl.
    + intros Hr Hl. assert (E : Py.lt 2.0 aspect_ratio = false)
        by (apply lt_false; lra). rewrite E.
      apply lt_false in Hl. by rewrite Hl.
  - intros Hn.
    assert (E : Py.lt 200 brightness && Py.lt 100 area = false).
    { destruct (Py.lt 200 brightness) eqn:E1; [|done].
      destruct (Py.lt 100 area) eqn:E2; [|done].
      apply lt_true in E1. apply lt_true in E2. tauto. }
    rewrite E. split.
    + intros Hb. apply lt_true in Hb. by rewrite Hb.
    + intros Hb. apply lt_false in Hb. by rewrite Hb.
Qed.

(** *** Concrete runs of the detector *)

(** A region of mean brightness 220 and an object of area 120 and aspect
    ratio 2.5: a meteor at 0.8. *)
Lemma heuristic_classification_table_witness :
  let obj :=
    Detector.mkDetectedObject (Detector.mkContour 120 (10, 10, 25, 10)%Z)
      (10, 10, 25, 10)%Z 120 2.5 (22, 15)%Z in
  let roi : Detector.Image := [[210; 230]; [225; 215]]%Z in
  Detector.brightness_of roi == 220 /\
  (200 < Detector.brightness_of roi /\ 100 < Detector.area obj) /\
  2 < Detector.aspect_ratio obj /\
  Detector.heuristic_classification obj roi = (Detector.meteor, 0.8).
Proof.
  intros obj roi.
  assert (Hb : 200 < Detector.brightness_of roi /\ 100 < Detector.area obj)
    by (split; vm_compute; reflexivity).
  assert (Hr : 2 < Detector.aspect_ratio obj) by (vm_compute; reflexivity).
  split; [vm_compute; reflexivity|]. split; [exact Hb|]. split; [exact Hr|].
  exact (proj1 (proj1 (heuristic_classification_table obj roi) Hb) Hr).
Defined.

Lemma set_detection_threshold_guard_witness :
  let d := Detector.AsteroidDetector_init tt in
  ~ (0 <= 2 /\ 2 <= 1) /\
  Detector.set_detection_threshold 2 d = (Ok tt, d) /\
  (0 <= 0.7 /\ 0.7 <= 1) /\
  Detector.detection_threshold
    (snd (Detector.set_detection_threshold 0.7 d)) = 0.7.
Proof.
  intros d.
  assert (Hout : ~ (0 <= 2 /\ 2 <= 1)) by (intros [_ H]; vm_compute in H; auto).
  assert (Hin : 0 <= 0.7 /\ 0.7 <= 1) by (split; vm_compute; discriminate).
  split; [exact Hout|].
  split; [exact (proj2 (set_detection_threshold_guard unit 2 d) Hout)|].
  split; [exact Hin|].
  rewrite (proj1 (set_detection_threshold_guard unit 0.7 d) Hin).
  reflexivity.
Defined.

(** C4, as worded: a threshold of 2 is outside [0,1], and the call does not
    fail: it returns normally. *)
Lemma set_detection_threshold_does_not_fail :
  let d := Detector.AsteroidDetector_init tt in
  ~ (0 <= 2 /\ 2 <= 1) /\
  fst (Detector.set_detection_threshold 2 d) = Ok tt /\
  ~ is_failure (fst (Detector.set_detection_threshold 2 d)).
Proof.
  intros d. split; [intros [_ H]; vm_compute in H; auto|].
  split; [reflexivity|]. vm_compute. auto.
Qed.

(** The thresholds that the constructor and the setter leave are within
    [0,1]. *)
Lemma set_detection_threshold_range B (t : Q)
    (self : Detector.AsteroidDetector B) :
  0 <= Detector.detection_threshold self <= 1 ->
  0 <= Detector.detection_threshold
         (snd (Detector.set_detection_threshold t self)) <= 1.
Proof.
  intros H. unfold Detector.set_detection_threshold.
  destruct (Py.le 0.0 t) eqn:E1; simpl; [|done].
  destruct (Py.le t 1.0) eqn:E2; simpl; [|done].
  apply le_true in E1. apply le_true in E2.
  assert (H0 : 0.0 == 0) by reflexivity.
  assert (H1 : 1.0 == 1) by reflexivity.
  lra.
Qed.

Lemma analyze_frame_area_filter_witness :
  exists l,
    fst (Detector.analyze_frame Detector.keep_frame
           (Detector.always_finds Detector.mixed_contours)
           Detector.default_policy Detector.bright_frame
           Detector.loaded_detector) = Ok l /\
    (forall c, c ∈ l -> 50 < Detector.cls_area c /\ Detector.cls_area c < 5000) /\
    map Detector.cls_area l = [120; 800] /\
    map Detector.type_ l = [Detector.meteor; Detector.asteroid].
Proof.
  destruct (analyze_frame_area_filter unit Detector.keep_frame
              (Detector.always_finds Detector.mixed_contours)
              Detector.default_policy Detector.bright_frame
              Detector.loaded_detector) as (l & Hl & H).
  exists l. split; [exact Hl|]. split; [exact H|].
  vm_compute in Hl. injection Hl as <-. split; reflexivity.
Defined.

Lemma analyze_frame_never_raises_witness :
  let self := Detector.loaded_detector in
  Detector.model_loaded self = true /\
  0 <= Detector.detection_threshold self /\
  exists l,
    fst (Detector.analyze_frame Detector.keep_frame
           (Detector.always_finds Detector.three_contours)
           Detector.policy_failing_on_large Detector.bright_frame self)
      = Ok l /\
    map Detector.cls_area l = [120; 300].
Proof.
  intros self.
  assert (Ht : 0 <= Detector.detection_threshold self)
    by (vm_compute; discriminate).
  split; [reflexivity|]. split; [exact Ht|].
  eexists. split.
  - exact (proj2 (analyze_frame_never_raises unit Detector.keep_frame
                    (Detector.always_finds Detector.three_contours)
                    Detector.policy_failing_on_large Detector.bright_frame
                    self)
             Detector.bright_frame Detector.three_contours tt
             eq_refl Ht eq_refl eq_refl).
  - vm_compute. reflexivity.
Defined.

(** * Further properties *)

(** ** Loops and numbers *)

Section LoopFacts.

Context {S A : Type}.

(** A loop whose body raises for one of the elements raises. *)
Lemma for_each_raises (l : list A) (body : A -> M S unit) (x : A) :
  x ∈ l -> (forall s, is_failure (fst (body x s))) ->
  forall s, is_failure (fst (for_each l body s)).
Proof.
  intros Hx Hraise. induction l as [|y l IH]; intros s; [inversion Hx|].
  simpl. unfold bind.
  destruct (body y s) as [[[]|e] s'] eqn:E; simpl; [|done].
  apply elem_of_cons in Hx as [->|Hx]; [|by apply IH].
  specialize (Hraise s). by rewrite E in Hraise.
Qed.

(** A loop whose body returns without a change returns without a change. *)
Lemma for_each_idle (l : list A) (body : A -> M S unit) (s : S) :
  (forall x, x ∈ l -> body x s = (Ok tt, s)) ->
  for_each l body s = (Ok tt, s).
Proof.
  induction l as [|y l IH]; intros H; simpl; [done|].
  unfold bind. rewrite H by left. apply IH. intros x Hx. apply H. by right.
Qed.

End LoopFacts.

(** The floor of a number is the integer just below it. *)
Lemma Qfloor_unique (x : Q) (k : Z) :
  inject_Z k <= x -> x < inject_Z (k + 1) -> Qfloor x = k.
Proof.
  intros Hl Hu.
  pose proof (Qfloor_le x) as Fl. pose proof (Qlt_floor x) as Fu.
  assert (A1 : (Qfloor x < k + 1)%Z).
  { rewrite Zlt_Qlt. eapply Qle_lt_trans; [exact Fl|exact Hu]. }
  assert (A2 : (k < Qfloor x + 1)%Z).
  { rewrite Zlt_Qlt. eapply Qle_lt_trans; [exact Hl|exact Fu]. }
  lia.
Qed.

(** [a % 360] has period 360. *)
Lemma mod_360_period (a : Q) : mod_ (a + 360) 360 == mod_ a 360.
Proof.
  unfold mod_.
  assert (E : Qfloor ((a + 360) / 360) = (Qfloor (a / 360) + 1)%Z).
  { pose proof (Qfloor_le (a / 360)) as Fl.
    pose proof (Qlt_floor (a / 360)) as Fu.
    assert (E1 : (a + 360) / 360 == a / 360 + 1) by (field; discriminate).
    apply Qfloor_unique; rewrite E1, !inject_Z_plus in *.
    - apply Qplus_le_l. exact Fl.
    - apply Qplus_lt_l. exact Fu. }
  rewrite E, inject_Z_plus.
  assert (E1 : inject_Z 1 == 1) by reflexivity.
  rewrite E1. ring.
Qed.

(** ** The positioner: ranges, hardware and the mock *)

Section PositionerFurther.

Import Servo.

Variable GPIO_AVAILABLE : bool.

Local Abbreviation write := (move_servo_to_position GPIO_AVAILABLE).
Local Abbreviation go := (move_servo GPIO_AVAILABLE).

(** A write keeps the class, the initialisation flag and the presence of
    stored positions, and touches the position of its axis only. *)
Lemma write_keeps_flags n a self :
  cls (snd (write n a self)) = cls self /\
  initialized (snd (write n a self)) = initialized self.
Proof.
  destruct (move_to_cases GPIO_AVAILABLE n a self)
    as [H|[[_ H]|(lo & hi & _ & _ & _ & _ & _ & H)]]; by rewrite H.
Qed.

Lemma write_keeps_positions_present n a self :
  positions_present self -> positions_present (snd (write n a self)).
Proof.
  intros Hp.
  destruct (move_to_cases GPIO_AVAILABLE n a self)
    as [H|[[_ H]|(lo & hi & _ & _ & _ & _ & _ & H)]]; rewrite H; simpl.
  - done.
  - intros m Hm. simpl. destruct (decide (n = m)) as [->|Hne].
    + rewrite lookup_insert_eq. eauto.
    + rewrite lookup_insert_ne by done. auto.
  - by apply moved_positions_present.
Qed.

Lemma write_other_axis n m a self :
  n <> m ->
  current_positions (snd (write n a self)) !! m = current_positions self !! m.
Proof.
  intros Hne.
  destruct (move_to_cases GPIO_AVAILABLE n a self)
    as [H|[[_ H]|(lo & hi & _ & _ & _ & _ & _ & H)]]; rewrite H; simpl.
  - done.
  - by rewrite lookup_insert_ne.
  - by rewrite lookup_insert_ne.
Qed.

(** Whether [move_servo] fails on a known axis of the real controller: when
    it is smooth and the step count cannot be computed, or there is no
    stored position to start from. *)
Local Abbreviation fails n a smooth self :=
  (smooth && match current_positions self !! n with
             | Some v => Py.overflows (a - v)
             | None => true
             end).

(** [move_servo] on a known axis of the real controller: it fails without
    a change, or succeeds with the state after the write. *)
Lemma move_servo_real_eq n a smooth self :
  cls self = Real -> known n ->
  go n a smooth self =
    if fails n a smooth self then (Ok false, self)
    else (Ok true, snd (write n a self)).
Proof.
  intros Hc Hk. destruct smooth; simpl.
  - destruct (current_positions self !! n) as [v|] eqn:Hv.
    + destruct (Py.overflows (a - v)) eqn:Ho.
      * by apply (move_servo_smooth_overflow GPIO_AVAILABLE n a self v).
      * apply move_servo_smooth; [done|done|eauto|].
        intros v' Hv'. by simplify_eq.
    + by apply move_servo_smooth_no_position.
  - by apply move_servo_direct.
Qed.

(** From a position within its range a move to a target of magnitude at
    most [2^1010] does not fail. *)
Lemma within_limits_no_failure n a smooth self :
  known n -> positions_present self -> within_limits self ->
  Qabs a <= inject_Z (2 ^ 1010) ->
  fails n a smooth self = false.
Proof.
  intros Hk Hp Hw Ha. destruct smooth; [|done]. simpl.
  destruct (Hp n Hk) as [v Hv]. rewrite Hv.
  by apply (within_limits_steps_defined self n a).
Qed.

(** The state after [move_servo] for a known axis of the real controller,
    when the step count can be computed: the state after the write. *)
Lemma move_servo_state_known n a smooth self :
  cls self = Real -> known n -> positions_present self ->
  within_limits self -> Qabs a <= inject_Z (2 ^ 1010) ->
  snd (go n a smooth self) = snd (write n a self).
Proof.
  intros Hc Hk Hp Hw Ha. rewrite move_servo_real_eq by done.
  by rewrite within_limits_no_failure.
Qed.

Lemma move_servo_state_other n a smooth self :
  cls self = Mock \/ ~ known n -> snd (go n a smooth self) = self.
Proof.
  intros H. destruct (cls self) eqn:Hc.
  - destruct H as [H|H]; [done|].
    rewrite move_servo_unknown; [done|done|].
    destruct (servo_pins_table !! n) eqn:E; [|done].
    exfalso. apply H. unfold known. eauto.
  - by rewrite move_servo_mock.
Qed.

Lemma move_servo_keeps_positions_present n a smooth self :
  positions_present self -> positions_present (snd (go n a smooth self)).
Proof.
  intros Hp.
  destruct (move_servo_state GPIO_AVAILABLE n a smooth self) as [H|H];
    rewrite H; [done|by apply write_keeps_positions_present].
Qed.

(** X1: on the real controller [move_servo] keeps every stored angle within
    the declared range of its axis, whatever the axis name, the target and
    the smooth flag. *)
Theorem real_move_servo_within_limits n a smooth self :
  cls self = Real -> within_limits self ->
  within_limits (snd (move_servo GPIO_AVAILABLE n a smooth self)).
Proof.
  intros Hc Hw.
  destruct (move_servo_state GPIO_AVAILABLE n a smooth self) as [H|H];
    rewrite H; [done|].
  by apply move_to_real_within_limits.
Qed.

(** X2: on the real controller the camera move, the dish move,
    [track_objects] and [home_all_servos] keep every stored angle within
    the declared range of its axis. *)
Theorem real_motions_within_limits self :
  cls self = Real -> within_limits self ->
  (forall pan tilt,
     within_limits
       (snd (move_camera_to_coordinates GPIO_AVAILABLE pan tilt self))) /\
  (forall azimuth elevation,
     within_limits
       (snd (move_dish_to_coordinates GPIO_AVAILABLE azimuth elevation self)))
  /\
  (forall detections,
     within_limits (snd (track_objects GPIO_AVAILABLE detections self))) /\
  within_limits (snd (home_all_servos GPIO_AVAILABLE self)).
Proof.
  intros Hc Hw. split; [|split; [|split]].
  - intros pan tilt.
    by apply (move_camera_keeps_range GPIO_AVAILABLE pan tilt self).
  - intros azimuth elevation.
    by apply (move_dish_keeps_range GPIO_AVAILABLE azimuth elevation self).
  - intros detections.
    by apply (track_objects_keeps_range GPIO_AVAILABLE detections self).
  - by apply (home_all_servos_keeps_range GPIO_AVAILABLE self).
Qed.

(** X3: without hardware, that is before [initialize] or when [RPi.GPIO] is
    not available, [move_servo] of the real controller for a known axis
    leaves the whole state as it was, whatever the target.  It still
    returns [True] for a direct move, and for a smooth move to a moderate
    target from positions within their ranges; it returns [False] for a
    smooth move to a target of magnitude [2^1024] or more, out of the range
    of a float, whose step count cannot be computed. *)
Theorem move_servo_without_hardware n a smooth self :
  cls self = Real -> known n -> positions_present self ->
  initialized self = false \/ GPIO_AVAILABLE = false ->
  snd (move_servo GPIO_AVAILABLE n a smooth self) = self /\
  (smooth = false \/ (within_limits self /\ Py.moderate a) ->
   fst (move_servo GPIO_AVAILABLE n a smooth self) = Ok true) /\
  (smooth = true -> within_limits self ->
   inject_Z (2 ^ 1024) <= Qabs a ->
   fst (move_servo GPIO_AVAILABLE n a smooth self) = Ok false).
Proof.
  intros Hc Hk Hp Hoff.
  assert (Hw : write n a self = (Ok tt, self)).
  { apply move_to_real_idle; [done|]. destruct Hoff; auto. }
  rewrite move_servo_real_eq, Hw by done.
  split; [by destruct (fails n a smooth self)|]. split.
  - intros [->|[Hlim Ha]]; [done|].
    by rewrite within_limits_no_failure
      by (done || by apply moderate_magnitude).
  - intros -> Hlim Ha. simpl.
    destruct (Hp n Hk) as [v Hv]. rewrite Hv.
    apply known_limits in Hk as [[lo hi] Hl].
    destruct (Hlim n lo hi v Hl Hv) as [H0 H1].
    apply limits_table_entry in Hl.
    rewrite beyond_float_range; [done|done|..];
      destruct Hl as [H|[H|[H|H]]]; destruct H as (_ & -> & ->); lra.
Qed.

(** X4: the mock never moves through the methods it inherits: [move_servo]
    raises [AttributeError] for the missing [servo_pins], the camera move,
    the dish move and [home_all_servos] return [False], [track_objects]
    returns, and each leaves the state as it was. *)
Theorem mock_never_moves self :
  cls self = Mock ->
  (forall n a smooth,
     move_servo GPIO_AVAILABLE n a smooth self
       = (Raise (AttributeError "servo_pins"), self)) /\
  (forall pan tilt,
     move_camera_to_coordinates GPIO_AVAILABLE pan tilt self
       = (Ok false, self)) /\
  (forall azimuth elevation,
     move_dish_to_coordinates GPIO_AVAILABLE azimuth elevation self
       = (Ok false, self)) /\
  (forall detections,
     track_objects GPIO_AVAILABLE detections self = (Ok tt, self)) /\
  home_all_servos GPIO_AVAILABLE self = (Ok false, self).
Proof.
  intros Hc.
  assert (Hm : forall n a smooth,
             go n a smooth self = (Raise (AttributeError "servo_pins"), self))
    by (intros; by apply move_servo_mock).
  assert (Hcam : forall pan tilt,
             move_camera_to_coordinates GPIO_AVAILABLE pan tilt self
               = (Ok false, self)).
  { intros. unfold move_camera_to_coordinates, try_except, bind.
    by rewrite Hm. }
  assert (Hdish : forall azimuth elevation,
             move_dish_to_coordinates GPIO_AVAILABLE azimuth elevation self
               = (Ok false, self)).
  { intros. unfold move_dish_to_coordinates, try_except, bind.
    by rewrite Hm. }
  split; [done|]. split; [done|]. split; [done|]. split.
  - intros [|first rest]; [done|].
    unfold track_objects, try_except, get_coordinates.
    destruct (coordinates (max_by get_confidence first rest)) as [[x y]|];
      [|done].
    unfold bind at 1. unfold ret at 1. unfold bind at 1. rewrite Hcam.
    destruct (Py.lt 0.8 _); [|done].
    unfold bind. by rewrite Hdish.
  - unfold home_all_servos, try_except. simpl. unfold bind. by rewrite Hm.
Qed.

(** X5: an axis is moved alone: [move_servo] of one axis leaves the stored
    position of every other axis as it was, for both classes and in every
    state. *)
Theorem move_servo_other_axes n m a smooth self :
  n <> m ->
  current_positions (snd (move_servo GPIO_AVAILABLE n a smooth self)) !! m
    = current_positions self !! m.
Proof.
  intros Hne.
  destruct (move_servo_state GPIO_AVAILABLE n a smooth self) as [H|H];
    rewrite H; [done|].
  by apply write_other_axis.
Qed.

(** *** How moves compose *)

(** The state after a write of the real controller, in one formula. *)
Lemma write_real_state n a self :
  cls self = Real ->
  snd (write n a self) =
    if initialized self && GPIO_AVAILABLE then
      match limits_table !! n, servo_pwm self !! n with
      | Some (lo, hi), Some _ => moved n (Py.max lo (Py.min hi a)) self
      | _, _ => self
      end
    else self.
Proof.
  intros Hc.
  destruct (initialized self) eqn:Hi;
    [|by rewrite move_to_real_idle by auto].
  assert (Hg : GPIO_AVAILABLE = true \/ GPIO_AVAILABLE = false)
    by (destruct GPIO_AVAILABLE; auto).
  destruct Hg as [Hg|Hg];
    [|rewrite move_to_real_idle by auto; by rewrite Hg].
  destruct (limits_table !! n) as [[lo hi]|] eqn:Hl;
    [|rewrite move_to_real_idle by auto; by rewrite Hg].
  destruct (servo_pwm self !! n) eqn:Hp;
    [|rewrite move_to_real_idle by auto; by rewrite Hg].
  rewrite (move_to_real_active GPIO_AVAILABLE n a self lo hi) by eauto.
  by rewrite Hg.
Qed.

Lemma moved_commute n m a b self :
  n <> m -> moved m b (moved n a self) = moved n a (moved m b self).
Proof.
  intros Hne. unfold moved, set_current_position, set_servo_pwm. simpl.
  f_equal; by apply insert_insert_ne.
Qed.

(** Writes to different axes commute. *)
Lemma write_commute n m a b self :
  n <> m ->
  snd (write m b (snd (write n a self)))
    = snd (write n a (snd (write m b self))).
Proof.
  intros Hne. destruct (cls self) eqn:Hc.
  - assert (Hc1 : cls (snd (write n a self)) = Real)
      by (by rewrite (proj1 (write_keeps_flags n a self))).
    assert (Hc2 : cls (snd (write m b self)) = Real)
      by (by rewrite (proj1 (write_keeps_flags m b self))).
    rewrite (write_real_state m b _ Hc1), (write_real_state n a _ Hc2).
    rewrite (proj2 (write_keeps_flags n a self)).
    rewrite (proj2 (write_keeps_flags m b self)).
    rewrite (write_real_state n a self Hc), (write_real_state m b self Hc).
    destruct (initialized self && GPIO_AVAILABLE); [|done].
    destruct (limits_table !! n) as [[lo hi]|],
             (limits_table !! m) as [[lo' hi']|],
             (servo_pwm self !! n) eqn:Hn, (servo_pwm self !! m) eqn:Hm;
      simpl; rewrite ?lookup_insert_ne by done; rewrite ?Hn, ?Hm; try done.
    by apply moved_commute.
  - rewrite !move_to_mock by (by rewrite ?(proj1 (write_keeps_flags _ _ _))).
    unfold set_current_position. simpl.
    f_equal. by apply insert_insert_ne.
Qed.

(** X6: the last move of an axis wins: with the stored positions within
    their ranges, after any move of an axis, whatever its target and
    whether it succeeds, a move of the same axis to a moderate target
    leaves the state that it leaves without the first one.  Moving twice to
    the same moderate target is moving once. *)
Theorem move_servo_last_wins n t1 t2 smooth1 smooth2 self :
  positions_present self -> within_limits self -> Py.moderate t2 ->
  snd (move_servo GPIO_AVAILABLE n t2 smooth2
         (snd (move_servo GPIO_AVAILABLE n t1 smooth1 self)))
    = snd (move_servo GPIO_AVAILABLE n t2 smooth2 self).
Proof.
  intros Hp Hw Ht2. pose proof (moderate_magnitude t2 Ht2) as Hm.
  destruct (cls self) eqn:Hc.
  - destruct (servo_pins_table !! n) eqn:Hn.
    + assert (Hk : known n) by (unfold known; eauto).
      rewrite (move_servo_state_known n t2 smooth2 self) by done.
      destruct (move_servo_state GPIO_AVAILABLE n t1 smooth1 self) as [H|H];
        rewrite H.
      * by apply move_servo_state_known.
      * rewrite move_servo_state_known.
        -- by rewrite move_to_absorbs.
        -- by rewrite (proj1 (write_keeps_flags n t1 self)).
        -- done.
        -- by apply write_keeps_positions_present.
        -- by apply move_to_real_within_limits.
        -- done.
    + assert (Hk : ~ known n) by (unfold known; rewrite Hn; by intros [? ?]).
      by rewrite (move_servo_state_other n t1 smooth1 self) by auto.
  - by rewrite (move_servo_state_other n t1 smooth1 self) by auto.
Qed.

(** X7: moves of different axes commute: the two orders leave the same
    state. *)
Theorem move_servo_commute n m a b smooth1 smooth2 self :
  n <> m -> positions_present self ->
  snd (move_servo GPIO_AVAILABLE m b smooth2
         (snd (move_servo GPIO_AVAILABLE n a smooth1 self)))
    = snd (move_servo GPIO_AVAILABLE n a smooth1
             (snd (move_servo GPIO_AVAILABLE m b smooth2 self))).
Proof.
  intros Hne Hp.
  destruct (cls self) eqn:Hc.
  2: { rewrite (move_servo_state_other n a smooth1 self) by auto.
       rewrite (move_servo_state_other m b smooth2 self) by auto.
       by rewrite (move_servo_state_other n a smooth1 self) by auto. }
  assert (Hdec : forall k, known k \/ ~ known k).
  { intros k. unfold known. destruct (servo_pins_table !! k); [left; eauto|].
    right. by intros [? ?]. }
  destruct (Hdec n) as [Hn|Hn], (Hdec m) as [Hm|Hm].
  - assert (Hcn : cls (snd (write n a self)) = Real)
      by (by rewrite (proj1 (write_keeps_flags n a self))).
    assert (Hcm : cls (snd (write m b self)) = Real)
      by (by rewrite (proj1 (write_keeps_flags m b self))).
    assert (Hne' : m <> n) by congruence.
    rewrite (move_servo_real_eq n a smooth1 self Hc Hn).
    rewrite (move_servo_real_eq m b smooth2 self Hc Hm).
    destruct (fails n a smooth1 self) eqn:Fn,
             (fails m b smooth2 self) eqn:Fm; cbn [snd].
    + by rewrite !move_servo_real_eq, Fn, Fm by done.
    + rewrite (move_servo_real_eq m b smooth2 self Hc Hm), Fm. cbn [snd].
      rewrite (move_servo_real_eq n a smooth1 _ Hcm Hn).
      by rewrite (write_other_axis m n b self Hne'), Fn.
    + rewrite (move_servo_real_eq n a smooth1 self Hc Hn), Fn. cbn [snd].
      rewrite (move_servo_real_eq m b smooth2 _ Hcn Hm).
      by rewrite (write_other_axis n m a self Hne), Fm.
    + rewrite (move_servo_real_eq m b smooth2 _ Hcn Hm).
      rewrite (write_other_axis n m a self Hne), Fm. cbn [snd].
      rewrite (move_servo_real_eq n a smooth1 _ Hcm Hn).
      rewrite (write_other_axis m n b self Hne'), Fn. cbn [snd].
      by apply write_commute.
  - rewrite (move_servo_state_other m b smooth2 self) by auto.
    by rewrite (move_servo_state_other m b smooth2 _) by auto.
  - rewrite (move_servo_state_other n a smooth1 self) by auto.
    by rewrite (move_servo_state_other n a smooth1 _) by auto.
  - rewrite (move_servo_state_other n a smooth1 self) by auto.
    rewrite (move_servo_state_other m b smooth2 self) by auto.
    by rewrite (move_servo_state_other n a smooth1 self) by auto.
Qed.

(** *** Homing *)

Lemma move_servo_real_known n a smooth self :
  cls self = Real -> known n -> positions_present self ->
  within_limits self -> Qabs a <= inject_Z (2 ^ 1010) ->
  go n a smooth self = (Ok true, snd (write n a self)).
Proof.
  intros Hc Hk Hp Hw Ha. rewrite move_servo_real_eq by done.
  by rewrite within_limits_no_failure.
Qed.

(** What every write keeps, [move_servo] and [home_all_servos] keep. *)
Lemma move_servo_keeps (P : ServoController -> Prop) n a smooth :
  (forall m b, preserves P (write m b)) -> preserves P (go n a smooth).
Proof.
  intros Hw self HP.
  destruct (move_servo_state GPIO_AVAILABLE n a smooth self) as [H|H];
    rewrite H; [done|by apply Hw].
Qed.

Lemma home_all_servos_keeps (P : ServoController -> Prop) :
  (forall m b, preserves P (write m b)) ->
  preserves P (home_all_servos GPIO_AVAILABLE).
Proof.
  intros Hw. unfold home_all_servos.
  apply preserves_try_except; [|intros; apply preserves_ret].
  generalize true. induction home_positions as [|[n a] l IH]; intros b.
  - apply preserves_ret.
  - apply preserves_bind; [by apply move_servo_keeps|intros b'].
    apply IH.
Qed.

(** [home_all_servos] never raises. *)
Lemma home_all_servos_never_raises self :
  exists b, fst (home_all_servos GPIO_AVAILABLE self) = Ok b.
Proof.
  unfold home_all_servos, try_except.
  destruct (home_all_servos_loop GPIO_AVAILABLE home_positions true self)
    as [[b|e] s']; simpl; eauto.
Qed.

(** Without hardware the real controller stays as it is through
    [move_servo] and [home_all_servos]. *)
Lemma write_idle_fixed (s0 : ServoController) n a :
  cls s0 = Real -> initialized s0 = false \/ GPIO_AVAILABLE = false ->
  preserves (fun s => s = s0) (write n a).
Proof.
  intros Hc Hoff s ->. rewrite move_to_real_idle; [done|done|].
  destruct Hoff; auto.
Qed.

Lemma home_all_servos_idle self :
  cls self = Real -> initialized self = false \/ GPIO_AVAILABLE = false ->
  snd (home_all_servos GPIO_AVAILABLE self) = self.
Proof.
  intros Hc Hoff.
  apply (home_all_servos_keeps (fun s => s = self)); [|done].
  intros m b. by apply write_idle_fixed.
Qed.

Lemma write_keeps_pwm n m a self :
  is_Some (servo_pwm self !! m) ->
  is_Some (servo_pwm (snd (write n a self)) !! m).
Proof.
  intros Hm.
  destruct (move_to_cases GPIO_AVAILABLE n a self)
    as [H|[[_ H]|(lo & hi & _ & _ & _ & _ & _ & H)]]; rewrite H; simpl;
    try done.
  destruct (decide (n = m)) as [->|Hne].
  - rewrite lookup_insert_eq. eauto.
  - by rewrite lookup_insert_ne.
Qed.

(** On the real controller with a stored position for every axis, each
    within its range, homing returns [True] and is four writes in a row. *)
Lemma home_all_servos_real self :
  cls self = Real -> positions_present self -> within_limits self ->
  home_all_servos GPIO_AVAILABLE self =
    (Ok true,
     snd (write "camera_tilt" 90
       (snd (write "camera_pan" 90
         (snd (write "dish_elevation" 45
           (snd (write "dish_azimuth" 90 self)))))))).
Proof.
  intros Hc Hp Hw.
  assert (K1 : known "dish_azimuth") by (apply known_cases; auto).
  assert (K2 : known "dish_elevation") by (apply known_cases; auto).
  assert (K3 : known "camera_pan") by (apply known_cases; auto).
  assert (K4 : known "camera_tilt") by (apply known_cases; auto).
  assert (M90 : Qabs 90 <= inject_Z (2 ^ 1010))
    by (apply in_range_magnitude; lra).
  assert (M45 : Qabs 45 <= inject_Z (2 ^ 1010))
    by (apply in_range_magnitude; lra).
  assert (Hstep : forall n a s,
    cls s = Real /\ positions_present s /\ within_limits s ->
    cls (snd (write n a s)) = Real /\
    positions_present (snd (write n a s)) /\
    within_limits (snd (write n a s))).
  { intros n a s (H1 & H2 & H3). split; [|split].
    - by rewrite (proj1 (write_keeps_flags n a s)).
    - by apply write_keeps_positions_present.
    - by apply move_to_real_within_limits. }
  assert (H0 : cls self = Real /\ positions_present self /\
               within_limits self) by done.
  pose proof (Hstep "dish_azimuth"%string 90 _ H0) as H1.
  pose proof (Hstep "dish_elevation"%string 45 _ H1) as H2.
  pose proof (Hstep "camera_pan"%string 90 _ H2) as H3.
  unfold home_all_servos, try_except, home_positions, home_all_servos_loop.
  unfold bind at 1. rewrite move_servo_real_known by done.
  unfold bind at 1. rewrite move_servo_real_known by (done || apply H1).
  unfold bind at 1. rewrite move_servo_real_known by (done || apply H2).
  unfold bind at 1. rewrite move_servo_real_known by (done || apply H3).
  done.
Qed.

(** X8: on the controller that drives hardware, with the stored positions
    within their ranges, [home_all_servos] returns [True] and leaves every
    axis at its home angle: 90, 45, 90 and 90. *)
Theorem home_all_servos_reaches_home self :
  operational GPIO_AVAILABLE self -> positions_present self ->
  within_limits self ->
  fst (home_all_servos GPIO_AVAILABLE self) = Ok true /\
  forall n a,
    (n, a) ∈ home_positions ->
    current_positions (snd (home_all_servos GPIO_AVAILABLE self)) !! n
      = Some a.
Proof.
  intros Hop Hp Hlim.
  rewrite home_all_servos_real by (done || apply Hop). split; [done|].
  cbn [snd].
  rewrite (move_to_real_active GPIO_AVAILABLE "dish_azimuth" 90 self 0 180);
    [|apply Hop|apply Hop|apply Hop|done|apply Hop; apply known_cases; auto].
  set (s1 := moved "dish_azimuth" _ self).
  assert (O1 : operational GPIO_AVAILABLE s1) by by apply moved_operational.
  cbn [snd].
  rewrite (move_to_real_active GPIO_AVAILABLE "dish_elevation" 45 s1 0 90);
    [|apply O1|apply O1|apply O1|done|apply O1; apply known_cases; auto].
  set (s2 := moved "dish_elevation" _ s1).
  assert (O2 : operational GPIO_AVAILABLE s2) by by apply moved_operational.
  cbn [snd].
  rewrite (move_to_real_active GPIO_AVAILABLE "camera_pan" 90 s2 0 180);
    [|apply O2|apply O2|apply O2|done|apply O2; apply known_cases; auto].
  set (s3 := moved "camera_pan" _ s2).
  assert (O3 : operational GPIO_AVAILABLE s3) by by apply moved_operational.
  cbn [snd].
  rewrite (move_to_real_active GPIO_AVAILABLE "camera_tilt" 90 s3 30 150);
    [|apply O3|apply O3|apply O3|done|apply O3; apply known_cases; auto].
  cbn [snd]. subst s1 s2 s3.
  intros n a Hn. unfold home_positions in Hn.
  repeat (apply elem_of_cons in Hn as [Hn|Hn];
          [injection Hn as -> ->; simpl;
           repeat (rewrite lookup_insert_ne by done);
           by rewrite lookup_insert_eq|]).
  inversion Hn.
Qed.

(** What every write keeps, the camera move, the dish move and
    [track_objects] keep; and [track_objects] never raises. *)
Lemma track_objects_keeps (P : ServoController -> Prop) detections :
  (forall m b, preserves P (write m b)) ->
  preserves P (track_objects GPIO_AVAILABLE detections).
Proof.
  intros Hw.
  destruct detections as [|first rest]; [apply preserves_ret|].
  unfold track_objects.
  apply preserves_try_except; [|intros; apply preserves_ret].
  apply preserves_bind.
  { unfold get_coordinates.
    destruct (coordinates _); [apply preserves_ret|apply preserves_raise]. }
  intros [x y].
  apply preserves_bind.
  { unfold move_camera_to_coordinates.
    apply preserves_try_except; [|intros; apply preserves_ret].
    apply preserves_bind; [by apply move_servo_keeps|intros b1].
    apply preserves_bind; [by apply move_servo_keeps|intros b2].
    destruct (b1 && b2); apply preserves_ret. }
  intros _. destruct (Py.lt 0.8 _); [|apply preserves_ret].
  apply preserves_bind; [|intros; apply preserves_ret].
  unfold move_dish_to_coordinates.
  apply preserves_try_except; [|intros; apply preserves_ret].
  apply preserves_bind; [by apply move_servo_keeps|intros b1].
  apply preserves_bind; [by apply move_servo_keeps|intros b2].
  destruct (b1 && b2); apply preserves_ret.
Qed.

Lemma track_objects_returns detections self :
  fst (track_objects GPIO_AVAILABLE detections self) = Ok tt.
Proof.
  destruct detections as [|first rest]; [done|].
  unfold track_objects, try_except.
  match goal with |- context [let (_, _) := ?m self in _] =>
    by destruct (m self) as [[[]|e] s'] end.
Qed.

(** X9: without hardware the real controller runs [track_objects] and
    [home_all_servos] to the end without moving an axis: neither raises and
    the state is as it was; and [home_all_servos] returns [True] when the
    stored positions are within their ranges. *)
Theorem motions_without_hardware self :
  cls self = Real -> positions_present self ->
  initialized self = false \/ GPIO_AVAILABLE = false ->
  (forall detections,
     track_objects GPIO_AVAILABLE detections self = (Ok tt, self)) /\
  snd (home_all_servos GPIO_AVAILABLE self) = self /\
  (within_limits self ->
   home_all_servos GPIO_AVAILABLE self = (Ok true, self)).
Proof.
  intros Hc Hp Hoff.
  assert (Hw : forall n a, write n a self = (Ok tt, self)).
  { intros. apply move_to_real_idle; [done|]. destruct Hoff; auto. }
  split; [|split].
  - intros detections.
    pose proof (track_objects_returns detections self) as Hr.
    pose proof (track_objects_keeps (fun s => s = self) detections
                  (fun m b => write_idle_fixed self m b Hc Hoff)
                  self eq_refl) as Hs.
    destruct (track_objects GPIO_AVAILABLE detections self) as [r s'].
    simpl in Hr, Hs. by subst.
  - by apply home_all_servos_idle.
  - intros Hlim. rewrite home_all_servos_real by done. by rewrite !Hw.
Qed.

(** *** The dish azimuth and a detection without a centre *)

(** [a % 360] of an int is the remainder of the integers. *)
Lemma mod_360_int (k : Z) : mod_ (inject_Z k) 360 == inject_Z (k mod 360).
Proof.
  unfold mod_.
  assert (E : Qfloor (inject_Z k / 360) = (k / 360)%Z).
  { unfold Qfloor, Qdiv, Qmult, Qinv, inject_Z. simpl.
    by rewrite Z.mul_1_r. }
  rewrite E, (Z.mod_eq k 360) by done.
  unfold Z.sub. rewrite inject_Z_plus, inject_Z_opp, inject_Z_mult.
  assert (E360 : inject_Z 360 == 360) by reflexivity.
  rewrite E360. ring.
Qed.

(** The dish azimuth after the dish move is the one that the move of the
    azimuth axis left: the move of the elevation does not touch it. *)
Lemma move_dish_azimuth_stored azimuth elevation self :
  operational GPIO_AVAILABLE self -> positions_present self ->
  within_limits self ->
  current_positions
    (snd (move_dish_to_coordinates GPIO_AVAILABLE azimuth elevation self))
    !! "dish_azimuth"%string
  = Some (Py.max 0 (Py.min 180 (mod_ azimuth 360 * 180 / 360))).
Proof.
  intros Hop Hp Hlim. unfold move_dish_to_coordinates, try_except.
  unfold bind at 1.
  rewrite (move_servo_operational GPIO_AVAILABLE "dish_azimuth" _ true self
             0 180); [|done|done|done|].
  2: { intros _. apply within_limits_steps_defined; try done.
       - apply known_cases. auto.
       - destruct (mod_360_range azimuth) as [H0 H1].
         assert (E : mod_ azimuth 360 * 180 / 360
                     == mod_ azimuth 360 * (1 # 2)).
         { unfold Qdiv. assert (E : / 360 == 1 # 360) by reflexivity.
           rewrite E. ring. }
         rewrite E. apply in_range_magnitude; lra. }
  set (s1 := moved "dish_azimuth" _ self).
  assert (Hc1 : cls s1 = Real) by apply Hop.
  assert (K2 : known "dish_elevation") by (apply known_cases; auto).
  unfold bind at 1.
  rewrite (move_servo_real_eq "dish_elevation" elevation true s1 Hc1 K2).
  assert (E : forall b s2,
    current_positions s2 !! "dish_azimuth"%string
      = current_positions s1 !! "dish_azimuth"%string ->
    current_positions
      (snd (let (r, s') := (if b && true then ret true else ret false) s2 in
            match r with
            | Ok a => (Ok a, s')
            | Raise e => ret false s'
            end)) !! "dish_azimuth"%string
      = current_positions s1 !! "dish_azimuth"%string).
  { intros b s2 H. by destruct b. }
  destruct (fails "dish_elevation" elevation true s1).
  - simpl. subst s1. simpl. by rewrite lookup_insert_eq.
  - simpl. rewrite write_other_axis by done.
    subst s1. simpl. by rewrite lookup_insert_eq.
Qed.

(** X10: on the controller that drives hardware, with the stored positions
    within their ranges, the dish azimuth stored by
    [move_dish_to_coordinates] for an azimuth that is an int is half the
    azimuth modulo 360: it is at least 0 and below 180, so the upper end of
    the range is never reached, and the azimuth 360 degrees larger stores an
    equal angle. *)
Theorem move_dish_wraps_azimuth (k : Z) elevation self :
  operational GPIO_AVAILABLE self -> positions_present self ->
  within_limits self ->
  exists v v',
    current_positions
      (snd (move_dish_to_coordinates GPIO_AVAILABLE (inject_Z k) elevation
              self))
      !! "dish_azimuth"%string = Some v /\
    current_positions
      (snd (move_dish_to_coordinates GPIO_AVAILABLE (inject_Z (k + 360))
              elevation self))
      !! "dish_azimuth"%string = Some v' /\
    v == inject_Z (k mod 360) * (1 # 2) /\ 0 <= v /\ v < 180 /\ v' == v.
Proof.
  intros Hop Hp Hlim. rewrite !move_dish_azimuth_stored by done.
  eexists _, _. split; [done|]. split; [done|].
  rewrite !dish_servo_azimuth, !mod_360_int.
  assert (E : ((k + 360) mod 360 = k mod 360)%Z).
  { replace (k + 360)%Z with (k + 1 * 360)%Z by lia.
    by rewrite Z.mod_add. }
  rewrite E.
  pose proof (Z.mod_pos_bound k 360 ltac:(lia)) as [H0 H1].
  rewrite Zle_Qle in H0. rewrite Zlt_Qlt in H1.
  change (inject_Z 0) with 0 in H0. change (inject_Z 360) with 360 in H1.
  repeat split; try reflexivity; lra.
Qed.

(** A winner without the key ['coordinates'] stops [track_objects]
    before any move: the [KeyError] is caught, nothing is raised and the
    state is as it was. *)
Lemma track_objects_without_coordinates detections w self :
  first_max detections w -> coordinates w = None ->
  track_objects GPIO_AVAILABLE detections self = (Ok tt, self).
Proof.
  intros Hw Hxy. destruct detections as [|first rest].
  { destruct Hw as (pre & post & Heq & _). by destruct pre. }
  unfold track_objects, try_except.
  rewrite (max_by_confidence first rest w Hw).
  unfold get_coordinates. by rewrite Hxy.
Qed.

(** *** Initialisation and shutdown *)

Variable GPIO_setmode_raises : bool.
Variable GPIO_setup_raises : Z -> bool.
Variable pwm_stop_raises : string -> bool.
Variable GPIO_cleanup_raises : bool.

Local Abbreviation init :=
  (initialize GPIO_AVAILABLE GPIO_setmode_raises GPIO_setup_raises).
Local Abbreviation stop :=
  (shutdown GPIO_AVAILABLE pwm_stop_raises GPIO_cleanup_raises).

(** One round of the loop of [initialize] on a controller that is not
    initialised: the channel is registered with duty cycle 0, nothing
    moves. *)
Lemma initialize_round servo_name pin self :
  cls self = Real -> initialized self = false ->
  GPIO_setup_raises pin = false ->
  is_Some (current_positions self !! servo_name) ->
  ((if GPIO_setup_raises pin then raise (ExternalError "GPIO") else ret tt) ;;;
   modify (set_servo_pwm servo_name 0) ;;;
   do positions <- gets current_positions;
   do angle <- getitem positions servo_name;
   write servo_name angle) self
  = (Ok tt, set_servo_pwm servo_name 0 self).
Proof.
  intros Hc Hi Hs [v Hv]. rewrite Hs.
  unfold bind at 1. unfold ret at 1.
  unfold bind at 1. unfold modify at 1.
  unfold bind at 1. unfold gets at 1.
  unfold getitem. simpl. rewrite Hv.
  unfold bind at 1. unfold ret at 1.
  by rewrite move_to_real_idle by auto.
Qed.

(** X11: [initialize] of a real controller that is not initialised, with
    GPIO at hand and no GPIO call raising, returns [True], marks the
    controller initialised, starts a PWM channel at duty cycle 0 for each of
    the four axes and leaves the stored positions as they were: the
    controller then drives hardware. *)
Theorem initialize_makes_operational self :
  cls self = Real -> initialized self = false -> positions_present self ->
  GPIO_AVAILABLE = true -> GPIO_setmode_raises = false ->
  (forall pin, GPIO_setup_raises pin = false) ->
  fst (initialize GPIO_AVAILABLE GPIO_setmode_raises GPIO_setup_raises self)
    = Ok true /\
  operational GPIO_AVAILABLE
    (snd (initialize GPIO_AVAILABLE GPIO_setmode_raises GPIO_setup_raises
            self)) /\
  current_positions
    (snd (initialize GPIO_AVAILABLE GPIO_setmode_raises GPIO_setup_raises
            self))
    = current_positions self /\
  forall n, known n ->
    servo_pwm
      (snd (initialize GPIO_AVAILABLE GPIO_setmode_raises GPIO_setup_raises
              self)) !! n = Some 0.
Proof.
  intros Hc Hi Hp Hg Hsm Hsu.
  assert (K1 : known "dish_azimuth") by (apply known_cases; auto).
  assert (K2 : known "dish_elevation") by (apply known_cases; auto).
  assert (K3 : known "camera_pan") by (apply known_cases; auto).
  assert (K4 : known "camera_tilt") by (apply known_cases; auto).
  assert (E : init self =
    (Ok true,
     set_initialized true
       (set_servo_pwm "camera_tilt" 0
          (set_servo_pwm "camera_pan" 0
             (set_servo_pwm "dish_elevation" 0
                (set_servo_pwm "dish_azimuth" 0 self)))))).
  { unfold initialize. unfold bind at 1, gets at 1. rewrite Hc.
    replace (negb GPIO_AVAILABLE) with false by (by rewrite Hg).
    rewrite Hsm. unfold try_except.
    unfold bind at 1. unfold ret at 1.
    unfold bind at 1. unfold servo_pins_items, for_each.
    unfold bind at 1. rewrite initialize_round by auto.
    unfold bind at 1. rewrite initialize_round by auto.
    unfold bind at 1. rewrite initialize_round by auto.
    unfold bind at 1. rewrite initialize_round by auto.
    done. }
  rewrite E. simpl. split; [done|]. split; [|split; [done|]].
  - repeat split; try done. intros n Hn. simpl.
    apply known_cases in Hn.
    destruct Hn as [ -> | [ -> | [ -> | -> ] ] ];
      repeat (rewrite lookup_insert_ne by done);
      rewrite lookup_insert_eq; eauto.
  - intros n Hn. apply known_cases in Hn.
    destruct Hn as [ -> | [ -> | [ -> | -> ] ] ];
      repeat (rewrite lookup_insert_ne by done);
      by rewrite lookup_insert_eq.
Qed.

(** A controller that is not initialised stays so, with its positions,
    through a round of the loop of [initialize], whether the round raises or
    not. *)
Lemma initialize_round_keeps (P : gmap string Q) (item : string * Z) :
  preserves
    (fun s => cls s = Real /\ initialized s = false /\
              current_positions s = P)
    (let '(servo_name, pin) := item in
     (if GPIO_setup_raises pin then raise (ExternalError "GPIO") else ret tt)
     ;;;
     modify (set_servo_pwm servo_name 0) ;;;
     do positions <- gets current_positions;
     do angle <- getitem positions servo_name;
     write servo_name angle).
Proof.
  destruct item as [servo_name pin].
  apply preserves_bind.
  { destruct (GPIO_setup_raises pin);
      [apply preserves_raise|apply preserves_ret]. }
  intros _. apply preserves_bind; [by intros s0 (? & ? & ?)|].
  intros _. apply preserves_bind; [apply preserves_gets|].
  intros positions. apply preserves_bind.
  { unfold getitem. destruct (positions !! servo_name);
      [apply preserves_ret|apply preserves_raise]. }
  intros angle s0 (Hc & Hi & HP).
  by rewrite move_to_real_idle by auto.
Qed.

(** X12: when a GPIO call raises during [initialize] of a real controller
    that is not initialised, [initialize] returns [False] without raising,
    the controller stays not initialised and the stored positions are as
    they were. *)
Theorem initialize_failure self :
  cls self = Real -> initialized self = false -> GPIO_AVAILABLE = true ->
  GPIO_setmode_raises = true \/
    (exists item, item ∈ servo_pins_items /\
                  GPIO_setup_raises (snd item) = true) ->
  fst (initialize GPIO_AVAILABLE GPIO_setmode_raises GPIO_setup_raises self)
    = Ok false /\
  initialized
    (snd (initialize GPIO_AVAILABLE GPIO_setmode_raises GPIO_setup_raises
            self)) = false /\
  current_positions
    (snd (initialize GPIO_AVAILABLE GPIO_setmode_raises GPIO_setup_raises
            self))
    = current_positions self.
Proof.
  intros Hc Hi Hg Hraise.
  cut (exists s', init self = (Ok false, s') /\ initialized s' = false /\
                  current_positions s' = current_positions self).
  { intros (s' & E & H1 & H2). by rewrite E. }
  unfold initialize. unfold bind at 1, gets at 1. rewrite Hc.
  replace (negb GPIO_AVAILABLE) with false by (by rewrite Hg).
  unfold try_except. unfold bind at 1.
  destruct GPIO_setmode_raises; [by exists self|].
  unfold ret at 1. unfold bind at 1.
  destruct Hraise as [Hraise|(item & Hin & Hit)]; [done|].
  match goal with
  | |- context [for_each servo_pins_items ?body self] =>
      set (round := body);
      pose proof (for_each_raises servo_pins_items round item Hin) as Hr;
      pose proof (preserves_for_each
                    (fun s => cls s = Real /\ initialized s = false /\
                              current_positions s = current_positions self)
                    servo_pins_items round
                    (initialize_round_keeps (current_positions self))
                    self) as Hk;
      destruct (for_each servo_pins_items round self) as [[[]|e] s'] eqn:E
  end.
  - assert (Hfail : forall s0, is_failure (fst (round item s0))).
    { intros s0. subst round. destruct item as [nm pin]. simpl in *.
      unfold bind. by rewrite Hit. }
    specialize (Hr Hfail self). by rewrite E in Hr.
  - simpl in *. destruct Hk as (_ & Hi' & HP'); [done|]. by exists s'.
Qed.

(** The real controller with a stored position for every axis: the state
    after [shutdown], by whether a hardware call raises. *)
Lemma shutdown_real self :
  cls self = Real -> positions_present self ->
  stop self =
    (Ok tt,
     let homed := snd (home_all_servos GPIO_AVAILABLE self) in
     if existsb (fun channel : string * Q => pwm_stop_raises (fst channel))
          (map_to_list (servo_pwm homed))
        || GPIO_AVAILABLE && GPIO_cleanup_raises
     then homed else set_initialized false homed).
Proof.
  intros Hc Hp. unfold shutdown. unfold bind at 1, gets at 1. rewrite Hc.
  unfold try_except. unfold bind at 1.
  destruct (home_all_servos_never_raises self) as [b Hb].
  destruct (home_all_servos GPIO_AVAILABLE self) as [r homed].
  simpl in Hb. subst r. cbn [snd fst].
  unfold bind at 1. unfold gets at 1.
  unfold bind at 1.
  assert (Hloop : forall l,
    for_each l (fun channel : string * Q =>
        if pwm_stop_raises (fst channel)
        then raise (ExternalError "pwm.stop") else ret tt) homed
    = if existsb (fun channel : string * Q => pwm_stop_raises (fst channel)) l
      then (Raise (ExternalError "pwm.stop"), homed) else (Ok tt, homed)).
  { induction l as [|x l IH]; simpl; [done|]. unfold bind.
    destruct (pwm_stop_raises (fst x)); simpl; [done|]. exact IH. }
  rewrite Hloop.
  destruct (existsb _ _); simpl; [done|].
  unfold bind at 1.
  assert (Hg : GPIO_AVAILABLE = true \/ GPIO_AVAILABLE = false)
    by (destruct GPIO_AVAILABLE; auto).
  destruct Hg as [Hg|Hg]; rewrite Hg; simpl; [|done].
  by destruct GPIO_cleanup_raises.
Qed.

Lemma home_all_servos_state self :
  cls self = Real -> positions_present self ->
  let homed := snd (home_all_servos GPIO_AVAILABLE self) in
  cls homed = Real /\ initialized homed = initialized self /\
  positions_present homed /\
  forall n, is_Some (servo_pwm self !! n) -> is_Some (servo_pwm homed !! n).
Proof.
  intros Hc Hp.
  apply (home_all_servos_keeps
           (fun s => cls s = Real /\ initialized s = initialized self /\
                     positions_present s /\
                     forall n, is_Some (servo_pwm self !! n) ->
                               is_Some (servo_pwm s !! n)));
    [|done].
  intros m b s (H1 & H2 & H3 & H4). repeat split.
  - by rewrite (proj1 (write_keeps_flags m b s)).
  - by rewrite (proj2 (write_keeps_flags m b s)).
  - by apply write_keeps_positions_present.
  - intros n Hn. by apply write_keeps_pwm, H4.
Qed.

Lemma no_stop_raises (l : list (string * Q)) :
  (forall n, pwm_stop_raises n = false) -> GPIO_cleanup_raises = false ->
  existsb (fun channel : string * Q => pwm_stop_raises (fst channel)) l
    || GPIO_AVAILABLE && GPIO_cleanup_raises = false.
Proof.
  intros H Hclean. rewrite Hclean, andb_false_r, orb_false_r.
  induction l as [|x l IH]; simpl; [done|]. by rewrite H.
Qed.

(** X13: [shutdown] of the controller that drives hardware, with the
    stored positions within their ranges, when no hardware call raises,
    returns without raising, leaves every axis at its home angle and marks
    the controller as not initialised. *)
Theorem shutdown_homes_and_disables self :
  operational GPIO_AVAILABLE self -> positions_present self ->
  within_limits self ->
  (forall n, pwm_stop_raises n = false) -> GPIO_cleanup_raises = false ->
  fst (shutdown GPIO_AVAILABLE pwm_stop_raises GPIO_cleanup_raises self)
    = Ok tt /\
  initialized
    (snd (shutdown GPIO_AVAILABLE pwm_stop_raises GPIO_cleanup_raises self))
    = false /\
  forall n a,
    (n, a) ∈ home_positions ->
    current_positions
      (snd (shutdown GPIO_AVAILABLE pwm_stop_raises GPIO_cleanup_raises self))
      !! n = Some a.
Proof.
  intros Hop Hp Hlim Hstop Hclean.
  rewrite shutdown_real by (done || apply Hop). cbn [fst snd].
  rewrite no_stop_raises by done.
  split; [done|]. split; [done|]. cbn [current_positions set_initialized].
  rewrite home_all_servos_real by (done || apply Hop). cbn [snd].
  rewrite (move_to_real_active GPIO_AVAILABLE "dish_azimuth" 90 self 0 180);
    [|apply Hop|apply Hop|apply Hop|done|apply Hop; apply known_cases; auto].
  set (s1 := moved "dish_azimuth" _ self).
  assert (O1 : operational GPIO_AVAILABLE s1) by by apply moved_operational.
  cbn [snd].
  rewrite (move_to_real_active GPIO_AVAILABLE "dish_elevation" 45 s1 0 90);
    [|apply O1|apply O1|apply O1|done|apply O1; apply known_cases; auto].
  set (s2 := moved "dish_elevation" _ s1).
  assert (O2 : operational GPIO_AVAILABLE s2) by by apply moved_operational.
  cbn [snd].
  rewrite (move_to_real_active GPIO_AVAILABLE "camera_pan" 90 s2 0 180);
    [|apply O2|apply O2|apply O2|done|apply O2; apply known_cases; auto].
  set (s3 := moved "camera_pan" _ s2).
  assert (O3 : operational GPIO_AVAILABLE s3) by by apply moved_operational.
  cbn [snd].
  rewrite (move_to_real_active GPIO_AVAILABLE "camera_tilt" 90 s3 30 150);
    [|apply O3|apply O3|apply O3|done|apply O3; apply known_cases; auto].
  cbn [snd]. subst s1 s2 s3.
  intros n a Hn. unfold home_positions in Hn.
  repeat (apply elem_of_cons in Hn as [Hn|Hn];
          [injection Hn as -> ->; simpl;
           repeat (rewrite lookup_insert_ne by done);
           by rewrite lookup_insert_eq|]).
  inversion Hn.
Qed.

(** X14: [shutdown] is idempotent when no hardware call raises: a second
    [shutdown] returns without raising and leaves the state that the first
    one left, for both classes. *)
Theorem shutdown_idempotent self :
  positions_present self ->
  (forall n, pwm_stop_raises n = false) -> GPIO_cleanup_raises = false ->
  shutdown GPIO_AVAILABLE pwm_stop_raises GPIO_cleanup_raises
    (snd (shutdown GPIO_AVAILABLE pwm_stop_raises GPIO_cleanup_raises self))
  = (Ok tt,
     snd (shutdown GPIO_AVAILABLE pwm_stop_raises GPIO_cleanup_raises self)).
Proof.
  intros Hp Hstop Hclean. destruct (cls self) eqn:Hc.
  - destruct (home_all_servos_state self Hc Hp) as (Hc1 & _ & Hp1 & _).
    rewrite (shutdown_real self) by done. cbn [snd].
    rewrite no_stop_raises by done.
    set (homed := snd (home_all_servos GPIO_AVAILABLE self)) in *.
    rewrite shutdown_real by done. cbn zeta.
    assert (Hidle : snd (home_all_servos GPIO_AVAILABLE
                           (set_initialized false homed))
                    = set_initialized false homed)
      by (apply home_all_servos_idle; [done|by left]).
    rewrite Hidle.
    by rewrite no_stop_raises by done.
  - unfold shutdown, bind, gets, modify. rewrite Hc. simpl. by rewrite Hc.
Qed.

(** X15: when [pwm.stop()] raises for a started channel, or
    [GPIO.cleanup()] raises, [shutdown] of the real controller still
    returns without raising, but the line that clears the flag is not
    reached: the controller stays marked as it was, initialised if it
    was. *)
Theorem shutdown_failure_keeps_flag self :
  cls self = Real -> positions_present self ->
  (exists n, is_Some (servo_pwm self !! n) /\ pwm_stop_raises n = true) \/
    (GPIO_AVAILABLE = true /\ GPIO_cleanup_raises = true) ->
  fst (shutdown GPIO_AVAILABLE pwm_stop_raises GPIO_cleanup_raises self)
    = Ok tt /\
  initialized
    (snd (shutdown GPIO_AVAILABLE pwm_stop_raises GPIO_cleanup_raises self))
    = initialized self.
Proof.
  intros Hc Hp Hraise.
  destruct (home_all_servos_state self Hc Hp) as (_ & Hi & _ & Hpwm).
  rewrite shutdown_real by done. cbn [fst snd]. split; [done|].
  set (homed := snd (home_all_servos GPIO_AVAILABLE self)) in *.
  assert (E : existsb (fun channel : string * Q => pwm_stop_raises (fst channel))
                (map_to_list (servo_pwm homed))
              || GPIO_AVAILABLE && GPIO_cleanup_raises = true).
  { destruct Hraise as [(n & Hn & Hr)|[Hg Hr]].
    - apply orb_true_intro. left. apply existsb_exists.
      destruct (Hpwm n Hn) as [v Hv]. exists (n, v). split; [|done].
      apply list_elem_of_In. by apply elem_of_map_to_list.
    - rewrite Hg, Hr. apply orb_true_r. }
  by rewrite E.
Qed.

End PositionerFurther.

(** ** The detector: segmentation, threshold and brightness *)

Section DetectorFurther.

Import Detector.

Variable BackgroundModel : Type.
Variable preprocess_frame : Image -> result Image.
Variable foreground_contours :
  BackgroundModel -> Image -> result (list Contour) * BackgroundModel.
Variable classification_policy :
  DetectedObject -> Image -> result (Kind * Q).

Local Abbreviation pass :=
  (analyze_frame preprocess_frame foreground_contours classification_policy).

Lemma collect_objects_filter contours objects :
  collect_objects contours objects
    = objects ++ map object_of_contour (List.filter area_in_range contours).
Proof.
  revert objects. induction contours as [|c contours IH]; intros objects;
    simpl; [by rewrite app_nil_r|].
  unfold area_in_range at 1.
  destruct (Py.lt 50 (contourArea c) && Py.lt (contourArea c) 5000); simpl.
  - unfold object_of_contour at 1.
    destruct (boundingRect c) as [[[x y] w] h].
    by rewrite IH, <- app_assoc.
  - apply IH.
Qed.

(** X16: the loop of [detect_moving_objects] is a filter: the objects are
    those of the contours of area strictly between 50 and 5000, in the
    order of the contours, so there are no more objects than contours. *)
Theorem detect_moving_objects_is_filter contours :
  collect_objects contours []
    = map object_of_contour (List.filter area_in_range contours) /\
  (length (collect_objects contours []) <= length contours)%nat.
Proof.
  rewrite collect_objects_filter. simpl. split; [done|].
  rewrite length_map. apply List.filter_length_le.
Qed.

(** X17: the centre of a detected object lies within its bounding box,
    when the width and the height of the box are not negative. *)
Theorem detected_centre_in_bbox contours obj :
  obj ∈ collect_objects contours [] ->
  let '(x, y, w, h) := bbox obj in
  (0 <= w)%Z -> (0 <= h)%Z ->
  (x <= fst (center obj) <= x + w)%Z /\ (y <= snd (center obj) <= y + h)%Z.
Proof.
  rewrite collect_objects_filter. simpl. intros H.
  apply list_elem_of_fmap in H as (c & -> & _).
  unfold object_of_contour. destruct (boundingRect c) as [[[x y] w] h].
  simpl. intros Hw Hh.
  pose proof (Z.div_pos w 2 Hw ltac:(lia)).
  pose proof (Z.div_pos h 2 Hh ltac:(lia)).
  pose proof (Z.div_le_upper_bound w 2 w ltac:(lia) ltac:(lia)).
  pose proof (Z.div_le_upper_bound h 2 h ltac:(lia) ltac:(lia)).
  lia.
Qed.

(** Where the classifications of a pass come from: each passed the
    threshold, and is what the policy returned for an object or the fallback
    of [classify_object]. *)
Lemma classify_all_origin objects frame detections
    (self : AsteroidDetector BackgroundModel) :
  exists l,
    classify_all classification_policy objects frame detections self
      = (Ok l, self) /\
    forall c, c ∈ l ->
      c ∈ detections \/
      (detection_threshold self < confidence c /\
       ((exists obj roi, obj ∈ objects /\
           classification_policy obj roi = Ok (type_ c, confidence c)) \/
        (exists obj roi e, obj ∈ objects /\
           classification_policy obj roi = Raise e /\
           type_ c = non_meteor /\ confidence c = 0.0))).
Proof.
  revert detections.
  induction objects as [|obj objects IH]; intros detections; simpl.
  - eexists. split; [reflexivity|]. auto.
  - assert (Hc : exists c,
        classify_object classification_policy obj frame self = (Ok c, self) /\
        ((exists roi,
            classification_policy obj roi = Ok (type_ c, confidence c)) \/
         (exists roi e,
            classification_policy obj roi = Raise e /\
            type_ c = non_meteor /\ confidence c = 0.0))).
    { unfold classify_object, try_except, bind, lift, ret.
      destruct (bbox obj) as [[[x y] w] h].
      destruct (classification_policy obj (region frame x y w h))
        as [[kind conf]|e] eqn:E;
        eexists; (split; [reflexivity|]); simpl; eauto 10. }
    destruct Hc as (c & Hc & Horigin).
    unfold bind at 1. rewrite Hc. unfold bind at 1, gets at 1.
    destruct (Py.lt (detection_threshold self) (confidence c)) eqn:E.
    + apply lt_true in E.
      destruct (IH (detections ++ [c])) as (l & Hl & H).
      exists l. split; [done|]. intros c' Hc'.
      apply H in Hc'
        as [Hc'|(Ht & [(o & roi & Ho & Hp)|(o & roi & e & Ho & Hf)])].
      * apply elem_of_app in Hc' as [Hc'|Hc']; [auto|].
        apply list_elem_of_singleton in Hc'. subst c'. right.
        split; [done|].
        destruct Horigin as [[roi Hp]|(roi & e & Hf)].
        -- left. exists obj, roi. split; [left|done].
        -- right. exists obj, roi, e. split; [left|done].
      * right. split; [done|]. left. exists o, roi. split; [by right|done].
      * right. split; [done|]. right. exists o, roi, e.
        split; [by right|done].
    + destruct (IH detections) as (l & Hl & H).
      exists l. split; [done|]. intros c' Hc'.
      apply H in Hc'
        as [Hc'|(Ht & [(o & roi & Ho & Hp)|(o & roi & e & Ho & Hf)])];
        [auto| |].
      * right. split; [done|]. left. exists o, roi. split; [by right|done].
      * right. split; [done|]. right. exists o, roi, e.
        split; [by right|done].
Qed.

(** A pass, when the model is loaded and the preprocessing returns: the
    segmentation, then the loop over the objects. *)
Lemma analyze_frame_loaded frame processed self :
  model_loaded self = true -> preprocess_frame frame = Ok processed ->
  exists objects bg',
    pass frame self =
      classify_all classification_policy objects processed []
        (set_background bg' self).
Proof.
  intros Hm Hp. unfold analyze_frame. unfold bind at 1, gets at 1.
  rewrite Hm. simpl. unfold try_except, bind at 1, lift at 1. rewrite Hp.
  unfold bind at 1. rewrite detect_moving_objects_eq.
  eexists _, _.
  match goal with
  | |- context [classify_all classification_policy ?objs processed [] ?s] =>
      destruct (classify_all_origin objs processed [] s) as (l & Hl & _);
      by rewrite Hl
  end.
Qed.

Lemma analyze_frame_idle frame self :
  model_loaded self = false \/ is_failure (preprocess_frame frame) ->
  pass frame self = (Ok [], self).
Proof.
  intros H. unfold analyze_frame. unfold bind at 1, gets at 1.
  destruct (model_loaded self); simpl; [|done].
  destruct H as [H|H]; [done|].
  unfold try_except, bind at 1, lift at 1.
  by destruct (preprocess_frame frame).
Qed.

(** X18: every classification that [analyze_frame] returns has a confidence
    strictly above the threshold of the detector. *)
Theorem analyze_frame_above_threshold frame self :
  exists l,
    fst (analyze_frame preprocess_frame foreground_contours
           classification_policy frame self) = Ok l /\
    forall c, c ∈ l -> detection_threshold self < confidence c.
Proof.
  destruct (model_loaded self) eqn:Hm.
  2: { rewrite analyze_frame_idle by auto. exists []. split; [done|].
       intros c H. inversion H. }
  destruct (preprocess_frame frame) as [processed|e] eqn:Hp.
  2: { rewrite analyze_frame_idle by (right; by rewrite Hp).
       exists []. split; [done|]. intros c H. inversion H. }
  destruct (analyze_frame_loaded frame processed self Hm Hp)
    as (objs & bg' & E).
  rewrite E.
  destruct (classify_all_origin objs processed [] (set_background bg' self))
    as (l & Hl & H).
  rewrite Hl. exists l. split; [done|]. intros c Hc.
  apply H in Hc as [Hc|[Ht _]]; [inversion Hc|exact Ht].
Qed.

(** X19: [analyze_frame] changes nothing of the detector but the background
    model: the loaded flag and the threshold are as they were; and when the
    model is not loaded or the preprocessing raises, it returns the empty
    list and the detector is as it was, background model included. *)
Theorem analyze_frame_state frame self :
  let after :=
    snd (analyze_frame preprocess_frame foreground_contours
           classification_policy frame self) in
  model_loaded after = model_loaded self /\
  detection_threshold after = detection_threshold self /\
  (model_loaded self = false \/ is_failure (preprocess_frame frame) ->
   analyze_frame preprocess_frame foreground_contours classification_policy
     frame self = (Ok [], self)).
Proof.
  cbv zeta. split; [|split]; [| |apply analyze_frame_idle].
  - destruct (model_loaded self) eqn:Hm;
      [|by rewrite analyze_frame_idle by auto].
    destruct (preprocess_frame frame) as [processed|e] eqn:Hp;
      [|by rewrite analyze_frame_idle by (right; by rewrite Hp)].
    destruct (analyze_frame_loaded frame processed self Hm Hp)
      as (objs & bg' & E).
    rewrite E.
    destruct (classify_all_origin objs processed [] (set_background bg' self))
      as (l & Hl & _).
    by rewrite Hl.
  - destruct (model_loaded self) eqn:Hm;
      [|by rewrite analyze_frame_idle by auto].
    destruct (preprocess_frame frame) as [processed|e] eqn:Hp;
      [|by rewrite analyze_frame_idle by (right; by rewrite Hp)].
    destruct (analyze_frame_loaded frame processed self Hm Hp)
      as (objs & bg' & E).
    rewrite E.
    destruct (classify_all_origin objs processed [] (set_background bg' self))
      as (l & Hl & _).
    by rewrite Hl.
Qed.

End DetectorFurther.

(** The threshold after a series of calls of [set_detection_threshold]: the
    last value of the series within [0,1], or the threshold before the
    series when there is none. *)
Lemma set_thresholds_last B (ts : list Q) (self : Detector.AsteroidDetector B) :
  Detector.detection_threshold (Detector.set_thresholds ts self)
    = default (Detector.detection_threshold self)
        (last (List.filter Detector.valid_threshold ts)).
Proof.
  revert self. induction ts as [|t ts IH]; intros self; [done|].
  unfold Detector.set_thresholds in *. simpl. rewrite IH.
  unfold Detector.set_detection_threshold, Detector.valid_threshold at 2.
  destruct (Py.le 0.0 t && Py.le t 1.0) eqn:E; simpl; [|done].
  rewrite last_cons.
  by destruct (last (List.filter Detector.valid_threshold ts)).
Qed.

(** X20: whatever values [set_detection_threshold] is called with, one
    after the other from construction on, the threshold of the detector is
    within [0,1]: it is the last of the values within [0,1], or 0.5 when
    there is none. *)
Theorem threshold_always_valid B (fresh : B) (ts : list Q) :
  let d := Detector.set_thresholds ts (Detector.AsteroidDetector_init fresh) in
  Detector.detection_threshold d
    = default 0.5 (last (List.filter Detector.valid_threshold ts)) /\
  0 <= Detector.detection_threshold d /\ Detector.detection_threshold d <= 1.
Proof.
  cbv zeta. rewrite set_thresholds_last. split; [done|].
  destruct (last (List.filter Detector.valid_threshold ts)) as [t|] eqn:E;
    simpl.
  - apply last_Some_elem_of, list_elem_of_In, List.filter_In in E as [_ E].
    unfold Detector.valid_threshold in E.
    apply andb_true_iff in E as [E1 E2].
    apply le_true in E1. apply le_true in E2.
    assert (H0 : 0.0 == 0) by reflexivity.
    assert (H1 : 1.0 == 1) by reflexivity.
    split; lra.
  - split; [vm_compute; discriminate|vm_compute; discriminate].
Qed.

(** The five verdicts of the heuristic. *)
Lemma heuristic_classification_cases obj roi :
  Detector.heuristic_classification obj roi = (Detector.meteor, 0.8) \/
  Detector.heuristic_classification obj roi = (Detector.asteroid, 0.7) \/
  Detector.heuristic_classification obj roi = (Detector.meteor, 0.6) \/
  Detector.heuristic_classification obj roi = (Detector.meteor, 0.5) \/
  Detector.heuristic_classification obj roi = (Detector.non_meteor, 0.9).
Proof.
  unfold Detector.heuristic_classification.
  repeat match goal with
         | |- context [if ?b then _ else _] => destruct b
         end; auto 10.
Qed.

(** X21: with the heuristic of the class as policy, a classification that
    [analyze_frame] returns is a non-meteor at 0.9, a meteor at 0.8, 0.6 or
    0.5, or an asteroid at 0.7: a meteor or an asteroid never has a
    confidence above 0.8. *)
Theorem default_policy_confidences B
    (preprocess_frame : Detector.Image -> result Detector.Image)
    (foreground_contours :
       B -> Detector.Image -> result (list Detector.Contour) * B)
    frame (self : Detector.AsteroidDetector B) :
  exists l,
    fst (Detector.analyze_frame preprocess_frame foreground_contours
           Detector.default_policy frame self) = Ok l /\
    forall c, c ∈ l ->
      ((Detector.type_ c, Detector.confidence c) = (Detector.non_meteor, 0.9) \/
       (Detector.type_ c, Detector.confidence c) = (Detector.meteor, 0.8) \/
       (Detector.type_ c, Detector.confidence c) = (Detector.meteor, 0.6) \/
       (Detector.type_ c, Detector.confidence c) = (Detector.meteor, 0.5) \/
       (Detector.type_ c, Detector.confidence c) = (Detector.asteroid, 0.7)) /\
      (Detector.type_ c <> Detector.non_meteor ->
       Detector.confidence c <= 0.8).
Proof.
  destruct (Detector.model_loaded self) eqn:Hm.
  2: { rewrite analyze_frame_idle by auto. exists []. split; [done|].
       intros c H. inversion H. }
  destruct (preprocess_frame frame) as [processed|e] eqn:Hp.
  2: { rewrite analyze_frame_idle by (right; by rewrite Hp).
       exists []. split; [done|]. intros c H. inversion H. }
  destruct (analyze_frame_loaded B preprocess_frame foreground_contours
              Detector.default_policy frame processed self Hm Hp)
    as (objs & bg' & E).
  rewrite E.
  destruct (classify_all_origin B Detector.default_policy objs processed []
              (Detector.set_background bg' self)) as (l & Hl & H).
  rewrite Hl. exists l. split; [done|]. intros c Hc.
  apply H in Hc
    as [Hc|[Ht [(obj & roi & _ & Hpol)|(obj & roi & e & _ & Hpol & _)]]];
    [inversion Hc| |discriminate Hpol].
  unfold Detector.default_policy in Hpol. injection Hpol as Hpol.
  destruct (heuristic_classification_cases obj roi)
    as [Hh|[Hh|[Hh|[Hh|Hh]]]];
    rewrite Hh in Hpol; injection Hpol as Hty Hcf;
    rewrite <- Hty, <- Hcf; (split; [auto 10|]);
    intros Hne; try done; vm_compute; discriminate.
Qed.

Lemma byte_sum_bounds (l : list Z) :
  Forall (fun v => (0 <= v <= 255)%Z) l ->
  (0 <= foldr Z.add 0 l <= 255 * Z.of_nat (length l))%Z.
Proof.
  induction 1 as [|v l Hv _ IH]; simpl; lia.
Qed.

Lemma byte_image_concat width (roi : Detector.Image) :
  Detector.byte_image width roi ->
  Forall (fun v => (0 <= v <= 255)%Z) (concat roi) /\
  length (concat roi) = (length roi * width)%nat.
Proof.
  induction 1 as [|row roi [Hlen Hrow] _ [IH1 IH2]]; simpl; [done|].
  split; [by apply Forall_app|]. rewrite length_app. lia.
Qed.

(** The mean brightness of a rectangular array of pixel values between 0
    and 255 is between 0 and 255; it is 0 for an empty array. *)
Lemma brightness_of_byte_image width (roi : Detector.Image) :
  Detector.byte_image width roi ->
  0 <= Detector.brightness_of roi /\ Detector.brightness_of roi <= 255 /\
  (Detector.size roi = 0%Z -> Detector.brightness_of roi = 0).
Proof.
  intros Hb. unfold Detector.brightness_of.
  destruct (0 <? Detector.size roi)%Z eqn:E.
  2: { split; [lra|]. split; [lra|]. done. }
  apply Z.ltb_lt in E.
  split; [|split; [|lia]].
  - unfold Detector.mean.
    destruct (byte_image_concat width roi Hb) as [Hall _].
    apply byte_sum_bounds in Hall as [Hsum _].
    apply Qle_shift_div_l.
    + by rewrite <- (Zlt_Qlt 0).
    + rewrite Qmult_0_l. by rewrite <- (Zle_Qle 0).
  - unfold Detector.mean.
    destruct (byte_image_concat width roi Hb) as [Hall Hlen].
    apply byte_sum_bounds in Hall as [_ Hsum].
    assert (Hsize : Detector.size roi = Z.of_nat (length (concat roi))).
    { rewrite Hlen. unfold Detector.size in *.
      destruct Hb as [|row roi [Hrow _] _]; [done|].
      simpl length. rewrite Hrow. lia. }
    apply Qle_shift_div_r.
    + by rewrite <- (Zlt_Qlt 0).
    + rewrite Hsize. change 255 with (inject_Z 255).
      rewrite <- inject_Z_mult. by rewrite <- Zle_Qle.
Qed.

(** A region of a rectangular array of byte values is one. *)
Lemma region_byte_image width (frame : Detector.Image) (x y w h : Z) :
  Detector.byte_image width frame ->
  Detector.byte_image
    (Nat.min (Z.to_nat (x + w) - Z.to_nat x) (width - Z.to_nat x))
    (Detector.region frame x y w h).
Proof.
  intros Hb. unfold Detector.byte_image, Detector.region.
  apply Forall_fmap. unfold Detector.slice at 2.
  apply Forall_take, Forall_drop.
  eapply Forall_impl; [exact Hb|]. intros row [Hlen Hrow]. simpl.
  unfold Detector.slice. split.
  - rewrite length_take, length_drop. lia.
  - by apply Forall_take, Forall_drop.
Qed.

(** X22: in a frame of pixel values between 0 and 255, the mean brightness
    that [classify_object] and the heuristic compute for the region of a
    bounding box is between 0 and 255, and it is 0 when the region is
    empty. *)
Theorem region_brightness_range width (frame : Detector.Image) (x y w h : Z) :
  Detector.byte_image width frame ->
  let roi := Detector.region frame x y w h in
  0 <= Detector.brightness_of roi /\ Detector.brightness_of roi <= 255 /\
  (Detector.size roi = 0%Z -> Detector.brightness_of roi = 0).
Proof.
  intros Hb roi.
  exact (brightness_of_byte_image _ roi
           (region_byte_image width frame x y w h Hb)).
Qed.

(** ** The control loop and the logger *)

Section LoopFurther.

Import Main.

Variable BackgroundModel : Type.
Variable GPIO_AVAILABLE : bool.
Variable preprocess_frame : Detector.Image -> result Detector.Image.
Variable foreground_contours :
  BackgroundModel -> Detector.Image ->
  result (list Detector.Contour) * BackgroundModel.
Variable classification_policy :
  Detector.DetectedObject -> Detector.Image -> result (Detector.Kind * Q).
Variable now : string.
Variable csv_write_raises : Logger.CsvRow -> bool.
Variable image_file : Logger.DetectionData -> string.
Variable cv2_imwrite :
  Detector.Image -> Logger.DetectionData -> result bool.
Variable id_of : Detector.Image -> Z.

Local Abbreviation system := (RadropiSystem BackgroundModel).
Local Abbreviation log := (Logger.log_detection now csv_write_raises).
Local Abbreviation save := (Logger.save_frame image_file cv2_imwrite).
Local Abbreviation process :=
  (process_detection now csv_write_raises image_file cv2_imwrite id_of).
Local Abbreviation round :=
  (detection_round GPIO_AVAILABLE preprocess_frame foreground_contours
     classification_policy now csv_write_raises image_file cv2_imwrite id_of).
Local Abbreviation rounds :=
  (detection_rounds GPIO_AVAILABLE preprocess_frame foreground_contours
     classification_policy now csv_write_raises image_file cv2_imwrite id_of).

(** *** The logger *)

(** [log_detection] never raises; when the write goes through it appends
    the row and counts the detection, when it raises it changes nothing. *)
Lemma log_detection_eq data (self : Logger.DataLogger) :
  log data self =
    (Ok tt,
     if csv_write_raises (Logger.csv_row_of now data) then self
     else
       let counted :=
         Logger.count_detection
           (Logger.append_row (Logger.csv_row_of now data) self) in
       let detection_type := default "unknown"%string (Logger.dd_type data) in
       match Logger.detection_types self !! detection_type with
       | Some n =>
           Logger.set_detection_types
             (<[detection_type := (n + 1)%Z]> (Logger.detection_types self))
             counted
       | None => counted
       end).
Proof.
  unfold Logger.log_detection, try_except.
  unfold bind at 1.
  destruct (csv_write_raises (Logger.csv_row_of now data)); [done|].
  unfold modify at 1. unfold bind at 1. unfold modify at 1.
  unfold bind at 1. unfold gets at 1. simpl.
  by destruct (Logger.detection_types self !! _).
Qed.

(** [save_frame] never raises and changes nothing but the count of saved
    images, by one when the image is written. *)
Lemma save_frame_eq frame data (self : Logger.DataLogger) :
  exists r,
    save frame data self =
      (Ok r,
       match cv2_imwrite frame data with
       | Ok true => Logger.count_image self
       | _ => self
       end).
Proof.
  unfold Logger.save_frame, try_except, bind, modify, ret.
  destruct (cv2_imwrite frame data) as [[|]|e]; eauto.
Qed.

(** *** One detection *)

(** Whether [process_detection] asks for the frame to be saved. *)
Local Abbreviation wants_frame detection :=
  (Py.lt 0.8 (Detector.confidence detection) &&
   bool_decide (kind_name (Detector.type_ detection)
                  ∈ ["meteor"%string; "asteroid"%string])).

(** [process_detection] never raises; it counts the detection, hands it to
    the logger and, for a confident meteor or asteroid, has the frame
    saved; it touches nothing else of the system. *)
Lemma process_detection_eq detection frame (self : system) :
  exists logger',
    process detection frame self =
      (Ok tt,
       set_data_logger logger'
         (match detection_count self
                  !! kind_name (Detector.type_ detection) with
          | Some n =>
              set_detection_count
                (<[kind_name (Detector.type_ detection) := (n + 1)%Z]>
                   (detection_count self)) self
          | None => self
          end)) /\
    let logged :=
      snd (log (detection_data_of now id_of detection
                  (Gps.get_location (gps self)) frame)
             (data_logger self)) in
    logger' =
      if wants_frame detection then
        match cv2_imwrite frame
                (detection_data_of now id_of detection
                   (Gps.get_location (gps self)) frame) with
        | Ok true => Logger.count_image logged
        | _ => logged
        end
      else logged.
Proof.
  unfold process_detection, try_except.
  unfold bind at 1. unfold gets at 1.
  set (ty := kind_name (Detector.type_ detection)).
  set (bumped :=
         match detection_count self !! ty with
         | Some n =>
             set_detection_count (<[ty := (n + 1)%Z]> (detection_count self))
               self
         | None => self
         end).
  assert (E1 : forall k : unit -> M system unit,
    bind (match detection_count self !! ty with
          | Some n =>
              modify (set_detection_count
                        (<[ty := (n + 1)%Z]> (detection_count self)))
          | None => ret tt
          end) k self = k tt bumped).
  { intros k. subst bumped. unfold bind, modify, ret.
    by destruct (detection_count self !! ty). }
  rewrite E1.
  assert (Hg : gps bumped = gps self)
    by (subst bumped; by destruct (detection_count self !! ty)).
  assert (Hl : data_logger bumped = data_logger self)
    by (subst bumped; by destruct (detection_count self !! ty)).
  unfold bind at 1. unfold gets at 1. rewrite Hg.
  set (data := detection_data_of now id_of detection
                 (Gps.get_location (gps self)) frame).
  unfold bind at 1. unfold on_data_logger at 1. rewrite Hl.
  rewrite log_detection_eq. cbn [fst snd].
  set (logged := if csv_write_raises _ then _ else _).
  destruct (Py.lt 0.8 (Detector.confidence detection) && bool_decide _).
  - unfold bind at 1. unfold on_data_logger at 1. cbn beta.
    change (data_logger (set_data_logger logged bumped)) with logged.
    destruct (save_frame_eq frame data logged) as [r Hs]. rewrite Hs.
    eexists. split; [reflexivity|]. done.
  - eexists. split; [reflexivity|]. done.
Qed.

(** X23: [process_detection] never raises; it adds one to the counter of
    the type of the detection and leaves the other counters, the positioner,
    the detector and the position source as they were. *)
Theorem process_detection_counts detection frame (self : system) n :
  detection_count self !! kind_name (Detector.type_ detection) = Some n ->
  let after :=
    snd (process_detection now csv_write_raises image_file cv2_imwrite id_of
           detection frame self) in
  fst (process_detection now csv_write_raises image_file cv2_imwrite id_of
         detection frame self) = Ok tt /\
  detection_count after
    = <[kind_name (Detector.type_ detection) := (n + 1)%Z]>
        (detection_count self) /\
  servos after = servos self /\ detector after = detector self /\
  gps after = gps self /\ running after = running self.
Proof.
  intros Hn after. subst after.
  destruct (process_detection_eq detection frame self) as (logger' & E & _).
  rewrite E, Hn. by repeat split.
Qed.

(** X24: the row that [process_detection] has written to the detection log
    carries the type, the confidence and the centre of the detection and
    the position of the moment, but nothing of the geometry that the
    detector found: the bounding box, the area, the aspect ratio and the
    brightness are 0 and the image path is empty.  When the write goes
    through, the log grows by this row and the total by one; when it
    raises, the log and the total are as they were. *)
Theorem logged_row_drops_geometry detection frame (self : system) :
  let row :=
    Logger.csv_row_of now
      (detection_data_of now id_of detection (Gps.get_location (gps self))
         frame) in
  let after :=
    data_logger
      (snd (process_detection now csv_write_raises image_file cv2_imwrite
              id_of detection frame self)) in
  (Logger.row_type row = kind_name (Detector.type_ detection) /\
   Logger.row_confidence row = Detector.confidence detection /\
   (Logger.row_coordinates_x row, Logger.row_coordinates_y row)
     = Detector.coordinates detection /\
   Logger.row_gps_lat row = Gps.latitude (Gps.get_location (gps self)) /\
   Logger.row_gps_lon row = Gps.longitude (Gps.get_location (gps self))) /\
  (Logger.row_bbox_x row = 0%Z /\ Logger.row_bbox_y row = 0%Z /\
   Logger.row_bbox_w row = 0%Z /\ Logger.row_bbox_h row = 0%Z /\
   Logger.row_area row = 0 /\ Logger.row_aspect_ratio row = 0 /\
   Logger.row_brightness row = 0 /\ Logger.row_image_path row = ""%string) /\
  (csv_write_raises row = false ->
   Logger.detection_log after
     = Logger.detection_log (data_logger self) ++ [row] /\
   Logger.total_detections after
     = (Logger.total_detections (data_logger self) + 1)%Z) /\
  (csv_write_raises row = true ->
   Logger.detection_log after = Logger.detection_log (data_logger self) /\
   Logger.total_detections after
     = Logger.total_detections (data_logger self)).
Proof.
  intros row after. subst after.
  destruct (process_detection_eq detection frame self) as (logger' & E & Hl).
  rewrite E. cbn [snd]. cbv zeta in Hl. rewrite log_detection_eq in Hl.
  cbn [snd] in Hl. fold row in Hl.
  split; [|split; [by repeat split|split]].
  - repeat split; try done. subst row.
    cbn [Logger.csv_row_of Logger.row_coordinates_x Logger.row_coordinates_y
         detection_data_of Logger.dd_coordinates default from_option].
    by destruct (Detector.coordinates detection).
  - intros Hw. rewrite Hw in Hl. cbn [data_logger set_data_logger].
    subst logger'.
    destruct (Py.lt 0.8 _ && _);
      [destruct (cv2_imwrite frame _) as [[|]|e]|];
      by destruct (Logger.detection_types (data_logger self) !! _).
  - intros Hw. rewrite Hw in Hl. cbn [data_logger set_data_logger].
    subst logger'.
    by destruct (Py.lt 0.8 _ && _);
      [destruct (cv2_imwrite frame _) as [[|]|e]|].
Qed.

(** *** A round of the loop *)

Lemma track_objects_never_raises detections (sv : Servo.ServoController) :
  fst (Servo.track_objects GPIO_AVAILABLE detections sv) = Ok tt.
Proof.
  destruct detections as [|first rest]; [done|].
  unfold Servo.track_objects, try_except.
  match goal with |- context [let (_, _) := ?m sv in _] =>
    by destruct (m sv) as [[[]|e] s'] end.
Qed.

Lemma process_all_never_raises frame (l : list Detector.Classification)
    (self : system) :
  fst (for_each l (fun detection => process detection frame) self) = Ok tt.
Proof.
  revert self. induction l as [|d l IH]; intros self; simpl; [done|].
  unfold bind. destruct (process_detection_eq d frame self) as (lg & E & _).
  rewrite E. apply IH.
Qed.

(** A round with a frame: the pass of the detector, the processing of each
    detection, then the tracking when there is a detection. *)
Lemma detection_round_eq frame (self : system) :
  exists l det',
    Detector.analyze_frame preprocess_frame foreground_contours
      classification_policy frame (detector self) = (Ok l, det') /\
    round (Some frame) self =
      (Ok tt,
       let processed :=
         snd (for_each l (fun detection => process detection frame)
                (set_detector det' self)) in
       match l with
       | [] => processed
       | _ :: _ =>
           set_servos
             (snd (Servo.track_objects GPIO_AVAILABLE (map detection_of l)
                     (servos processed)))
             processed
       end).
Proof.
  destruct (analyze_frame_total BackgroundModel preprocess_frame
              foreground_contours classification_policy frame (detector self))
    as [l Hl].
  destruct (Detector.analyze_frame preprocess_frame foreground_contours
              classification_policy frame (detector self)) as [r det'] eqn:E.
  simpl in Hl. subst r. exists l, det'. split; [done|].
  unfold detection_round, try_except.
  unfold bind at 1. unfold on_detector at 1. rewrite E.
  unfold bind at 1.
  pose proof (process_all_never_raises frame l (set_detector det' self)) as Hp.
  destruct (for_each l _ (set_detector det' self)) as [r processed] eqn:Ep.
  simpl in Hp. subst r. cbn [snd].
  destruct l as [|d l]; [done|].
  unfold on_servos.
  pose proof (track_objects_never_raises (map detection_of (d :: l))
                (servos processed)) as Ht.
  destruct (Servo.track_objects _ _ (servos processed)) as [r sv'].
  simpl in Ht. by subst r.
Qed.

(** What a property of one component needs to be kept by the loop. *)
Lemma process_keeps_servos (sv : Servo.ServoController) detection frame :
  preserves (fun s : system => servos s = sv) (process detection frame).
Proof.
  intros s Hs.
  destruct (process_detection_eq detection frame s) as (lg & E & _).
  rewrite E. cbn [snd]. by destruct (detection_count s !! _).
Qed.

Lemma process_all_keeps (P : system -> Prop) frame
    (l : list Detector.Classification) :
  (forall d, d ∈ l -> preserves P (process d frame)) ->
  preserves P (for_each l (fun detection => process detection frame)).
Proof.
  induction l as [|d l IH]; intros H; simpl; [apply preserves_ret|].
  apply preserves_bind; [apply H; left|intros _].
  apply IH. intros d' Hd'. apply H. by right.
Qed.

(** The logger after a round is the logger after the processing of the
    detections of the round, and the positioner before the tracking is the
    positioner before the round. *)
Lemma detection_round_parts frame (self : system) :
  exists l det',
    Detector.analyze_frame preprocess_frame foreground_contours
      classification_policy frame (detector self) = (Ok l, det') /\
    data_logger (snd (round (Some frame) self))
      = data_logger
          (snd (for_each l (fun detection => process detection frame)
                  (set_detector det' self))) /\
    servos (snd (round (Some frame) self))
      = match l with
        | [] => servos self
        | _ :: _ =>
            snd (Servo.track_objects GPIO_AVAILABLE (map detection_of l)
                   (servos self))
        end.
Proof.
  destruct (detection_round_eq frame self) as (l & det' & Ha & E).
  exists l, det'. split; [done|]. rewrite E. cbv zeta. cbn [snd].
  assert (Hs : servos (snd (for_each l (fun d => process d frame)
                              (set_detector det' self))) = servos self).
  { by apply (process_all_keeps (fun s => servos s = servos self));
      [intros d _; apply process_keeps_servos|]. }
  destruct l as [|d l]; [done|]. cbn [data_logger servos set_servos].
  by rewrite Hs.
Qed.

Lemma detection_round_none (self : system) : round None self = (Ok tt, self).
Proof. done. Qed.

(** *** The tallies of the logger *)

Lemma process_keeps_tallies detection frame :
  preserves (fun s : system => Logger.tallies_add_up (data_logger s))
    (process detection frame).
Proof.
  intros s (m & a & n & Hm & Ha & Hn & Ht).
  destruct (process_detection_eq detection frame s) as (lg & E & Hl).
  rewrite E. cbn [snd data_logger set_data_logger].
  cbv zeta in Hl. rewrite log_detection_eq in Hl. cbn [snd] in Hl.
  assert (Hlogged : Logger.tallies_add_up
    (if csv_write_raises
          (Logger.csv_row_of now
             (detection_data_of now id_of detection
                (Gps.get_location (gps s)) frame))
     then data_logger s
     else
       let counted :=
         Logger.count_detection
           (Logger.append_row
              (Logger.csv_row_of now
                 (detection_data_of now id_of detection
                    (Gps.get_location (gps s)) frame)) (data_logger s)) in
       let detection_type :=
         default "unknown"%string
           (Logger.dd_type
              (detection_data_of now id_of detection
                 (Gps.get_location (gps s)) frame)) in
       match Logger.detection_types (data_logger s) !! detection_type with
       | Some k =>
           Logger.set_detection_types
             (<[detection_type := (k + 1)%Z]>
                (Logger.detection_types (data_logger s))) counted
       | None => counted
       end)).
  { destruct (csv_write_raises _); [by exists m, a, n|].
    cbv zeta. cbn [detection_data_of Logger.dd_type default from_option id].
    destruct (Detector.type_ detection); cbn [kind_name].
    - rewrite Hn. exists m, a, (n + 1)%Z. simpl.
      rewrite lookup_insert_eq, !lookup_insert_ne by done.
      repeat split; try done. lia.
    - rewrite Hm. exists (m + 1)%Z, a, n. simpl.
      rewrite lookup_insert_eq, !lookup_insert_ne by done.
      repeat split; try done. lia.
    - rewrite Ha. exists m, (a + 1)%Z, n. simpl.
      rewrite lookup_insert_eq, !lookup_insert_ne by done.
      repeat split; try done. lia. }
  subst lg.
  destruct (Py.lt 0.8 _ && _); [|done].
  by destruct (cv2_imwrite frame _) as [[|]|e].
Qed.

Lemma detection_round_keeps_tallies captured :
  preserves (fun s : system => Logger.tallies_add_up (data_logger s))
    (round captured).
Proof.
  intros s Hs. destruct captured as [frame|]; [|done].
  destruct (detection_round_parts frame s) as (l & det' & _ & E & _).
  rewrite E.
  by apply (process_all_keeps
              (fun s => Logger.tallies_add_up (data_logger s)));
    [intros d _; apply process_keeps_tallies|].
Qed.

(** X25: the logger keeps its books through the loop: when the tallies of
    meteors, asteroids and non-meteors add up to the total of the logger
    before a series of rounds, they add up after it, whatever the camera,
    the detector, the writes to the log and the writes of images do. *)
Theorem detection_rounds_keep_tallies captures (self : system) :
  Logger.tallies_add_up (data_logger self) ->
  Logger.tallies_add_up
    (data_logger
       (snd (detection_rounds GPIO_AVAILABLE preprocess_frame
               foreground_contours classification_policy now
               csv_write_raises image_file cv2_imwrite id_of captures self))).
Proof.
  revert self.
  induction captures as [|captured captures IH]; intros self H; [done|].
  unfold detection_rounds. simpl. unfold bind.
  pose proof (detection_round_keeps_tallies captured self H) as Hr.
  destruct (round captured self) as [[[]|e] s'] eqn:E; cbn [snd] in Hr.
  - by apply IH.
  - done.
Qed.

(** *** The images *)

Lemma process_no_frame detection frame (self : system) :
  wants_frame detection = false ->
  Logger.images_saved (data_logger (snd (process detection frame self)))
    = Logger.images_saved (data_logger self).
Proof.
  intros Hw.
  destruct (process_detection_eq detection frame self) as (lg & E & Hl).
  rewrite E. cbn [snd data_logger set_data_logger].
  cbv zeta in Hl. rewrite log_detection_eq, Hw in Hl. cbn [snd] in Hl.
  subst lg. destruct (csv_write_raises _); [done|]. cbv zeta.
  by destruct (Logger.detection_types (data_logger self) !! _).
Qed.

(** A round in which no detection is a meteor or an asteroid above 0.8
    saves no image. *)
Lemma detection_round_no_frame frame (self : system) l :
  fst (Detector.analyze_frame preprocess_frame foreground_contours
         classification_policy frame (detector self)) = Ok l ->
  (forall d, d ∈ l -> wants_frame d = false) ->
  Logger.images_saved (data_logger (snd (round (Some frame) self)))
    = Logger.images_saved (data_logger self).
Proof.
  intros Hl Hno.
  destruct (detection_round_parts frame self) as (l' & det' & Ha & E & _).
  rewrite Ha in Hl. injection Hl as ->. rewrite E.
  apply (process_all_keeps
           (fun s => Logger.images_saved (data_logger s)
                     = Logger.images_saved (data_logger self)));
    [|done].
  intros d Hd s Hs. by rewrite process_no_frame by auto.
Qed.

(** *** The tracking of a round *)

Lemma clamp_above (lo hi a : Q) :
  lo < hi -> hi <= a -> Py.max lo (Py.min hi a) = hi.
Proof.
  intros Hl Hh. unfold Py.max, Py.min.
  apply lt_false in Hh. rewrite Hh. apply lt_true in Hl. by rewrite Hl.
Qed.

Lemma mod_360_whole_turns (k : Z) : mod_ (inject_Z k * 180 * 2) 360 == 0.
Proof.
  unfold mod_.
  assert (E : inject_Z k * 180 * 2 / 360 == inject_Z k).
  { unfold Qdiv. change (/ 360) with (1 # 360). ring. }
  rewrite E, Qfloor_Z. ring.
Qed.

Lemma elem_of_map_inv {A B} (f : A -> B) (l : list A) (y : B) :
  y ∈ map f l -> exists x, y = f x /\ x ∈ l.
Proof.
  induction l as [|a l IH]; simpl; intros H; inversion H; subst.
  - exists a. split; [done|left].
  - destruct IH as (x & Hx & Hin); [done|]. exists x. split; [done|by right].
Qed.

(** The winner of the tracking of a round is one of the detections of the
    round, and no detection of the round has a larger confidence. *)
Lemma round_winner (d : Detector.Classification) rest :
  exists c,
    c ∈ d :: rest /\
    Servo.first_max (map detection_of (d :: rest)) (detection_of c) /\
    forall c', c' ∈ d :: rest ->
      Detector.confidence c' <= Detector.confidence c.
Proof.
  pose proof (first_max_exists (detection_of d) (map detection_of rest))
    as Hw.
  set (w := max_by Servo.get_confidence (detection_of d)
              (map detection_of rest)) in *.
  change (detection_of d :: map detection_of rest)
    with (map detection_of (d :: rest)) in Hw.
  assert (Hin : w ∈ map detection_of (d :: rest)).
  { destruct Hw as (pre & post & Heq & _). rewrite Heq.
    apply elem_of_app. right. left. }
  apply elem_of_map_inv in Hin as (c & Hc & Hin).
  exists c. rewrite <- Hc. split; [done|split; [done|]].
  intros c' Hc'.
  change (Servo.get_confidence (detection_of c')
          <= Servo.get_confidence (detection_of c)).
  rewrite <- Hc.
  destruct Hw as (pre & post & Heq & Hpre & Hpost).
  assert (Hc'' : detection_of c' ∈ pre ++ w :: post).
  { rewrite <- Heq. clear -Hc'.
    induction Hc'; simpl; [left|by right]. }
  apply elem_of_app in Hc'' as [H|H].
  - apply Qlt_le_weak. by apply Hpre.
  - inversion H; subst; [apply Qle_refl|by apply Hpost].
Qed.

(** X26: the detector gives the centre of an object in pixels, the tracking
    reads it as a fraction of the frame.  So on a positioner that drives
    hardware, with the stored positions within their ranges, a round with
    detections whose centres are at pixel 1 or beyond in both directions
    (and at most at pixel [2^1000], as in any frame) leaves the camera at
    the end of its range, pan 180 and tilt 150, wherever the objects are;
    when a detection is above 0.8 the dish is left at azimuth 0 and
    elevation 90, and when none is, the dish is not moved. *)
Theorem round_tracks_pixels_to_the_limit frame (self : system) l :
  Servo.operational GPIO_AVAILABLE (servos self) ->
  Servo.positions_present (servos self) ->
  Servo.within_limits (servos self) ->
  fst (Detector.analyze_frame preprocess_frame foreground_contours
         classification_policy frame (detector self)) = Ok l ->
  l <> [] ->
  (forall c, c ∈ l ->
     (1 <= fst (Detector.coordinates c) <= 2 ^ 1000)%Z /\
     (1 <= snd (Detector.coordinates c) <= 2 ^ 1000)%Z) ->
  let after :=
    Servo.current_positions
      (servos
         (snd (detection_round GPIO_AVAILABLE preprocess_frame
                 foreground_contours classification_policy now
                 csv_write_raises image_file cv2_imwrite id_of
                 (Some frame) self))) in
  after !! "camera_pan"%string = Some 180 /\
  after !! "camera_tilt"%string = Some 150 /\
  ((exists c, c ∈ l /\ 0.8 < Detector.confidence c) ->
   (exists v, after !! "dish_azimuth"%string = Some v /\ v == 0) /\
   after !! "dish_elevation"%string = Some 90) /\
  ((forall c, c ∈ l -> Detector.confidence c <= 0.8) ->
   after !! "dish_azimuth"%string
     = Servo.current_positions (servos self) !! "dish_azimuth"%string /\
   after !! "dish_elevation"%string
     = Servo.current_positions (servos self) !! "dish_elevation"%string).
Proof.
  intros Hop Hpos Hlim Hl Hne Hpix after. subst after.
  destruct (detection_round_parts frame self) as (l' & det' & Ha & _ & Es).
  rewrite Ha in Hl. injection Hl as ->. rewrite Es. clear Es Ha.
  destruct l as [|d rest]; [done|]. clear Hne.
  destruct (round_winner d rest) as (c & Hc & Hw & Hmax).
  destruct (Hpix c Hc) as [[Hx Hx'] [Hy Hy']].
  assert (Hmod : forall k : Z,
            (1 <= k)%Z -> (k <= 2 ^ 1000)%Z -> Py.moderate (inject_Z k)).
  { intros k H1 H2. unfold Py.moderate.
    rewrite Zle_Qle in H1, H2. rewrite Qabs_pos; [done|].
    eapply Qle_trans; [|exact H1]. by vm_compute. }
  rewrite (track_objects_operational GPIO_AVAILABLE
             (map detection_of (d :: rest)) (detection_of c)
             (inject_Z (fst (Detector.coordinates c)))
             (inject_Z (snd (Detector.coordinates c)))
             (servos self) Hop Hpos Hlim (Hmod _ Hx Hx') (Hmod _ Hy Hy')
             Hw eq_refl).
  clear Hmod Hx' Hy'.
  cbv zeta. cbn [snd].
  change (Servo.get_confidence (detection_of c))
    with (Detector.confidence c).
  rewrite Zle_Qle in Hx, Hy.
  set (x := inject_Z (fst (Detector.coordinates c))) in *.
  set (y := inject_Z (snd (Detector.coordinates c))) in *.
  change (inject_Z 1) with 1 in Hx, Hy.
  rewrite (clamp_above 0 180 (x * 180)) by lra.
  rewrite (clamp_above 30 150 (30 + y * 120)) by lra.
  assert (Hel : Py.max 0 (Py.min 90 (Py.min 90 (30 + y * 120 - 30))) = 90).
  { assert (E : Py.min 90 (30 + y * 120 - 30) = 90).
    { unfold Py.min.
      assert (F : Py.lt (30 + y * 120 - 30) 90 = false)
        by (apply lt_false; lra).
      by rewrite F. }
    by rewrite E. }
  rewrite Hel.
  destruct (Py.lt 0.8 (Detector.confidence c)) eqn:E.
  - apply lt_true in E. cbn [Servo.moved Servo.set_current_position
      Servo.set_servo_pwm Servo.current_positions].
    repeat first [rewrite lookup_insert_eq
                 |rewrite lookup_insert_ne by done].
    split; [done|split; [done|split]].
    + intros _. split; [|done]. eexists. split; [reflexivity|].
      rewrite dish_servo_azimuth. subst x. rewrite mod_360_whole_turns.
      reflexivity.
    + intros Hlow. specialize (Hlow c Hc). exfalso.
      apply (Qlt_irrefl 0.8). by eapply Qlt_le_trans.
  - apply lt_false in E. cbn [Servo.moved Servo.set_current_position
      Servo.set_servo_pwm Servo.current_positions].
    repeat first [rewrite lookup_insert_eq
                 |rewrite lookup_insert_ne by done].
    split; [done|split; [done|split]].
    + intros (c' & Hc' & Hhigh). exfalso.
      apply (Qlt_irrefl 0.8). eapply Qlt_le_trans; [exact Hhigh|].
      eapply Qle_trans; [by apply Hmax|done].
    + done.
Qed.

End LoopFurther.

(** With the heuristic of the class as policy no classification of a pass
    is a meteor or an asteroid above 0.8. *)
Lemma default_policy_no_event B
    (preprocess_frame : Detector.Image -> result Detector.Image)
    (foreground_contours :
       B -> Detector.Image -> result (list Detector.Contour) * B)
    frame (self : Detector.AsteroidDetector B) :
  exists l,
    fst (Detector.analyze_frame preprocess_frame foreground_contours
           Detector.default_policy frame self) = Ok l /\
    forall c, c ∈ l ->
      Py.lt 0.8 (Detector.confidence c) &&
      bool_decide (Main.kind_name (Detector.type_ c)
                     ∈ ["meteor"%string; "asteroid"%string]) = false.
Proof.
  destruct (Detector.model_loaded self) eqn:Hm.
  2: { rewrite analyze_frame_idle by auto. exists []. split; [done|].
       intros c H. inversion H. }
  destruct (preprocess_frame frame) as [processed|e] eqn:Hp.
  2: { rewrite analyze_frame_idle by (right; by rewrite Hp).
       exists []. split; [done|]. intros c H. inversion H. }
  destruct (analyze_frame_loaded B preprocess_frame foreground_contours
              Detector.default_policy frame processed self Hm Hp)
    as (objs & bg' & E).
  rewrite E.
  destruct (classify_all_origin B Detector.default_policy objs processed []
              (Detector.set_background bg' self)) as (l & Hl & H).
  rewrite Hl. exists l. split; [done|]. intros c Hc.
  apply H in Hc
    as [Hc|[Ht [(obj & roi & _ & Hpol)|(obj & roi & e & _ & Hpol & _)]]];
    [inversion Hc| |discriminate Hpol].
  unfold Detector.default_policy in Hpol. injection Hpol as Hpol.
  destruct (heuristic_classification_cases obj roi)
    as [Hh|[Hh|[Hh|[Hh|Hh]]]];
    rewrite Hh in Hpol; injection Hpol as Hty Hcf;
    by rewrite <- Hty, <- Hcf.
Qed.

(** X27: with the heuristic of the class as policy the loop never saves a
    frame: a frame is saved for a meteor or an asteroid above 0.8, and the
    heuristic gives those 0.8 at most.  The count of saved images after any
    series of rounds is the count before it. *)
Theorem default_policy_saves_no_frame B (GPIO_AVAILABLE : bool)
    (preprocess_frame : Detector.Image -> result Detector.Image)
    (foreground_contours :
       B -> Detector.Image -> result (list Detector.Contour) * B)
    (now : string) (csv_write_raises : Logger.CsvRow -> bool)
    (image_file : Logger.DetectionData -> string)
    (cv2_imwrite : Detector.Image -> Logger.DetectionData -> result bool)
    (id_of : Detector.Image -> Z)
    (captures : list (option Detector.Image))
    (self : Main.RadropiSystem B) :
  Logger.images_saved
    (Main.data_logger
       (snd (Main.detection_rounds GPIO_AVAILABLE preprocess_frame
               foreground_contours Detector.default_policy now
               csv_write_raises image_file cv2_imwrite id_of captures self)))
  = Logger.images_saved (Main.data_logger self).
Proof.
  unfold Main.detection_rounds.
  apply (preserves_for_each
           (fun s => Logger.images_saved (Main.data_logger s)
                     = Logger.images_saved (Main.data_logger self)));
    [|done].
  intros [frame|] s Hs; [|done].
  destruct (default_policy_no_event B preprocess_frame foreground_contours
              frame (Main.detector s)) as (l & Hl & Hno).
  by rewrite (detection_round_no_frame B GPIO_AVAILABLE preprocess_frame
                foreground_contours Detector.default_policy now
                csv_write_raises image_file cv2_imwrite id_of frame s l Hl Hno).
Qed.

(** ** The position source ([gps_module.py]) *)

Section GpsFurther.

Variable Value : Type.
Variable truthy : Value -> bool.
Variable float_of : Value -> result Q.
Variable int_of : Value -> result Z.
Variable time_time : Q.
Variable parse : string -> result (Gps.Message Value).

Local Abbreviation parse_sentence :=
  (Gps.parse_nmea_sentence Value truthy float_of int_of time_time parse).

Lemma lift_keeps {A} (P : Gps.GPSController -> Prop) (r : result A) :
  preserves P (Gps.lift r).
Proof. intros s H. exact H. Qed.

Lemma assign_keeps (P : Gps.Location -> Prop) f :
  (forall l, P l -> P (f l)) ->
  preserves (fun s => P (Gps.current_location s)) (Gps.assign f).
Proof. intros H s Hs. by apply H. Qed.

Lemma parse_sentence_keeps_gga_fields sentence (fields : option Q * Z * Z) :
  Gps.is_gga Value parse sentence = false ->
  preserves (fun s => Gps.gga_fields (Gps.current_location s) = fields)
    (parse_sentence sentence).
Proof.
  intros Hg s Hs. unfold Gps.parse_nmea_sentence, try_except.
  unfold bind at 1, Gps.lift at 1. unfold Gps.is_gga in Hg.
  destruct (parse sentence) as [[lat lon alt sats qual hdil|lat lon|hd|]|e];
    [done| | |done|done].
  - unfold Gps.update_rmc_data.
    destruct (truthy lat && truthy lon); [|done].
    unfold bind, Gps.lift, Gps.assign, modify.
    by destruct (float_of lat), (float_of lon).
  - unfold Gps.update_gsa_data. destruct (truthy hd); [|done].
    unfold bind, Gps.lift, Gps.assign, modify.
    by destruct (float_of hd).
Qed.

(** X28: the fix quality, the count of satellites and the altitude are
    written by GGA sentences only.  A receiver that has no fix and is fed
    sentences of which none parses to a GGA message never reports a fix,
    also when RMC sentences have given it coordinates. *)
Theorem no_fix_without_gga sentences (self : Gps.GPSController) :
  (forall sentence, sentence ∈ sentences ->
     Gps.is_gga Value parse sentence = false) ->
  let after :=
    snd (Gps.parse_all Value truthy float_of int_of time_time parse
           sentences self) in
  Gps.fix_quality (Gps.current_location after)
    = Gps.fix_quality (Gps.current_location self) /\
  Gps.satellites (Gps.current_location after)
    = Gps.satellites (Gps.current_location self) /\
  Gps.altitude (Gps.current_location after)
    = Gps.altitude (Gps.current_location self) /\
  ((Gps.fix_quality (Gps.current_location self) <= 0)%Z ->
   Gps.has_fix after = false).
Proof.
  intros Hno after.
  assert (H : Gps.gga_fields (Gps.current_location after)
              = Gps.gga_fields (Gps.current_location self)).
  { subst after. unfold Gps.parse_all. revert self.
    induction sentences as [|sentence sentences IH]; intros self; [done|].
    simpl. unfold bind.
    pose proof (parse_sentence_keeps_gga_fields sentence
                  (Gps.gga_fields (Gps.current_location self))
                  (Hno sentence ltac:(left)) self eq_refl) as Hs.
    destruct (parse_sentence sentence self) as [[[]|e] s'];
      cbn [snd] in Hs |- *; [|done].
    rewrite <- Hs. apply IH. intros x Hx. apply Hno. by right. }
  unfold Gps.gga_fields in H. injection H as Ha Hs Hq.
  repeat split; try done.
  intros Hfix. unfold Gps.has_fix, Gps.get_location. cbv zeta. rewrite Hq.
  apply Z.ltb_ge in Hfix. rewrite Hfix. apply andb_false_r.
Qed.

Lemma parse_sentence_keeps_timed sentence :
  preserves (fun s => Gps.timed_is_located (Gps.current_location s))
    (parse_sentence sentence).
Proof.
  intros s Hs. unfold Gps.parse_nmea_sentence, try_except.
  unfold bind at 1, Gps.lift at 1.
  destruct (parse sentence) as [[lat lon alt sats qual hdil|lat lon|hd|]|e];
    [| | |done|done].
  - unfold Gps.update_gga_data.
    destruct (truthy lat && truthy lon); [|done].
    unfold bind at 1, Gps.lift at 1.
    destruct (float_of lat) as [a|e]; [|done].
    unfold bind at 1, Gps.assign at 1, modify at 1.
    unfold bind at 1, Gps.lift at 1.
    destruct (float_of lon) as [b|e].
    2: { intros Ht. destruct (Hs Ht) as [_ Hlon]. split; [by eexists|done]. }
    unfold bind at 1, Gps.assign at 1, modify at 1.
    set (s2 := Gps.set_location (Gps.set_longitude (Some b))
                 (Gps.set_location (Gps.set_latitude (Some a)) s)).
    assert (H2 : Gps.located (Gps.current_location s2)) by (split; by eexists).
    clearbody s2. clear Hs.
    match goal with
    | |- Gps.timed_is_located (Gps.current_location (snd (let (_, _) := ?m s2 in _))) =>
        assert (Hm : preserves (fun s => Gps.located (Gps.current_location s)) m)
    end.
    { repeat first
        [ apply preserves_bind; [|intros ?]
        | apply lift_keeps
        | apply (assign_keeps Gps.located); by intros l [? ?]
        | match goal with
          | |- preserves _ (if ?b then _ else _) => destruct b
          end ]. }
    match goal with
    | |- Gps.timed_is_located (Gps.current_location (snd (let (_, _) := ?m s2 in _))) =>
        specialize (Hm s2 H2); destruct (m s2) as [[[]|e] s3];
          cbn [snd] in Hm |- *; by intros _
    end.
  - unfold Gps.update_rmc_data.
    destruct (truthy lat && truthy lon); [|done].
    unfold bind, Gps.lift, Gps.assign, modify.
    destruct (float_of lat) as [a|e]; [|done].
    destruct (float_of lon) as [b|e]; cbn [snd].
    + intros _. split; by eexists.
    + intros Ht. destruct (Hs Ht) as [_ Hlon]. split; [by eexists|done].
  - unfold Gps.update_gsa_data. destruct (truthy hd); [|done].
    unfold bind, Gps.lift, Gps.assign, modify.
    by destruct (float_of hd).
Qed.

(** X29: a position with a time has coordinates: when the stored location
    has a timestamp only if it has a latitude and a longitude, as the
    location of a new controller has, it is so after any series of
    sentences, whatever they parse to and whichever conversions raise. *)
Theorem timestamp_implies_coordinates sentences (self : Gps.GPSController) :
  (is_Some (Gps.timestamp (Gps.current_location self)) ->
   is_Some (Gps.get_coordinates self)) ->
  let after :=
    snd (Gps.parse_all Value truthy float_of int_of time_time parse
           sentences self) in
  is_Some (Gps.timestamp (Gps.current_location after)) ->
  is_Some (Gps.get_coordinates after).
Proof.
  intros H after.
  assert (Hc : forall s, Gps.located (Gps.current_location s)
                         <-> is_Some (Gps.get_coordinates s)).
  { intros s. unfold Gps.located, Gps.get_coordinates, Gps.get_location.
    cbv zeta.
    destruct (Gps.latitude (Gps.current_location s)),
      (Gps.longitude (Gps.current_location s)); split;
      first [by intros [[? ?] [? ?]] | by intros [? ?] | by eauto]. }
  intros Ht. apply Hc. revert Ht.
  change (Gps.timed_is_located (Gps.current_location after)). subst after.
  apply (preserves_for_each
           (fun s => Gps.timed_is_located (Gps.current_location s)));
    [intros sentence; apply parse_sentence_keeps_timed|].
  intros Ht. apply Hc. by apply H.
Qed.

(** X30: the update from a GGA sentence is not all or nothing.  When the
    latitude and the longitude convert and the conversion of the fix quality
    raises, nothing escapes, the new coordinates are stored, and the fix
    quality, the dilution and the timestamp are the old ones: a receiver
    that had a fix reports one at the new coordinates with the old time. *)
Theorem gga_update_is_partial sentence lat lon alt sats qual hdil a b e
    (self : Gps.GPSController) :
  parse sentence = Ok (Gps.GGA Value lat lon alt sats qual hdil) ->
  truthy lat = true -> truthy lon = true ->
  float_of lat = Ok a -> float_of lon = Ok b ->
  truthy qual = true -> int_of qual = Raise e ->
  let after :=
    snd (Gps.parse_nmea_sentence Value truthy float_of int_of time_time
           parse sentence self) in
  fst (Gps.parse_nmea_sentence Value truthy float_of int_of time_time
         parse sentence self) = Ok tt /\
  Gps.get_coordinates after = Some (a, b) /\
  Gps.fix_quality (Gps.current_location after)
    = Gps.fix_quality (Gps.current_location self) /\
  Gps.hdop (Gps.current_location after)
    = Gps.hdop (Gps.current_location self) /\
  Gps.timestamp (Gps.current_location after)
    = Gps.timestamp (Gps.current_location self) /\
  Gps.has_fix after
    = (0 <? Gps.fix_quality (Gps.current_location self))%Z.
Proof.
  intros Hp Hlat Hlon Ha Hb Hq He after. subst after.
  unfold Gps.parse_nmea_sentence, try_except, bind, Gps.lift.
  rewrite Hp. unfold Gps.update_gga_data, bind, Gps.lift, Gps.assign, modify.
  rewrite Hlat, Hlon, Hq, Ha, Hb, He. simpl andb. cbv iota.
  destruct (truthy alt); [destruct (float_of alt)|];
    (destruct (truthy sats); [destruct (int_of sats)|]);
    by repeat split.
Qed.

End GpsFurther.

(** ** Concrete runs of the further properties *)

(** *** The positioner *)

Lemma new_controller_positions :
  Servo.positions_present Servo.ServoController_init.
Proof.
  intros n Hn. apply known_cases in Hn.
  destruct Hn as [ -> | [ -> | [ -> | -> ] ] ]; eexists; vm_compute; reflexivity.
Qed.

Lemma camera_pan_known : Servo.known "camera_pan".
Proof. eexists. vm_compute. reflexivity. Qed.

Lemma real_move_servo_within_limits_witness :
  Servo.cls Servo.ready_controller = Servo.Real /\
  Servo.within_limits Servo.ready_controller /\
  Servo.within_limits
    (snd (Servo.move_servo true "camera_tilt" 200 true
            Servo.ready_controller)).
Proof.
  split; [reflexivity|]. split; [exact ready_controller_within_limits|].
  exact (real_move_servo_within_limits true "camera_tilt" 200 true
           Servo.ready_controller eq_refl ready_controller_within_limits).
Defined.

Lemma real_motions_within_limits_witness :
  Servo.cls Servo.ready_controller = Servo.Real /\
  Servo.within_limits Servo.ready_controller /\
  Servo.within_limits
    (snd (Servo.move_camera_to_coordinates true 300 (-20)
            Servo.ready_controller)) /\
  Servo.within_limits
    (snd (Servo.track_objects true
            [Servo.mkDetection (Some 0.9) (Some (320, 240))]
            Servo.ready_controller)).
Proof.
  split; [reflexivity|]. split; [exact ready_controller_within_limits|].
  destruct (real_motions_within_limits true Servo.ready_controller eq_refl
              ready_controller_within_limits) as (Hcam & _ & Htrack & _).
  split; [apply Hcam|apply Htrack].
Defined.

Lemma new_controller_within_limits :
  Servo.within_limits Servo.ServoController_init.
Proof. apply initial_positions_within_limits. Qed.

Lemma move_servo_without_hardware_witness :
  Servo.initialized Servo.ServoController_init = false /\
  Servo.within_limits Servo.ServoController_init /\
  Py.moderate 10 /\
  inject_Z (2 ^ 1024) <= Qabs (inject_Z (10 ^ 400)) /\
  Servo.move_servo true "camera_pan" 10 true Servo.ServoController_init
    = (Ok true, Servo.ServoController_init) /\
  Servo.move_servo true "camera_pan" (inject_Z (10 ^ 400)) true
    Servo.ServoController_init
    = (Ok false, Servo.ServoController_init).
Proof.
  assert (H10 : Py.moderate 10)
    by (apply moderate_small; vm_compute; discriminate).
  assert (Hbig : inject_Z (2 ^ 1024) <= Qabs (inject_Z (10 ^ 400)))
    by (vm_compute; discriminate).
  split; [reflexivity|]. split; [exact new_controller_within_limits|].
  split; [exact H10|]. split; [exact Hbig|].
  destruct (move_servo_without_hardware true "camera_pan" 10 true
              Servo.ServoController_init eq_refl camera_pan_known
              new_controller_positions (or_introl eq_refl))
    as (Hs & Hok & _).
  destruct (move_servo_without_hardware true "camera_pan"
              (inject_Z (10 ^ 400)) true
              Servo.ServoController_init eq_refl camera_pan_known
              new_controller_positions (or_introl eq_refl))
    as (Hs' & _ & Hfail).
  split.
  - apply injective_projections; [|exact Hs].
    exact (Hok (or_intror (conj new_controller_within_limits H10))).
  - apply injective_projections; [|exact Hs'].
    exact (Hfail eq_refl new_controller_within_limits Hbig).
Defined.

Lemma mock_never_moves_witness :
  Servo.cls Servo.MockServoController_init = Servo.Mock /\
  Servo.move_servo true "camera_pan" 10 false Servo.MockServoController_init
    = (Raise (AttributeError "servo_pins"), Servo.MockServoController_init) /\
  Servo.home_all_servos true Servo.MockServoController_init
    = (Ok false, Servo.MockServoController_init).
Proof.
  split; [reflexivity|].
  destruct (mock_never_moves true Servo.MockServoController_init eq_refl)
    as (Hmove & _ & _ & _ & Hhome).
  split; [apply Hmove|exact Hhome].
Defined.

Lemma move_servo_other_axes_witness :
  "camera_pan"%string <> "camera_tilt"%string /\
  Servo.current_positions
    (snd (Servo.move_servo true "camera_pan" 10 true Servo.ready_controller))
    !! "camera_tilt"%string
  = Servo.current_positions Servo.ready_controller !! "camera_tilt"%string.
Proof.
  assert (Hne : "camera_pan"%string <> "camera_tilt"%string) by discriminate.
  split; [exact Hne|].
  exact (move_servo_other_axes true "camera_pan" "camera_tilt" 10 true
           Servo.ready_controller Hne).
Defined.

Lemma move_servo_last_wins_witness :
  Servo.positions_present Servo.ready_controller /\
  Servo.within_limits Servo.ready_controller /\
  Py.moderate 120 /\
  snd (Servo.move_servo true "camera_pan" 120 false
         (snd (Servo.move_servo true "camera_pan" 10 true
                 Servo.ready_controller)))
  = snd (Servo.move_servo true "camera_pan" 120 false
           Servo.ready_controller).
Proof.
  assert (H120 : Py.moderate 120)
    by (apply moderate_small; vm_compute; discriminate).
  split; [exact ready_controller_positions|].
  split; [exact ready_controller_within_limits|]. split; [exact H120|].
  exact (move_servo_last_wins true "camera_pan" 10 120 true false
           Servo.ready_controller ready_controller_positions
           ready_controller_within_limits H120).
Defined.

Lemma move_servo_commute_witness :
  "camera_pan"%string <> "dish_elevation"%string /\
  Servo.positions_present Servo.ready_controller /\
  snd (Servo.move_servo true "dish_elevation" 30 false
         (snd (Servo.move_servo true "camera_pan" 10 true
                 Servo.ready_controller)))
  = snd (Servo.move_servo true "camera_pan" 10 true
           (snd (Servo.move_servo true "dish_elevation" 30 false
                   Servo.ready_controller))).
Proof.
  assert (Hne : "camera_pan"%string <> "dish_elevation"%string)
    by discriminate.
  split; [exact Hne|]. split; [exact ready_controller_positions|].
  exact (move_servo_commute true "camera_pan" "dish_elevation" 10 30 true
           false Servo.ready_controller Hne ready_controller_positions).
Defined.

Lemma home_all_servos_reaches_home_witness :
  let moved_away :=
    snd (Servo.move_servo true "camera_pan" 10 true Servo.ready_controller) in
  Servo.operational true moved_away /\
  Servo.positions_present moved_away /\
  Servo.within_limits moved_away /\
  fst (Servo.home_all_servos true moved_away) = Ok true /\
  Servo.current_positions (snd (Servo.home_all_servos true moved_away))
    !! "camera_pan"%string = Some 90.
Proof.
  intros moved_away.
  assert (Hop : Servo.operational true moved_away).
  { repeat split. intros n Hn. apply known_cases in Hn.
    destruct Hn as [ -> | [ -> | [ -> | -> ] ] ];
      eexists; vm_compute; reflexivity. }
  assert (Hpos : Servo.positions_present moved_away).
  { intros n Hn. apply known_cases in Hn.
    destruct Hn as [ -> | [ -> | [ -> | -> ] ] ];
      eexists; vm_compute; reflexivity. }
  assert (Hlim : Servo.within_limits moved_away).
  { intros n lo hi v Hl Hv.
    apply limits_table_entry in Hl.
    destruct Hl as [H|[H|[H|H]]]; destruct H as (-> & -> & ->);
      vm_compute in Hv; simplify_eq; split; lra. }
  split; [exact Hop|]. split; [exact Hpos|]. split; [exact Hlim|].
  destruct (home_all_servos_reaches_home true moved_away Hop Hpos Hlim)
    as [Hr Hhome].
  split; [exact Hr|]. apply Hhome.
  unfold Servo.home_positions. right. right. left.
Defined.

Lemma motions_without_hardware_witness :
  Servo.cls Servo.ServoController_init = Servo.Real /\
  Servo.initialized Servo.ServoController_init = false /\
  Servo.track_objects true [Servo.mkDetection (Some 0.9) (Some (0.5, 0.5))]
    Servo.ServoController_init
    = (Ok tt, Servo.ServoController_init) /\
  Servo.home_all_servos true Servo.ServoController_init
    = (Ok true, Servo.ServoController_init).
Proof.
  split; [reflexivity|]. split; [reflexivity|].
  destruct (motions_without_hardware true Servo.ServoController_init eq_refl
              new_controller_positions (or_introl eq_refl))
    as (Htrack & _ & Hhome).
  split; [apply Htrack|exact (Hhome new_controller_within_limits)].
Defined.

Lemma move_dish_wraps_azimuth_witness :
  Servo.operational true Servo.ready_controller /\
  Servo.positions_present Servo.ready_controller /\
  Servo.within_limits Servo.ready_controller /\
  exists v v',
    Servo.current_positions
      (snd (Servo.move_dish_to_coordinates true (inject_Z 350) 10
              Servo.ready_controller))
      !! "dish_azimuth"%string = Some v /\
    Servo.current_positions
      (snd (Servo.move_dish_to_coordinates true (inject_Z (350 + 360)) 10
              Servo.ready_controller))
      !! "dish_azimuth"%string = Some v' /\
    v == inject_Z (350 mod 360) * (1 # 2) /\ 0 <= v /\ v < 180 /\ v' == v.
Proof.
  split; [exact ready_controller_operational|].
  split; [exact ready_controller_positions|].
  split; [exact ready_controller_within_limits|].
  exact (move_dish_wraps_azimuth true 350 10 Servo.ready_controller
           ready_controller_operational ready_controller_positions
           ready_controller_within_limits).
Defined.

Lemma initialize_makes_operational_witness :
  Servo.initialized Servo.ServoController_init = false /\
  fst (Servo.initialize true false (fun _ => false)
         Servo.ServoController_init) = Ok true /\
  Servo.operational true
    (snd (Servo.initialize true false (fun _ => false)
            Servo.ServoController_init)) /\
  Servo.servo_pwm
    (snd (Servo.initialize true false (fun _ => false)
            Servo.ServoController_init)) !! "camera_pan"%string = Some 0.
Proof.
  split; [reflexivity|].
  destruct (initialize_makes_operational true false (fun _ => false)
              Servo.ServoController_init eq_refl eq_refl
              new_controller_positions eq_refl eq_refl (fun _ => eq_refl))
    as (Hr & Hop & _ & Hpwm).
  split; [exact Hr|]. split; [exact Hop|].
  apply Hpwm. exact camera_pan_known.
Defined.

Lemma initialize_failure_witness :
  let setup_raises (pin : Z) := (pin =? 20)%Z in
  (exists item, item ∈ Servo.servo_pins_items /\
                setup_raises (snd item) = true) /\
  fst (Servo.initialize true false setup_raises Servo.ServoController_init)
    = Ok false /\
  Servo.initialized
    (snd (Servo.initialize true false setup_raises
            Servo.ServoController_init)) = false.
Proof.
  intros setup_raises.
  assert (H : exists item, item ∈ Servo.servo_pins_items /\
                           setup_raises (snd item) = true).
  { exists ("camera_pan"%string, 20%Z). split; [|reflexivity].
    unfold Servo.servo_pins_items. right. right. left. }
  split; [exact H|].
  destruct (initialize_failure true false setup_raises
              Servo.ServoController_init eq_refl eq_refl eq_refl
              (or_intror H)) as (Hr & Hi & _).
  split; [exact Hr|exact Hi].
Defined.

Lemma shutdown_homes_and_disables_witness :
  Servo.operational true Servo.ready_controller /\
  Servo.positions_present Servo.ready_controller /\
  Servo.within_limits Servo.ready_controller /\
  fst (Servo.shutdown true (fun _ => false) false Servo.ready_controller)
    = Ok tt /\
  Servo.initialized
    (snd (Servo.shutdown true (fun _ => false) false Servo.ready_controller))
    = false /\
  Servo.current_positions
    (snd (Servo.shutdown true (fun _ => false) false Servo.ready_controller))
    !! "dish_elevation"%string = Some 45.
Proof.
  split; [exact ready_controller_operational|].
  split; [exact ready_controller_positions|].
  split; [exact ready_controller_within_limits|].
  destruct (shutdown_homes_and_disables true (fun _ => false) false
              Servo.ready_controller ready_controller_operational
              ready_controller_positions ready_controller_within_limits
              (fun _ => eq_refl) eq_refl)
    as (Hr & Hi & Hhome).
  split; [exact Hr|]. split; [exact Hi|]. apply Hhome.
  unfold Servo.home_positions. right. left.
Defined.

Lemma shutdown_idempotent_witness :
  Servo.positions_present Servo.ready_controller /\
  Servo.shutdown true (fun _ => false) false
    (snd (Servo.shutdown true (fun _ => false) false Servo.ready_controller))
  = (Ok tt,
     snd (Servo.shutdown true (fun _ => false) false Servo.ready_controller)).
Proof.
  split; [exact ready_controller_positions|].
  exact (shutdown_idempotent true (fun _ => false) false
           Servo.ready_controller ready_controller_positions
           (fun _ => eq_refl) eq_refl).
Defined.

Lemma shutdown_failure_keeps_flag_witness :
  let stop_raises (n : string) := String.eqb n "camera_tilt" in
  (exists n, is_Some (Servo.servo_pwm Servo.ready_controller !! n) /\
             stop_raises n = true) /\
  fst (Servo.shutdown true stop_raises false Servo.ready_controller)
    = Ok tt /\
  Servo.initialized
    (snd (Servo.shutdown true stop_raises false Servo.ready_controller))
    = true.
Proof.
  intros stop_raises.
  assert (H : exists n,
             is_Some (Servo.servo_pwm Servo.ready_controller !! n) /\
             stop_raises n = true).
  { exists "camera_tilt"%string. split; [|reflexivity].
    eexists. vm_compute. reflexivity. }
  split; [exact H|].
  exact (shutdown_failure_keeps_flag true stop_raises false
           Servo.ready_controller eq_refl ready_controller_positions
           (or_introl H)).
Defined.

(** *** The detector *)

Lemma detected_centre_in_bbox_witness :
  let obj :=
    Detector.object_of_contour (Detector.mkContour 800 (50, 50, 30, 30)%Z) in
  obj ∈ Detector.collect_objects Detector.three_contours [] /\
  (50 <= fst (Detector.center obj) <= 50 + 30)%Z /\
  (50 <= snd (Detector.center obj) <= 50 + 30)%Z.
Proof.
  intros obj.
  assert (Hin : obj ∈ Detector.collect_objects Detector.three_contours []).
  { vm_compute. right. left. }
  split; [exact Hin|].
  exact (detected_centre_in_bbox Detector.three_contours obj Hin
           ltac:(lia) ltac:(lia)).
Defined.

Lemma bright_frame_byte_image :
  Detector.byte_image 100 Detector.bright_frame.
Proof.
  unfold Detector.byte_image, Detector.bright_frame.
  apply Forall_replicate. split; [apply length_replicate|].
  apply Forall_replicate. lia.
Qed.

Lemma region_brightness_range_witness :
  Detector.byte_image 100 Detector.bright_frame /\
  0 <= Detector.brightness_of
         (Detector.region Detector.bright_frame 10 10 20 20) /\
  Detector.brightness_of (Detector.region Detector.bright_frame 10 10 20 20)
    <= 255.
Proof.
  split; [exact bright_frame_byte_image|].
  destruct (region_brightness_range 100 Detector.bright_frame 10 10 20 20
              bright_frame_byte_image) as (Hlo & Hhi & _).
  split; [exact Hlo|exact Hhi].
Defined.

(** *** The control loop *)

Lemma process_detection_counts_witness :
  let detection :=
    Detector.mkClassification Detector.meteor 0.95 (12, 5)%Z
      (0, 0, 25, 10)%Z 120 None in
  let run :=
    Main.process_detection "2024-01-01T00:00:01" (fun _ => false)
      (fun _ => "detection.jpg"%string) (fun _ _ => Ok true)
      (fun _ => 1%Z) detection Detector.bright_frame Main.sample_system in
  Main.detection_count Main.sample_system !! "meteor"%string = Some 0%Z /\
  fst run = Ok tt /\
  Main.detection_count (snd run)
    = <["meteor"%string := 1%Z]> (Main.detection_count Main.sample_system) /\
  Main.servos (snd run) = Main.servos Main.sample_system.
Proof.
  intros detection run.
  split; [reflexivity|].
  destruct (process_detection_counts unit "2024-01-01T00:00:01"
              (fun _ => false) (fun _ => "detection.jpg"%string)
              (fun _ _ => Ok true) (fun _ => 1%Z) detection
              Detector.bright_frame Main.sample_system 0%Z eq_refl)
    as (Hr & Hc & Hs & _).
  split; [exact Hr|]. split; [exact Hc|exact Hs].
Defined.

Lemma sample_system_tallies :
  Logger.tallies_add_up (Main.data_logger Main.sample_system).
Proof. exists 0%Z, 0%Z, 0%Z. repeat split. Qed.

Lemma detection_rounds_keep_tallies_witness :
  Logger.tallies_add_up (Main.data_logger Main.sample_system) /\
  Logger.tallies_add_up
    (Main.data_logger
       (snd (Main.detection_rounds true Detector.keep_frame
               (Detector.always_finds Detector.three_contours)
               Detector.default_policy "2024-01-01T00:00:01"
               (fun _ => false) (fun _ => "detection.jpg"%string)
               (fun _ _ => Ok true) (fun _ => 1%Z)
               [Some Detector.bright_frame; None; Some Detector.bright_frame]
               Main.sample_system))).
Proof.
  split; [exact sample_system_tallies|].
  exact (detection_rounds_keep_tallies unit true Detector.keep_frame
           (Detector.always_finds Detector.three_contours)
           Detector.default_policy "2024-01-01T00:00:01" (fun _ => false)
           (fun _ => "detection.jpg"%string) (fun _ _ => Ok true)
           (fun _ => 1%Z)
           [Some Detector.bright_frame; None; Some Detector.bright_frame]
           Main.sample_system sample_system_tallies).
Defined.

Lemma round_tracks_pixels_to_the_limit_witness :
  let after :=
    Servo.current_positions
      (Main.servos
         (snd (Main.detection_round true Detector.keep_frame
                 (Detector.always_finds Detector.three_contours)
                 Main.sure_policy "2024-01-01T00:00:01" (fun _ => false)
                 (fun _ => "detection.jpg"%string) (fun _ _ => Ok true)
                 (fun _ => 1%Z) (Some Detector.bright_frame)
                 Main.sample_system))) in
  Servo.operational true (Main.servos Main.sample_system) /\
  Servo.within_limits (Main.servos Main.sample_system) /\
  after !! "camera_pan"%string = Some 180 /\
  after !! "camera_tilt"%string = Some 150 /\
  (exists v, after !! "dish_azimuth"%string = Some v /\ v == 0) /\
  after !! "dish_elevation"%string = Some 90.
Proof.
  intros after.
  assert (Hl : exists l,
    fst (Detector.analyze_frame Detector.keep_frame
           (Detector.always_finds Detector.three_contours) Main.sure_policy
           Detector.bright_frame (Main.detector Main.sample_system)) = Ok l /\
    l <> [] /\
    (forall c, c ∈ l ->
       (1 <= fst (Detector.coordinates c) <= 2 ^ 1000)%Z /\
       (1 <= snd (Detector.coordinates c) <= 2 ^ 1000)%Z) /\
    exists c, c ∈ l /\ 0.8 < Detector.confidence c).
  { eexists. split; [vm_compute; reflexivity|]. split; [discriminate|]. split.
    - intros c Hc.
      assert (H1000 : (100 <= 2 ^ 1000)%Z) by (vm_compute; discriminate).
      repeat (apply elem_of_cons in Hc as [ -> | Hc ]);
        [simpl; lia..|inversion Hc].
    - eexists. split; [left|]. vm_compute. reflexivity. }
  destruct Hl as (l & Hl & Hne & Hpix & Hhigh).
  split; [exact ready_controller_operational|].
  split; [exact ready_controller_within_limits|].
  destruct (round_tracks_pixels_to_the_limit unit true Detector.keep_frame
              (Detector.always_finds Detector.three_contours)
              Main.sure_policy "2024-01-01T00:00:01" (fun _ => false)
              (fun _ => "detection.jpg"%string) (fun _ _ => Ok true)
              (fun _ => 1%Z) Detector.bright_frame Main.sample_system l
              ready_controller_operational ready_controller_positions
              ready_controller_within_limits
              Hl Hne Hpix) as (Hpan & Htilt & Hdish & _).
  split; [exact Hpan|]. split; [exact Htilt|]. exact (Hdish Hhigh).
Defined.

(** *** The position source *)

Lemma no_fix_without_gga_witness :
  let after :=
    snd (Gps.parse_all (option Q) Gps.sample_truthy Gps.sample_float
           Gps.sample_int 1000 Gps.sample_parse
           ["$GPRMC"; "$GPGSA"; "noise"]%string Gps.GPSController_init) in
  Gps.get_coordinates after = Some (40.5, -74) /\
  Gps.has_fix after = false.
Proof.
  intros after.
  split; [vm_compute; reflexivity|].
  refine (proj2 (proj2 (proj2
    (no_fix_without_gga (option Q) Gps.sample_truthy Gps.sample_float
       Gps.sample_int 1000 Gps.sample_parse
       ["$GPRMC"; "$GPGSA"; "noise"]%string Gps.GPSController_init _))) _).
  - intros sentence Hs.
    repeat (apply elem_of_cons in Hs as [ -> | Hs ]);
      [reflexivity..|inversion Hs].
  - simpl. lia.
Defined.

Lemma timestamp_implies_coordinates_witness :
  let after :=
    snd (Gps.parse_all (option Q) Gps.sample_truthy Gps.sample_float
           Gps.sample_int 1000 Gps.sample_parse
           ["$GPGSA"; "$GPGGA,bad"; "$GPRMC"]%string
           Gps.GPSController_init) in
  Gps.timestamp (Gps.current_location after) = Some 1000 /\
  is_Some (Gps.get_coordinates after).
Proof.
  intros after.
  assert (Ht : Gps.timestamp (Gps.current_location after) = Some 1000)
    by (vm_compute; reflexivity).
  split; [exact Ht|].
  refine (timestamp_implies_coordinates (option Q) Gps.sample_truthy
            Gps.sample_float Gps.sample_int 1000 Gps.sample_parse
            ["$GPGSA"; "$GPGGA,bad"; "$GPRMC"]%string
            Gps.GPSController_init _ _).
  - intros [x Hx]. discriminate Hx.
  - fold after. rewrite Ht. by eexists.
Defined.

Lemma gga_update_is_partial_witness :
  let before := Gps.MockGPSController_init 500 in
  let run :=
    Gps.parse_nmea_sentence (option Q) Gps.sample_truthy Gps.sample_float
      Gps.sample_int 1000 Gps.sample_parse "$GPGGA,bad" before in
  Gps.sample_int (Some 1.5) = Raise (ExternalError "int") /\
  fst run = Ok tt /\
  Gps.get_coordinates (snd run) = Some (41, -73) /\
  Gps.timestamp (Gps.current_location (snd run)) = Some 500 /\
  Gps.has_fix (snd run) = true.
Proof.
  intros before run.
  split; [reflexivity|].
  destruct (gga_update_is_partial (option Q) Gps.sample_truthy
              Gps.sample_float Gps.sample_int 1000 Gps.sample_parse
              "$GPGGA,bad" (Some 41) (Some (-73)) (Some 12) (Some 7)
              (Some 1.5) (Some 1) 41 (-73) (ExternalError "int") before
              eq_refl eq_refl eq_refl eq_refl eq_refl eq_refl eq_refl)
    as (Hr & Hc & _ & _ & Ht & Hf).
  split; [exact Hr|]. split; [exact Hc|]. split; [exact Ht|exact Hf].
Defined.
